(** * Zakat API: the price resolution engine

    A shallow embedding of the route handlers of the gold, silver and nisab
    endpoints (an in-memory cache, an ordered waterfall of upstream providers
    and a monthly snapshot file) and of the monthly update of the silver
    snapshot, and the properties of the resolution they implement.

    Conventions of the embedding.
    - A JavaScript [number] is a binary64 float ([PrimFloat.float]); a
      timestamp ([Date.now()]) is an integer number of milliseconds ([Z]).
    - Handlers run in a state-and-exception monad [M]: the state holds the
      clock, the module-level [priceCache], the files under the working
      directory, the console, and the list of network requests issued so
      far.
    - Everything outside the process is the [World]: environment variables,
      the network, and the JavaScript built-ins whose algorithms are not
      reproduced here (the local calendar of [Date], string-to-number
      conversion, regular-expression matching).
    - Synchronous code takes no time: the clock advances only while a network
      request is outstanding.
    - The console keeps every [console.error] line and the [console.log]
      lines of [catch] handlers, each by its leading text; the other
      [console.log] lines are informational and are not recorded.
    - The state has one [priceCache]: the module-level [Map] of a route is
      the part of it under that route's key. The gold route and the nisab
      route with a waterfall of its own use the same key, each in a [Map] of
      its own: a property of one of them speaks of its own [Map] only, and
      no property runs the two on one state. *)

From Stdlib Require Import ZArith String Ascii List Bool Floats DecimalString Lia.
From Stdlib Require Import Sorted OrderedTypeEx.
From stdpp Require Import base option gmap strings list.

Set Warnings "-inexact-float,-register-all".

Open Scope string_scope.
Open Scope Z_scope.

(** ** JavaScript values *)

Module Js.

(** The values a parsed JSON document or a route can hold. An object is its
    list of own properties in insertion order, with distinct keys. *)
Inductive value : Type :=
| Undefined
| Null
| Bool (b : bool)
| Num (x : float)
| Str (s : string)
| Arr (items : list value)
| Obj (props : list (string * value)).

Definition props := list (string * value).

(** What a [throw] carries: an [Error] instance with its message, or any
    other value. *)
Inductive thrown : Type :=
| ErrorInst (message : string)
| NotAnError.

Inductive completion (A : Type) : Type :=
| Normal (a : A)
| Throw (e : thrown).
Arguments Normal {A} a.
Arguments Throw {A} e.

Definition TypeError : thrown := ErrorInst "TypeError".

(** [Boolean(v)]: the truthiness used by [if], [!], [&&] and [?:]. *)
Definition truthy (v : value) : bool :=
  match v with
  | Undefined | Null => false
  | Bool b => b
  | Num x => negb (PrimFloat.is_zero x || PrimFloat.is_nan x)
  | Str s => negb (String.eqb s "")
  | Arr _ | Obj _ => true
  end.

(** [typeof v === 'number'] *)
Definition is_number (v : value) : bool :=
  match v with Num _ => true | _ => false end.

Definition string_of_nat (n : nat) : string :=
  NilZero.string_of_uint (Nat.to_uint n).

Definition string_of_Z (z : Z) : string :=
  NilZero.string_of_int (Z.to_int z).

(** Own property lookup in a property list. *)
Fixpoint own (ps : props) (k : string) : option value :=
  match ps with
  | [] => None
  | (k', v) :: rest => if String.eqb k' k then Some v else own rest k
  end.

(** [o[k] = v] on an object: an existing key keeps its place, a new key goes
    last. *)
Fixpoint set_prop (ps : props) (k : string) (v : value) : props :=
  match ps with
  | [] => [(k, v)]
  | (k', v') :: rest =>
      if String.eqb k' k then (k', v) :: rest else (k', v') :: set_prop rest k v
  end.

(** The index-named properties of an array or of the characters of a
    string. *)
Fixpoint indexed (from : nat) (items : list value) : props :=
  match items with
  | [] => []
  | v :: rest => (string_of_nat from, v) :: indexed (S from) rest
  end.

Fixpoint chars (s : string) : list value :=
  match s with
  | EmptyString => []
  | String c rest => Str (String c EmptyString) :: chars rest
  end.

Definition length_of (n : nat) : value := Num (PrimFloat.of_uint63 (Uint63.of_Z (Z.of_nat n))).

(** [v[k]] (and [v.k]) for a value that is neither [undefined] nor [null]:
    own properties, the indices and [length] of arrays and strings. The
    inherited methods of the prototypes are not properties any route reads
    as data, and read as [undefined] here. *)
Definition member (v : value) (k : string) : value :=
  match v with
  | Obj ps => default Undefined (own ps k)
  | Arr items =>
      if String.eqb k "length" then length_of (length items)
      else default Undefined (own (indexed 0 items) k)
  | Str s =>
      if String.eqb k "length" then length_of (String.length s)
      else default Undefined (own (indexed 0 (chars s)) k)
  | _ => Undefined
  end.

(** [v.k]: a [TypeError] on [undefined] and [null]. *)
Definition get (v : value) (k : string) : completion value :=
  match v with
  | Undefined | Null => Throw TypeError
  | _ => Normal (member v k)
  end.

(** [v?.k] *)
Definition opt (v : value) (k : string) : value :=
  match v with
  | Undefined | Null => Undefined
  | _ => member v k
  end.

(** [{...v}]: the own enumerable properties copied by a spread. *)
Definition spread (v : value) : props :=
  match v with
  | Obj ps => ps
  | Arr items => indexed 0 items
  | Str s => indexed 0 (chars s)
  | _ => []
  end.

(** [Object.keys(v)]: a [TypeError] on [undefined] and [null]. *)
Definition keys (v : value) : completion (list string) :=
  match v with
  | Undefined | Null => Throw TypeError
  | _ => Normal (map fst (spread v))
  end.

(** [Array.prototype.sort()] with the default comparison, on strings: by
    code unit, ascending. Keys are ASCII here, where the order of code
    units is the order of bytes. *)
Fixpoint insert_sorted (k : string) (l : list string) : list string :=
  match l with
  | [] => [k]
  | h :: t => if String.leb k h then k :: h :: t else h :: insert_sorted k t
  end.

Fixpoint sort (l : list string) : list string :=
  match l with
  | [] => []
  | h :: t => insert_sorted h (sort t)
  end.

(** [String.prototype.padStart(targetLength, padString)] *)
Fixpoint repeat_to (n : nat) (pad cur : string) : string :=
  match n with
  | O => EmptyString
  | S n' =>
      match cur with
      | EmptyString =>
          match pad with
          | EmptyString => EmptyString
          | String c rest => String c (repeat_to n' pad rest)
          end
      | String c rest => String c (repeat_to n' pad rest)
      end
  end.

Definition padStart (targetLength : nat) (padString : string) (s : string) : string :=
  repeat_to (targetLength - String.length s) padString padString ++ s.

(** [JSON.parse(JSON.stringify(v))]: what survives serialisation. A
    property whose value is [undefined] is dropped, an array slot holding
    [undefined] becomes [null], a number that is not finite becomes [null],
    and negative zero becomes zero. [None] is the document of [undefined]
    itself (no text at all). *)
Definition json_number (x : float) : value :=
  if PrimFloat.is_finite x
  then (if PrimFloat.is_zero x then Num 0%float else Num x)
  else Null.

Fixpoint jsonify (v : value) : option value :=
  match v with
  | Undefined => None
  | Null => Some Null
  | Bool b => Some (Bool b)
  | Num x => Some (json_number x)
  | Str s => Some (Str s)
  | Arr items => Some (Arr (map (fun i => default Null (jsonify i)) items))
  | Obj ps =>
      Some (Obj ((fix go (l : props) : props :=
                    match l with
                    | [] => []
                    | (k, w) :: rest =>
                        match jsonify w with
                        | Some w' => (k, w') :: go rest
                        | None => go rest
                        end
                    end) ps))
  end.

Definition jsonify_props (ps : props) : props :=
  match jsonify (Obj ps) with
  | Some (Obj ps') => ps'
  | _ => []
  end.

End Js.

Export Js(value, props, thrown, completion).
Import Js(Undefined, Null, Bool, Num, Str, Arr, Obj, ErrorInst, NotAnError, Normal, Throw).

(** ** The world outside the process *)

(** A request as the routes issue it: the address, and the [x-access-token]
    header when one is sent. The fixed headers ([Content-Type],
    [User-Agent]) and [cache: 'no-store'] are the same for every request to
    an address and are not recorded. *)
Record HttpRequest : Type := {
  url : string;
  access_token : option string
}.

(** A response: [json_body] is what [response.json()] resolves to ([None]
    when the body is not JSON and the call rejects), [text_body] what
    [response.text()] resolves to. *)
Record HttpResponse : Type := {
  status : Z;
  json_body : option value;
  text_body : string
}.

(** [response.ok] *)
Definition ok (r : HttpResponse) : bool :=
  (200 <=? status r) && (status r <=? 299).

Inductive FetchResult : Type :=
| Rejected (e : thrown)
| Resolved (r : HttpResponse).

(** One round trip: how long it took (milliseconds) and how it ended. *)
Record Exchange : Type := {
  elapsed : N;
  result : FetchResult
}.

(** The two regular expressions [fetchGoldPriceOrg] tries, in order. *)
Inductive Pattern : Type :=
| CadPattern        (* /CAD[^0-9]*([0-9,]+\.[0-9]{2})/i *)
| QuotedCadPattern. (* /"cad"[^0-9]*([0-9,]+\.[0-9]{2})/i *)

Record World : Type := {
  (* process.env *)
  GOLD_API_KEY_1 : option string;
  GOLD_API_KEY_2 : option string;
  GOLD_API_KEY_3 : option string;
  METALS_API_KEY : option string;
  FCS_API_KEY : option string;
  (* the network: the exchange a request sent at a given time gets *)
  network : Z -> HttpRequest -> Exchange;
  (* whether a request to the application's own origin is rejected *)
  own_origin_fault : option thrown;
  (* Date: the local calendar year and month index (0..11) of a timestamp,
     and its ISO-8601 text *)
  getFullYear : Z -> Z;
  getMonth : Z -> Z;
  toISOString : Z -> string;
  (* Number(s) on a string; Number(v) on an array or an object *)
  StringToNumber : string -> float;
  ObjectToNumber : value -> float;
  (* the first capture group of html.match(pattern), when it matches *)
  regexp_match : Pattern -> string -> option string
}.

(** [Number(v)], also the conversion applied by [*] and [/]. *)
Definition ToNumber (W : World) (v : value) : float :=
  match v with
  | Undefined => PrimFloat.nan
  | Null => 0%float
  | Bool b => if b then 1%float else 0%float
  | Num x => x
  | Str s => StringToNumber W s
  | Arr _ | Obj _ => ObjectToNumber W v
  end.

(** [!key] on an environment variable: unset or empty. *)
Definition configured (key : option string) : option string :=
  match key with
  | Some k => if String.eqb k "" then None else Some k
  | None => None
  end.

(** ** Payloads, cache entries and the process state *)

(** [GoldPricePayload] / [SilverPricePayload]. The nisab route's payload also
    carries [type]. *)
Record Payload : Type := {
  price_oz : float;
  price_gram_24k : float;
  currency : string;
  provider : string;
  type : option string;
  cached : option bool
}.

Definition with_cached (p : Payload) (c : bool) : Payload :=
  {| price_oz := price_oz p; price_gram_24k := price_gram_24k p;
     currency := currency p; provider := provider p; type := type p;
     cached := Some c |}.

(** The payload as a JavaScript object: the properties in the order the
    adapters write them, [cached] last when the cache added it. *)
Definition payload_props (p : Payload) : props :=
  ([("price_oz", Num (price_oz p));
    ("price_gram_24k", Num (price_gram_24k p));
    ("currency", Str (currency p));
    ("provider", Str (provider p))]
   ++ match type p with Some t => [("type", Str t)] | None => [] end
   ++ match cached p with Some c => [("cached", Bool c)] | None => [] end)%list.

Record CacheEntry : Type := {
  ts : Z;
  data : Payload
}.

(** A file as [readFileSync] then [JSON.parse] see it: text that does not
    parse, or the value it parses to. A path with no entry has no file. *)
Inductive FileContent : Type :=
| NotJson
| Json (v : value).

Record State : Type := {
  clock : Z;
  priceCache : gmap string CacheEntry;
  files : gmap string FileContent;
  read_only_disk : bool;
  console : list string;
  requests : list HttpRequest
}.

Definition set_clock (t : Z) (s : State) : State :=
  {| clock := t; priceCache := priceCache s; files := files s;
     read_only_disk := read_only_disk s; console := console s;
     requests := requests s |}.

Definition set_priceCache (c : gmap string CacheEntry) (s : State) : State :=
  {| clock := clock s; priceCache := c; files := files s;
     read_only_disk := read_only_disk s; console := console s;
     requests := requests s |}.

Definition set_files (f : gmap string FileContent) (s : State) : State :=
  {| clock := clock s; priceCache := priceCache s; files := f;
     read_only_disk := read_only_disk s; console := console s;
     requests := requests s |}.

Definition set_read_only_disk (b : bool) (s : State) : State :=
  {| clock := clock s; priceCache := priceCache s; files := files s;
     read_only_disk := b; console := console s;
     requests := requests s |}.

Definition set_console (l : list string) (s : State) : State :=
  {| clock := clock s; priceCache := priceCache s; files := files s;
     read_only_disk := read_only_disk s; console := l;
     requests := requests s |}.

Definition set_requests (l : list HttpRequest) (s : State) : State :=
  {| clock := clock s; priceCache := priceCache s; files := files s;
     read_only_disk := read_only_disk s; console := console s;
     requests := l |}.

(** ** The monad of handlers: state and exceptions *)

Definition M (A : Type) : Type := State -> completion A * State.

Definition ret {A : Type} (a : A) : M A := fun s => (Normal a, s).

Definition throw {A : Type} (e : thrown) : M A := fun s => (Throw e, s).

Definition bind {A B : Type} (m : M A) (k : A -> M B) : M B :=
  fun s =>
    match m s with
    | (Normal a, s') => k a s'
    | (Throw e, s') => (Throw e, s')
    end.

(** [try { body } catch (error) { handler }]: the state changes made before
    the throw stay. *)
Definition try_catch {A : Type} (body : M A) (handler : thrown -> M A) : M A :=
  fun s =>
    match body s with
    | (Normal a, s') => (Normal a, s')
    | (Throw e, s') => handler e s'
    end.

Definition lift {A : Type} (c : completion A) : M A := fun s => (c, s).

Declare Scope js_scope.
Delimit Scope js_scope with js.
Notation "x <- c ;; k" := (bind c (fun x => k))
  (at level 100, c at next level, right associativity) : js_scope.
Notation "c ;; k" := (bind c (fun _ => k))
  (at level 100, right associativity) : js_scope.
Open Scope js_scope.

(** [Date.now()] and the timestamp of [new Date()] *)
Definition Date_now : M Z := fun s => (Normal (clock s), s).

(** [console.log] / [console.error], recorded by the line's leading text. *)
Definition console_line (line : string) : M unit :=
  fun s => (Normal tt, set_console (console s ++ [line])%list s).

(** [await fetch(url, ...)]: the request is recorded, the clock moves by the
    round-trip time, and the promise resolves or rejects. *)
Definition fetch (W : World) (req : HttpRequest) : M HttpResponse :=
  fun s =>
    let x := network W (clock s) req in
    let s' := set_requests (requests s ++ [req])%list
                (set_clock (clock s + Z.of_N (elapsed x)) s) in
    match result x with
    | Rejected e => (Throw e, s')
    | Resolved r => (Normal r, s')
    end.

(** [await response.json()] *)
Definition response_json (r : HttpResponse) : M value :=
  match json_body r with
  | Some v => ret v
  | None => throw (ErrorInst "SyntaxError")
  end.

(** [readFileSync(path, 'utf-8')]: throws when there is no file. *)
Definition readFileSync (path : string) : M FileContent :=
  fun s =>
    match files s !! path with
    | Some c => (Normal c, s)
    | None => (Throw (ErrorInst "ENOENT"), s)
    end.

(** [JSON.parse(fileContent)] *)
Definition JSON_parse (c : FileContent) : M value :=
  match c with
  | Json v => ret v
  | NotJson => throw (ErrorInst "SyntaxError")
  end.

(** [JSON.stringify(v, null, 2)], as the content the text parses back to;
    [None] for [undefined], which has no text. *)
Definition JSON_stringify (v : value) : option FileContent :=
  match Js.jsonify v with
  | Some v' => Some (Json v')
  | None => None
  end.

(** [writeFileSync(path, text, 'utf-8')]: throws on a disk that cannot be
    written, and on a text that is [undefined]. *)
Definition writeFileSync (path : string) (text : option FileContent) : M unit :=
  fun s =>
    match text with
    | None => (Throw Js.TypeError, s)
    | Some c =>
        if read_only_disk s then (Throw (ErrorInst "EROFS"), s)
        else (Normal tt, set_files (<[path := c]> (files s)) s)
    end.

(** [`${now.getFullYear()}-${String(now.getMonth() + 1).padStart(2, '0')}`] *)
Definition month_key (W : World) (now : Z) : string :=
  Js.string_of_Z (getFullYear W now) ++ "-"
  ++ Js.padStart 2 "0" (Js.string_of_Z (getMonth W now + 1)).

(** ** Request cache *)

Definition CACHE_TTL_MS : Z := 10 * 60 * 1000.

Definition getCachedPrice (key : string) : M (option Payload) :=
  fun s =>
    match priceCache s !! key with
    | None => (Normal None, s)
    | Some entry =>
        if clock s - ts entry >? CACHE_TTL_MS
        then (Normal None, set_priceCache (delete key (priceCache s)) s)
        else (Normal (Some (with_cached (data entry) true)), s)
    end.

Definition setCachedPrice (key : string) (d : Payload) : M unit :=
  fun s =>
    (Normal tt,
     set_priceCache (<[key := {| ts := clock s; data := d |}]> (priceCache s)) s).

(** ** Snapshot store: one JSON file of month keys *)

(** [target[k] = v] in a module (strict code): a [TypeError] on [null] and on
    a primitive. On an array the key, which is no index, becomes a property
    that [JSON.stringify] does not write, so the array is what is kept. *)
Definition assign (target : value) (k : string) (v : value) : completion value :=
  match target with
  | Obj ps => Normal (Obj (Js.set_prop ps k v))
  | Arr items => Normal (Arr items)
  | _ => Throw Js.TypeError
  end.

Section SnapshotStore.

(** What differs between the routes' copies of the two functions: the file,
    and the text of the console lines. *)
Variable W : World.
Variable filePath : string.
Variable creating_line : string.
Variable update_error_line : string.
Variable fallback_error_line : string.

Definition monthly_record (d : Payload) (now : Z) : value :=
  Obj [("price", Num (price_oz d));
       ("price_oz", Num (price_oz d));
       ("price_gram_24k", Num (price_gram_24k d));
       ("currency", Str (currency d));
       ("provider", Str (provider d));
       ("cached", Bool true);
       ("timestamp", Str (toISOString W now))].

Definition updateMonthlyPriceFile (d : Payload) : M unit :=
  try_catch
    (monthlyPrices <-
       try_catch
         (fileContent <- readFileSync filePath ;;
          JSON_parse fileContent)
         (fun _ => console_line creating_line ;; ret (Obj [])) ;;
     now <- Date_now ;;
     let monthKey := month_key W now in
     monthlyPrices' <- lift (assign monthlyPrices monthKey (monthly_record d now)) ;;
     writeFileSync filePath (JSON_stringify monthlyPrices'))
    (fun error => console_line update_error_line).

(** [{ ...record, provider: 'monthly-fallback' }] *)
Definition tagged_fallback (record : value) : props :=
  Js.set_prop (Js.spread record) "provider" (Str "monthly-fallback").

Definition getMonthlyFallback : M (option props) :=
  try_catch
    (fileContent <- readFileSync filePath ;;
     monthlyPrices <- JSON_parse fileContent ;;
     now <- Date_now ;;
     let currentMonth := month_key W now in
     current <- lift (Js.get monthlyPrices currentMonth) ;;
     if Js.truthy current
     then ret (Some (tagged_fallback current))
     else
       ks <- lift (Js.keys monthlyPrices) ;;
       let months := rev (Js.sort ks) in
       match months with
       | latestMonth :: _ =>
           latest <- lift (Js.get monthlyPrices latestMonth) ;;
           ret (Some (tagged_fallback latest))
       | [] => ret None
       end)
    (fun error => console_line fallback_error_line ;; ret None).

End SnapshotStore.

(** ** Provider adapters *)

Definition TROY_OUNCE_GRAMS : float := 31.1034768%float.

Section Adapters.

(** What differs between the routes' copies of the three shared adapters: the
    metal in the addresses, the [type] the nisab route adds to its payloads,
    and the text of the console lines. *)
Variable W : World.
Variable symbol : string.
Variable payload_type : option string.
Variable goldapi_error_line : string -> string.
Variable metals_error_line : string.
Variable fcsapi_error_line : string.

Definition goldapi_request (key : string) : HttpRequest :=
  {| url := "https://www.goldapi.io/api/" ++ symbol ++ "/CAD";
     access_token := Some key |}.

Definition GOLD_API_KEYS : list (option string) :=
  [GOLD_API_KEY_1 W; GOLD_API_KEY_2 W; GOLD_API_KEY_3 W].

(** The loop of [fetchGoldApiIo] from index [i] on. *)
Fixpoint fetchGoldApiIo_from (i : nat) (keys : list (option string)) : M (option Payload) :=
  match keys with
  | [] => ret None
  | k :: rest =>
      match configured k with
      | None => fetchGoldApiIo_from (S i) rest
      | Some key =>
          let keyName := "GOLD_API_KEY_" ++ Js.string_of_nat (i + 1) in
          found <-
            try_catch
              (response <- fetch W (goldapi_request key) ;;
               if ok response
               then
                 data <- response_json response ;;
                 price <- lift (Js.get data "price") ;;
                 match price with
                 | Num p =>
                     gram <- lift (Js.get data "price_gram_24k") ;;
                     match gram with
                     | Num g =>
                         ret (Some {| price_oz := p;
                                      price_gram_24k := g;
                                      currency := "CAD";
                                      provider := "goldapi.io (" ++ keyName ++ ")";
                                      type := payload_type;
                                      cached := None |})
                     | _ => ret None
                     end
                 | _ => ret None
                 end
               else ret None)
              (fun error => console_line (goldapi_error_line keyName) ;; ret None) ;;
          match found with
          | Some p => ret (Some p)
          | None => fetchGoldApiIo_from (S i) rest
          end
      end
  end.

Definition fetchGoldApiIo : M (option Payload) :=
  fetchGoldApiIo_from 0 GOLD_API_KEYS.

Definition metals_request (key : string) : HttpRequest :=
  {| url := "https://metals-api.com/api/latest?access_key=" ++ key
            ++ "&base=" ++ symbol ++ "&symbols=CAD";
     access_token := None |}.

Definition fetchMetalsApi : M (option Payload) :=
  match configured (METALS_API_KEY W) with
  | None => ret None
  | Some key =>
      try_catch
        (response <- fetch W (metals_request key) ;;
         if negb (ok response) then ret None
         else
           data <- response_json response ;;
           if Js.truthy (Js.opt data "success")
              && Js.truthy (Js.opt (Js.opt data "rates") "CAD")
           then
             rates <- lift (Js.get data "rates") ;;
             cad <- lift (Js.get rates "CAD") ;;
             let price_oz := (1 / ToNumber W cad)%float in
             let price_gram_24k := (price_oz / TROY_OUNCE_GRAMS)%float in
             ret (Some {| price_oz := price_oz;
                          price_gram_24k := price_gram_24k;
                          currency := "CAD";
                          provider := "metals-api";
                          type := payload_type;
                          cached := None |})
           else ret None)
        (fun error => console_line metals_error_line ;; ret None)
  end.

Definition fcsapi_request (key : string) : HttpRequest :=
  {| url := "https://fcsapi.com/api-v3/forex/latest?symbol=" ++ symbol
            ++ "/CAD&access_key=" ++ key;
     access_token := None |}.

Definition fetchFcsApi : M (option Payload) :=
  match configured (FCS_API_KEY W) with
  | None => ret None
  | Some key =>
      try_catch
        (response <- fetch W (fcsapi_request key) ;;
         if negb (ok response) then ret None
         else
           data <- response_json response ;;
           if Js.truthy (Js.opt data "status")
              && Js.truthy (Js.opt (Js.opt (Js.opt data "response") "0") "price")
           then
             response0 <- lift (Js.get data "response") ;;
             first <- lift (Js.get response0 "0") ;;
             quoted <- lift (Js.get first "price") ;;
             let price_oz := ToNumber W quoted in
             let price_gram_24k := (price_oz / TROY_OUNCE_GRAMS)%float in
             ret (Some {| price_oz := price_oz;
                          price_gram_24k := price_gram_24k;
                          currency := "CAD";
                          provider := "fcsapi";
                          type := payload_type;
                          cached := None |})
           else ret None)
        (fun error => console_line fcsapi_error_line ;; ret None)
  end.

End Adapters.

(** [priceStr.replace(/,/g, '')] *)
Fixpoint remove_commas (s : string) : string :=
  match s with
  | EmptyString => EmptyString
  | String c rest =>
      if Ascii.eqb c "," then remove_commas rest else String c (remove_commas rest)
  end.

Section GoldPriceOrg.

Variable W : World.

Definition goldprice_request : HttpRequest :=
  {| url := "https://goldprice.org/"; access_token := None |}.

(** The loop over [patterns]: the first match whose number is finite and
    positive is the price. *)
Fixpoint scan_patterns (html : string) (patterns : list Pattern) : option Payload :=
  match patterns with
  | [] => None
  | pattern :: rest =>
      match regexp_match W pattern html with
      | Some group1 =>
          let priceStr := remove_commas group1 in
          let price_oz := StringToNumber W priceStr in
          if PrimFloat.is_finite price_oz && PrimFloat.ltb 0 price_oz
          then
            let price_gram_24k := (price_oz / TROY_OUNCE_GRAMS)%float in
            Some {| price_oz := price_oz;
                    price_gram_24k := price_gram_24k;
                    currency := "CAD";
                    provider := "goldprice.org";
                    type := None;
                    cached := None |}
          else scan_patterns html rest
      | None => scan_patterns html rest
      end
  end.

Definition fetchGoldPriceOrg : M (option Payload) :=
  try_catch
    (response <- fetch W goldprice_request ;;
     if negb (ok response) then ret None
     else
       let html := text_body response in
       ret (scan_patterns html [CadPattern; QuotedCadPattern]))
    (fun error => console_line "[goldprice.org] Error:" ;; ret None).

End GoldPriceOrg.

(** ** Responses and requests of the routes *)

(** A route's answer: the status, and the body as the client parses it. *)
Record Response : Type := {
  response_status : Z;
  response_body : value
}.

(** [NextResponse.json(body, { status })]; the status is 200 when none is
    given. *)
Definition NextResponse_json (body : props) (status : Z) : Response :=
  {| response_status := status;
     response_body := Obj (Js.jsonify_props body) |}.

(** The query parameters a route reads: [searchParams.get('grams')] and
    [searchParams.get('debug')], absent or with their text. *)
Record Request : Type := {
  grams_param : option string;
  debug_param : option string
}.

Definition wants_grams (request : Request) : bool :=
  bool_decide (grams_param request = Some "true").

Definition wants_debug (request : Request) : bool :=
  bool_decide (debug_param request = Some "1").

(** One entry of the [errors] array: [{ provider, message }]. *)
Record Diagnostic : Type := {
  failed_provider : string;
  message : string
}.

Definition diagnostic_value (d : Diagnostic) : value :=
  Obj [("provider", Str (failed_provider d)); ("message", Str (message d))].

(** [error instanceof Error ? error.message : 'Unknown error'] *)
Definition error_message (error : thrown) : string :=
  match error with
  | ErrorInst m => m
  | NotAnError => "Unknown error"
  end.

(** [{ ...base, ...extra }]: later properties overwrite earlier ones. *)
Definition spread_into (base extra : props) : props :=
  fold_left (fun o kv => Js.set_prop o (fst kv) (snd kv)) extra base.

(** ** The price routes (gold, silver) *)

Section PriceRoute.

(** What differs between the routes' copies of [GET]: the cache key, the
    list of providers, the snapshot write after a live success (absent from
    the second silver route), the snapshot read, and the text of the console
    lines and of the failure. *)
Variable W : World.
Variable cacheKey : string.
Variable providers : list (string * M (option Payload)).
Variable snapshot_write : Payload -> M unit.
Variable monthly_fallback : M (option props).
Variable thrown_line : string -> option string.
Variable failure_line : string.
Variable failure_error : string.

(** The answer on a cache hit: [{ price, ...cached }]. *)
Definition cached_response (grams : bool) (hit : Payload) : Response :=
  let price := if grams then price_gram_24k hit else price_oz hit in
  NextResponse_json (spread_into [("price", Num price)] (payload_props hit)) 200.

(** The answer on a live success. *)
Definition live_response (grams : bool) (result : Payload) : Response :=
  let price := if grams then price_gram_24k result else price_oz result in
  NextResponse_json
    [("price", Num price);
     ("price_oz", Num (price_oz result));
     ("price_gram_24k", Num (price_gram_24k result));
     ("currency", Str (currency result));
     ("provider", Str (provider result));
     ("cached", Bool false)] 200.

(** The answer from the snapshot: [fallback.k] is [undefined] for a property
    the record does not have. *)
Definition fallback_response (grams : bool) (fallback : props) : Response :=
  let field k := default Undefined (Js.own fallback k) in
  let price := if grams then field "price_gram_24k" else field "price_oz" in
  NextResponse_json
    [("price", price);
     ("price_oz", field "price_oz");
     ("price_gram_24k", field "price_gram_24k");
     ("currency", field "currency");
     ("provider", field "provider");
     ("cached", Bool false)] 200.

(** The answer when nothing is left. *)
Definition failure_response (debug : bool) (errors : list Diagnostic) : Response :=
  NextResponse_json
    (spread_into [("error", Str failure_error)]
       (if debug then [("debug", Arr (map diagnostic_value errors))] else []))
    500.

Definition push_if (debug : bool) (errors : list Diagnostic) (d : Diagnostic)
  : list Diagnostic :=
  if debug then (errors ++ [d])%list else errors.

(** The loop [for (const { name, fn } of providers)]: [inl] is the response
    the handler returns from inside the loop, [inr] the [errors] array when
    the loop runs out. *)
Fixpoint try_providers (debug grams : bool)
    (ps : list (string * M (option Payload))) (errors : list Diagnostic)
  : M (Response + list Diagnostic) :=
  match ps with
  | [] => ret (inr errors)
  | (name, fn) :: rest =>
      step <-
        try_catch
          (result <- fn ;;
           match result with
           | Some result =>
               (if negb debug then setCachedPrice cacheKey result else ret tt) ;;
               snapshot_write result ;;
               ret (inl (live_response grams result))
           | None =>
               ret (inr (push_if debug errors
                           {| failed_provider := name;
                              message := "No data in response" |}))
           end)
          (fun error =>
             match thrown_line name with
             | Some line => console_line line
             | None => ret tt
             end ;;
             ret (inr (push_if debug errors
                         {| failed_provider := name;
                            message := error_message error |}))) ;;
      match step with
      | inl response => ret (inl response)
      | inr errors' => try_providers debug grams rest errors'
      end
  end.

(** The cache read, skipped in debug mode. *)
Definition read_cache (debug : bool) : M (option Payload) :=
  if debug then ret None else getCachedPrice cacheKey.

Definition GET_with (request : Request) : M Response :=
  let grams := wants_grams request in
  let debug := wants_debug request in
  hit <- read_cache debug ;;
  match hit with
  | Some hit => ret (cached_response grams hit)
  | None =>
      live <- try_providers debug grams providers [] ;;
      match live with
      | inl response => ret response
      | inr errors =>
          fallback <- monthly_fallback ;;
          match fallback with
          | Some fallback => ret (fallback_response grams fallback)
          | None =>
              console_line failure_line ;;
              ret (failure_response debug errors)
          end
      end
  end.

End PriceRoute.

(** *** src/unnamed/part_001: the gold route *)

Module Gold.

Definition cacheKey : string := "XAU-CAD".
Definition filePath : string := "public/gold-monthly-prices.json".

Definition updateMonthlyPriceFile (W : World) : Payload -> M unit :=
  updateMonthlyPriceFile W filePath
    "[Update Monthly File] Creating new file"
    "[Update Monthly File] Error updating file:".

Definition getMonthlyFallback (W : World) : M (option props) :=
  getMonthlyFallback W filePath
    "[Monthly Fallback] Error reading monthly prices:".

Definition fetchGoldApiIo (W : World) : M (option Payload) :=
  fetchGoldApiIo W "XAU" None
    (fun keyName => "[goldapi.io] " ++ keyName ++ " error:").

Definition fetchMetalsApi (W : World) : M (option Payload) :=
  fetchMetalsApi W "XAU" None "[metals-api] Error:".

Definition fetchFcsApi (W : World) : M (option Payload) :=
  fetchFcsApi W "XAU" None "[fcsapi] Error:".

Definition fetchGoldPriceOrg (W : World) : M (option Payload) :=
  fetchGoldPriceOrg W.

Definition providers (W : World) : list (string * M (option Payload)) :=
  [("goldapi.io", fetchGoldApiIo W);
   ("metals-api", fetchMetalsApi W);
   ("fcsapi", fetchFcsApi W);
   ("goldprice.org", fetchGoldPriceOrg W)].

Definition GET (W : World) (request : Request) : M Response :=
  GET_with cacheKey (providers W) (updateMonthlyPriceFile W)
    (getMonthlyFallback W) (fun _ => None)
    "[Gold API] All providers failed"
    "Failed to fetch gold price from all providers" request.

End Gold.

(** *** src/app/api/silver/route.ts, lines 1-344: the silver route *)

Module Silver.

Definition cacheKey : string := "XAG-CAD".
Definition filePath : string := "public/silver-monthly-prices.json".

Definition updateMonthlyPriceFile (W : World) : Payload -> M unit :=
  updateMonthlyPriceFile W filePath
    "[Update Silver Monthly File] Creating new file"
    "[Update Silver Monthly File] Error updating file:".

Definition getMonthlyFallback (W : World) : M (option props) :=
  getMonthlyFallback W filePath
    "[Silver Monthly Fallback] Error reading monthly prices:".

Definition fetchGoldApiIo (W : World) : M (option Payload) :=
  fetchGoldApiIo W "XAG" None
    (fun keyName => "[goldapi.io/silver] " ++ keyName ++ " error:").

Definition fetchMetalsApi (W : World) : M (option Payload) :=
  fetchMetalsApi W "XAG" None "[metals-api/silver] Error:".

Definition fetchFcsApi (W : World) : M (option Payload) :=
  fetchFcsApi W "XAG" None "[fcsapi/silver] Error:".

Definition providers (W : World) : list (string * M (option Payload)) :=
  [("goldapi.io", fetchGoldApiIo W);
   ("metals-api", fetchMetalsApi W);
   ("fcsapi", fetchFcsApi W)].

Definition GET (W : World) (request : Request) : M Response :=
  GET_with cacheKey (providers W) (updateMonthlyPriceFile W)
    (getMonthlyFallback W) (fun _ => None)
    "[Silver API] All providers failed"
    "Failed to fetch silver price from all providers" request.

End Silver.

(** *** src/app/api/silver/route.ts, lines 345-686: the silver route whose
    fcsapi adapter converts a USD quote, and which writes no snapshot *)

Module SilverFx.

Definition cacheKey : string := "XAG-CAD".
Definition filePath : string := "public/silver-monthly-prices.json".

Definition getMonthlyFallback (W : World) : M (option props) :=
  getMonthlyFallback W filePath
    "[Silver Monthly Fallback] Error reading monthly prices:".

Definition fetchGoldApiIo (W : World) : M (option Payload) :=
  fetchGoldApiIo W "XAG" None
    (fun keyName => "[goldapi.io/silver] " ++ keyName ++ " error:").

Definition fetchMetalsApi (W : World) : M (option Payload) :=
  fetchMetalsApi W "XAG" None "[metals-api/silver] Error:".

Definition silver_request (key : string) : HttpRequest :=
  {| url := "https://api-v4.fcsapi.com/forex/latest?symbol=XAGUSD&type=commodity&access_key="
            ++ key;
     access_token := None |}.

Definition forex_request : HttpRequest :=
  {| url := "https://smart-portfolio-allocator.vercel.app/api/fx?base=USD&quote=CAD";
     access_token := None |}.

(** [items.find((r) => r.ticker === 'FCM:XAGUSD')] *)
Fixpoint find_ticker (items : list value) : completion value :=
  match items with
  | [] => Normal Undefined
  | r :: rest =>
      match Js.get r "ticker" with
      | Throw e => Throw e
      | Normal (Str t) =>
          if String.eqb t "FCM:XAGUSD" then Normal r else find_ticker rest
      | Normal _ => find_ticker rest
      end
  end.

(** [response?.find(...)]: only an array has a [find] to call. *)
Definition find_in (response : value) : completion value :=
  match response with
  | Undefined | Null => Normal Undefined
  | Arr items => find_ticker items
  | _ => Throw Js.TypeError
  end.

Definition FALLBACK_RATE : float := 1.4%float.

Definition fetchFcsApi (W : World) : M (option Payload) :=
  match configured (FCS_API_KEY W) with
  | None => ret None
  | Some key =>
      try_catch
        (silverResponse <- fetch W (silver_request key) ;;
         if negb (ok silverResponse) then ret None
         else
           silverData <- response_json silverResponse ;;
           silverTicker <- lift (find_in (Js.opt silverData "response")) ;;
           if negb (Js.truthy (Js.opt (Js.opt silverTicker "active") "c"))
           then ret None
           else
             active <- lift (Js.get silverTicker "active") ;;
             c <- lift (Js.get active "c") ;;
             let price_oz_usd := ToNumber W c in
             forexResponse <- fetch W forex_request ;;
             if negb (ok forexResponse) then ret None
             else
               forexData <- response_json forexResponse ;;
               usdCadRate <-
                 (if Js.truthy (Js.opt forexData "rate")
                  then rate <- lift (Js.get forexData "rate") ;; ret (ToNumber W rate)
                  else ret FALLBACK_RATE) ;;
               let price_oz := (price_oz_usd * usdCadRate)%float in
               let price_gram_24k := (price_oz / TROY_OUNCE_GRAMS)%float in
               ret (Some {| price_oz := price_oz;
                            price_gram_24k := price_gram_24k;
                            currency := "CAD";
                            provider := "fcsapi";
                            type := None;
                            cached := None |}))
        (fun error => console_line "[fcsapi/silver] Error:" ;; ret None)
  end.

Definition providers (W : World) : list (string * M (option Payload)) :=
  [("goldapi.io", fetchGoldApiIo W);
   ("metals-api", fetchMetalsApi W);
   ("fcsapi", fetchFcsApi W)].

Definition GET (W : World) (request : Request) : M Response :=
  GET_with cacheKey (providers W) (fun _ => ret tt)
    (getMonthlyFallback W)
    (fun name => Some ("[Silver API] ✗ " ++ name ++ " threw error:"))
    "[Silver API] All providers failed"
    "Failed to fetch silver price from all providers" request.

End SilverFx.

(** ** The nisab routes *)

Definition NISAB_GRAMS : float := 85%float.

(** [response.ok] of a route's answer. *)
Definition ok_status (status : Z) : bool :=
  (200 <=? status) && (status <=? 299).

(** *** src/unnamed/part_002, lines 1-58: nisab from the gold route *)

Module Nisab.

(** [await fetch(goldUrl, { cache: 'no-store' })] with
    [goldUrl = `${baseUrl}/api/gold?grams=true${debug ? '&debug=1' : ''}`]:
    the request goes to the application's own origin, where this process's
    gold route answers it, unless the request itself is rejected. *)
Definition fetch_gold (W : World) (debug : bool) : M Response :=
  match own_origin_fault W with
  | Some e => throw e
  | None =>
      Gold.GET W {| grams_param := Some "true";
                    debug_param := if debug then Some "1" else None |}
  end.

(** What the handler makes of the gold route's answer. *)
Definition respond (W : World) (goldResponse : Response) : M Response :=
  if negb (ok_status (response_status goldResponse))
  then
    console_line "[Nisab API] Gold API returned error status:" ;;
    ret (NextResponse_json [("error", Str "Failed to fetch gold price")]
           (response_status goldResponse))
  else
    let goldData := response_body goldResponse in
    error <- lift (Js.get goldData "error") ;;
    if Js.truthy error
    then ret (NextResponse_json [("error", error)] 500)
    else
      price_gram_24k <- lift (Js.get goldData "price_gram_24k") ;;
      let nisabValue := (ToNumber W price_gram_24k * NISAB_GRAMS)%float in
      currency <- lift (Js.get goldData "currency") ;;
      provider <- lift (Js.get goldData "provider") ;;
      cached <- lift (Js.get goldData "cached") ;;
      ret (NextResponse_json
             [("nisab", Num nisabValue);
              ("price_gram_24k", price_gram_24k);
              ("nisab_grams", Num NISAB_GRAMS);
              ("currency", currency);
              ("provider", provider);
              ("type", Str "Gold");
              ("cached", if Js.truthy cached then cached else Bool false)] 200).

Definition GET (W : World) (request : Request) : M Response :=
  let debug := wants_debug request in
  try_catch
    (goldResponse <- fetch_gold W debug ;;
     respond W goldResponse)
    (fun error =>
       console_line "[Nisab API] Error:" ;;
       ret (NextResponse_json [("error", Str "Failed to calculate nisab value")] 500)).

End Nisab.

(** *** src/unnamed/part_002, lines 59-316: nisab with a waterfall of its own *)

Module NisabChain.

Definition cacheKey : string := "XAU-CAD".
Definition filePath : string := "public/gold-monthly-prices.json".

Definition getMonthlyFallback (W : World) : M (option props) :=
  getMonthlyFallback W filePath "[Nisab Monthly Fallback] Error:".

Definition fetchGoldApiIo (W : World) : M (option Payload) :=
  fetchGoldApiIo W "XAU" (Some "Gold") (fun _ => "[goldapi.io] Error:").

Definition fetchMetalsApi (W : World) : M (option Payload) :=
  fetchMetalsApi W "XAU" (Some "Gold") "[metals-api] Error:".

Definition fetchFcsApi (W : World) : M (option Payload) :=
  fetchFcsApi W "XAU" (Some "Gold") "[fcsapi] Error:".

Definition providers (W : World) : list (string * M (option Payload)) :=
  [("goldapi.io", fetchGoldApiIo W);
   ("metals-api", fetchMetalsApi W);
   ("fcsapi", fetchFcsApi W)].

Definition nisab_response (nisabValue : float)
    (price_gram_24k currency provider type : value) (cached : bool) : Response :=
  NextResponse_json
    [("nisab", Num nisabValue);
     ("price_gram_24k", price_gram_24k);
     ("nisab_grams", Num NISAB_GRAMS);
     ("currency", currency);
     ("provider", provider);
     ("type", type);
     ("cached", Bool cached)] 200.

Definition payload_response (p : Payload) (cached : bool) : Response :=
  nisab_response (price_gram_24k p * NISAB_GRAMS)%float
    (Num (price_gram_24k p)) (Str (currency p)) (Str (provider p))
    (match type p with Some t => Str t | None => Undefined end) cached.

(** The loop over [providers]: [Some] is the response returned from inside
    the loop. *)
Fixpoint try_providers (debug : bool)
    (ps : list (string * M (option Payload))) : M (option Response) :=
  match ps with
  | [] => ret None
  | (name, fn) :: rest =>
      step <-
        try_catch
          (result <- fn ;;
           match result with
           | Some result =>
               (if negb debug then setCachedPrice cacheKey result else ret tt) ;;
               ret (Some (payload_response result false))
           | None => ret None
           end)
          (fun error =>
             console_line ("[Nisab API] " ++ name ++ " error:") ;; ret None) ;;
      match step with
      | Some response => ret (Some response)
      | None => try_providers debug rest
      end
  end.

Definition GET (W : World) (request : Request) : M Response :=
  let debug := wants_debug request in
  hit <- (if debug then ret None else getCachedPrice cacheKey) ;;
  match hit with
  | Some hit => ret (payload_response hit true)
  | None =>
      live <- try_providers debug (providers W) ;;
      match live with
      | Some response => ret response
      | None =>
          fallback <- getMonthlyFallback W ;;
          match fallback with
          | Some fallback =>
              let field k := default Undefined (Js.own fallback k) in
              let nisabValue :=
                (ToNumber W (field "price_gram_24k") * NISAB_GRAMS)%float in
              ret (nisab_response nisabValue (field "price_gram_24k")
                     (field "currency") (field "provider") (field "type") false)
          | None =>
              console_line "[Nisab API] All providers failed" ;;
              ret (NextResponse_json
                     [("error", Str "Failed to fetch nisab value from all providers")]
                     500)
          end
      end
  end.

End NisabChain.

(** *** src/unnamed/part_000: the gold route with keys only *)

Module GoldKeys.

(** The loop over [API_KEYS]: the body of the first key whose request gets a
    success status and a JSON body. The handler sends the same request as
    [fetchGoldApiIo]; its [next: { revalidate: 28800 }] lets the framework
    answer from its own store, which is part of the network as the handler
    sees it. *)
Fixpoint try_keys (W : World) (keys : list (option string)) : M (option value) :=
  match keys with
  | [] => ret None
  | k :: rest =>
      match configured k with
      | None => try_keys W rest
      | Some key =>
          got <-
            try_catch
              (response <- fetch W (goldapi_request "XAU" key) ;;
               if ok response
               then data <- response_json response ;; ret (Some data)
               else ret None)
              (fun error => ret None) ;;
          match got with
          | Some data => ret (Some data)
          | None => try_keys W rest
          end
      end
  end.

Definition GET (W : World) (request : Request) : M Response :=
  let grams := wants_grams request in
  found <- try_keys W (GOLD_API_KEYS W) ;;
  match found with
  | None =>
      console_line "Error fetching gold data:" ;;
      ret (NextResponse_json
             [("error", Str "Failed to fetch gold data with available API keys")]
             500)
  | Some data =>
      price <- lift (Js.get data (if grams then "price_gram_24k" else "price")) ;;
      ret (NextResponse_json [("price", price)] 200)
  end.

End GoldKeys.

(** *** src/app/api/silver/route.ts, lines 687-798: the monthly update of the
    silver snapshot *)

(** The query of the update: [searchParams.get('secret')]. *)
Record UpdateRequest : Type := {
  secret_param : option string
}.

Module SilverUpdate.

Definition filePath : string := "public/silver-monthly-prices.json".

(** [await fetch(baseUrl, { cache: 'no-store' })] with [baseUrl] the address
    of the request without [/update-monthly] and without its query: the
    request goes to the application's own origin, where the silver route
    [silver] of this process answers it, unless the request itself is
    rejected. *)
Definition fetch_silver (W : World) (silver : Request -> M Response) : M Response :=
  match own_origin_fault W with
  | Some e => throw e
  | None => silver {| grams_param := None; debug_param := None |}
  end.

Definition refusal (text : string) (status : Z) : Response :=
  NextResponse_json [("error", Str text)] status.

(** [UPDATE_MONTHLY_SECRET] is [process.env.UPDATE_MONTHLY_SECRET]. *)
Definition POST (W : World) (UPDATE_MONTHLY_SECRET : option string)
    (silver : Request -> M Response) (request : UpdateRequest) : M Response :=
  let secret := secret_param request in
  match configured UPDATE_MONTHLY_SECRET with
  | None => ret (refusal "Unauthorized - invalid or missing secret" 401)
  | Some expectedSecret =>
      if negb (bool_decide (secret = Some expectedSecret))
      then ret (refusal "Unauthorized - invalid or missing secret" 401)
      else
        try_catch
          (response <- fetch_silver W silver ;;
           if negb (ok_status (response_status response))
           then ret (refusal "Failed to fetch current silver price" 500)
           else
             let data := response_body response in
             price_oz <- lift (Js.get data "price_oz") ;;
             if negb (Js.truthy price_oz)
             then ret (refusal "Invalid price data received" 500)
             else
               price_gram_24k <- lift (Js.get data "price_gram_24k") ;;
               if negb (Js.truthy price_gram_24k)
               then ret (refusal "Invalid price data received" 500)
               else
                 monthlyPrices <-
                   try_catch
                     (fileContent <- readFileSync filePath ;;
                      JSON_parse fileContent)
                     (fun _ =>
                        console_line
                          "[Update Silver Monthly] Creating new monthly prices file" ;;
                        ret (Obj [])) ;;
                 now <- Date_now ;;
                 let monthKey := month_key W now in
                 currency <- lift (Js.get data "currency") ;;
                 provider <- lift (Js.get data "provider") ;;
                 monthlyPrices' <-
                   lift (assign monthlyPrices monthKey
                           (Obj [("price", price_oz);
                                 ("price_oz", price_oz);
                                 ("price_gram_24k", price_gram_24k);
                                 ("currency",
                                  if Js.truthy currency then currency else Str "CAD");
                                 ("provider", provider);
                                 ("cached", Bool true);
                                 ("timestamp", Str (toISOString W now))])) ;;
                 writeFileSync filePath (JSON_stringify monthlyPrices') ;;
                 ret (NextResponse_json
                        [("success", Bool true);
                         ("month", Str monthKey);
                         ("price_oz", price_oz);
                         ("price_gram_24k", price_gram_24k);
                         ("provider", provider);
                         ("message",
                          Str ("Successfully stored monthly silver price for "
                               ++ monthKey))] 200))
          (fun error =>
             console_line "[Update Silver Monthly] Error:" ;;
             ret (NextResponse_json
                    [("error", Str "Failed to update monthly silver price");
                     ("details", Str (error_message error))] 500))
  end.

End SilverUpdate.

(** * Vocabulary of the properties *)

(** A computation that never throws, in any state. *)
Definition total {A : Type} (m : M A) : Prop :=
  forall s, exists a s', m s = (Normal a, s').

(** Every value the computation returns satisfies [Q]. *)
Definition returns {A : Type} (Q : A -> Prop) (m : M A) : Prop :=
  forall s a s', m s = (Normal a, s') -> Q a.

(** The computation neither reads nor writes what the state change [f]
    touches: running it after [f] is running it before [f]. *)
Definition commutes (f : State -> State) {A : Type} (m : M A) : Prop :=
  forall s, m (f s) = (fst (m s), f (snd (m s))).

(** The computation leaves the part [g] of the state as it found it. *)
Definition keeps {X : Type} (g : State -> X) {A : Type} (m : M A) : Prop :=
  forall s, g (snd (m s)) = g s.

(** Parts of the state that a network exchange (the clock and the request
    log), a console line, a file write, a cache write do not reach. *)
Class WireKept {X : Type} (g : State -> X) : Prop := {
  kept_set_clock : forall t s, g (set_clock t s) = g s;
  kept_set_requests : forall l s, g (set_requests l s) = g s
}.

Class ConsoleKept {X : Type} (g : State -> X) : Prop := {
  kept_set_console : forall l s, g (set_console l s) = g s
}.

Class FilesKept {X : Type} (g : State -> X) : Prop := {
  kept_set_files : forall x s, g (set_files x s) = g s
}.

Class CacheKept {X : Type} (g : State -> X) : Prop := {
  kept_set_priceCache : forall c s, g (set_priceCache c s) = g s
}.

(** State changes that leave the clock, the request log and the console
    alone. *)
Class NetFrame (f : State -> State) : Prop := {
  frame_clock : forall s, clock (f s) = clock s;
  frame_requests : forall s, requests (f s) = requests s;
  frame_console : forall s, console (f s) = console s;
  frame_set_clock : forall t s, f (set_clock t s) = set_clock t (f s);
  frame_set_requests : forall l s, f (set_requests l s) = set_requests l (f s);
  frame_set_console : forall l s, f (set_console l s) = set_console l (f s)
}.

(** State changes that leave the content of the files alone. *)
Class FilesFrame (f : State -> State) : Prop := {
  frame_files : forall s, files (f s) = files s
}.

(** State changes that leave the disk alone: its content, and whether it can
    be written. *)
Class DiskFrame (f : State -> State) : Prop := {
  frame_read_only_disk : forall s, read_only_disk (f s) = read_only_disk s;
  frame_set_files : forall x s, f (set_files x s) = set_files x (f s)
}.

(** State changes that leave the request cache alone. *)
Class CacheFrame (f : State -> State) : Prop := {
  frame_priceCache : forall s, priceCache (f s) = priceCache s;
  frame_set_priceCache : forall c s, f (set_priceCache c s) = set_priceCache c (f s)
}.

(** The tags [fetchGoldApiIo] can put on a payload. *)
Definition goldapi_tag (t : string) : Prop :=
  exists keyName : string, t = "goldapi.io (" ++ keyName ++ ")".

(** What an adapter that derives the gram price returns, when it returns a
    payload: its own tag, and the gram price as the quotient of the ounce
    price by the grams of a troy ounce. *)
Definition derived_payload (tag : string) (o : option Payload) : Prop :=
  forall p, o = Some p ->
    provider p = tag
    /\ price_gram_24k p = (price_oz p / 31.1034768)%float
    /\ currency p = "CAD"
    /\ cached p = None.

(** What [fetchGoldApiIo] returns, when it returns a payload. *)
Definition goldapi_payload (o : option Payload) : Prop :=
  forall p, o = Some p ->
    goldapi_tag (provider p) /\ currency p = "CAD" /\ cached p = None.

(** A price that passed the check of [fetchGoldPriceOrg]. *)
Definition checked_price (o : option Payload) : Prop :=
  forall p, o = Some p ->
    PrimFloat.is_finite (price_oz p) = true
    /\ PrimFloat.ltb 0 (price_oz p) = true.

(** [x] agrees with [y] within [tolerance]: [|x - y| <= tolerance], in
    floating point. *)
Definition within (tolerance x y : float) : bool :=
  PrimFloat.leb (PrimFloat.abs (x - y)) tolerance.

(** A property of an object as the client reads it. *)
Definition field (r : Response) (k : string) : value :=
  Js.member (response_body r) k.

(** The state after the console line of a [catch] handler of the loop, when
    the route writes one. *)
Definition log_thrown (thrown_line : string -> option string) (name : string)
    (s : State) : State :=
  match thrown_line name with
  | Some line => set_console (console s ++ [line])%list s
  | None => s
  end.

(** Every provider of the list fails, one after the other from state [s] to
    state [s']: it returns no payload, or it throws. [ds] are the
    diagnostic records of the failures, in order. *)
Inductive exhausted (thrown_line : string -> option string)
  : list (string * M (option Payload)) -> State -> list Diagnostic -> State -> Prop :=
| exhausted_nil s :
    exhausted thrown_line [] s [] s
| exhausted_none name fn rest s s1 ds s' :
    fn s = (Normal None, s1) ->
    exhausted thrown_line rest s1 ds s' ->
    exhausted thrown_line ((name, fn) :: rest) s
      ({| failed_provider := name; message := "No data in response" |} :: ds) s'
| exhausted_thrown name fn rest s e s1 ds s' :
    fn s = (Throw e, s1) ->
    exhausted thrown_line rest (log_thrown thrown_line name s1) ds s' ->
    exhausted thrown_line ((name, fn) :: rest) s
      ({| failed_provider := name; message := error_message e |} :: ds) s'.

(** The state after the cache write of a live success: none in debug
    mode. *)
Definition after_cache_write (cacheKey : string) (debug : bool) (p : Payload)
    (s : State) : State :=
  if debug then s else snd (setCachedPrice cacheKey p s).

(** The tag a provider of the list puts on its payloads: [goldapi.io] adds
    the name of the key that worked, the others write their own name. *)
Definition identifies (name tag : string) : Prop :=
  if String.eqb name "goldapi.io" then goldapi_tag tag else tag = name.

(** The providers of a list tag their payloads as [identifies] says. *)
Definition tags_its_payloads (entry : string * M (option Payload)) : Prop :=
  returns (fun o => forall p, o = Some p -> identifies (fst entry) (provider p))
    (snd entry).

(** Every provider of the list returns no payload, one after the other from
    state [s] to state [s']: it was skipped for want of a key, or it failed
    (the adapters catch their own faults and return [null]). *)
Inductive skipped
  : list (string * M (option Payload)) -> State -> State -> Prop :=
| skipped_nil s :
    skipped [] s s
| skipped_cons name fn rest s s1 s' :
    fn s = (Normal None, s1) ->
    skipped rest s1 s' ->
    skipped ((name, fn) :: rest) s s'.

(** The diagnostic record of a provider that returned no payload. *)
Definition no_data (name : string) : Diagnostic :=
  {| failed_provider := name; message := "No data in response" |}.

(** A price route, by its parts. *)
Record PriceRoute : Type := {
  cache_key : string;
  provider_list : list (string * M (option Payload));
  snapshot_path : string;
  snapshot_write : Payload -> M unit;
  snapshot_read : M (option props);
  failure_text : string;
  handler : Request -> M Response
}.

Definition gold_route (W : World) : PriceRoute :=
  {| cache_key := Gold.cacheKey;
     provider_list := Gold.providers W;
     snapshot_path := Gold.filePath;
     snapshot_write := Gold.updateMonthlyPriceFile W;
     snapshot_read := Gold.getMonthlyFallback W;
     failure_text := "Failed to fetch gold price from all providers";
     handler := Gold.GET W |}.

Definition silver_route (W : World) : PriceRoute :=
  {| cache_key := Silver.cacheKey;
     provider_list := Silver.providers W;
     snapshot_path := Silver.filePath;
     snapshot_write := Silver.updateMonthlyPriceFile W;
     snapshot_read := Silver.getMonthlyFallback W;
     failure_text := "Failed to fetch silver price from all providers";
     handler := Silver.GET W |}.

(** The second silver route has no snapshot write. *)
Definition silver_fx_route (W : World) : PriceRoute :=
  {| cache_key := SilverFx.cacheKey;
     provider_list := SilverFx.providers W;
     snapshot_path := SilverFx.filePath;
     snapshot_write := fun _ => ret tt;
     snapshot_read := SilverFx.getMonthlyFallback W;
     failure_text := "Failed to fetch silver price from all providers";
     handler := SilverFx.GET W |}.

(** The three price routes. *)
Definition price_routes (W : World) : list PriceRoute :=
  [gold_route W; silver_route W; silver_fx_route W].

(** The two price routes that write the snapshot after a live success. *)
Definition writing_routes (W : World) : list PriceRoute :=
  [gold_route W; silver_route W].

(** What the proofs use of a price route. *)
Record RouteFacts (W : World) (route : PriceRoute) : Prop := {
  facts_read_is :
    exists line,
      snapshot_read route = getMonthlyFallback W (snapshot_path route) line;
  facts_handler :
    exists thrown_line failure_line,
      handler route
      = GET_with (cache_key route) (provider_list route) (snapshot_write route)
          (snapshot_read route) thrown_line failure_line (failure_text route);
  facts_write_total : forall p, total (snapshot_write route p);
  facts_read_total : total (snapshot_read route);
  facts_tags : Forall tags_its_payloads (provider_list route);
  facts_names :
    forall n, In n (map fst (provider_list route)) ->
              In n ["goldapi.io"; "metals-api"; "fcsapi"; "goldprice.org"];
  facts_providers_commute :
    forall f, NetFrame f ->
              Forall (fun nf => commutes f (snd nf)) (provider_list route);
  facts_read_commutes :
    forall f, NetFrame f -> FilesFrame f -> commutes f (snapshot_read route);
  facts_write_commutes :
    forall f p, NetFrame f -> FilesFrame f -> DiskFrame f ->
                commutes f (snapshot_write route p);
  facts_write_keeps :
    forall (X : Type) (g : State -> X) p,
      ConsoleKept g -> FilesKept g -> keeps g (snapshot_write route p);
  facts_read_keeps :
    forall (X : Type) (g : State -> X),
      ConsoleKept g -> keeps g (snapshot_read route);
  facts_providers_keep :
    forall (X : Type) (g : State -> X),
      WireKept g -> ConsoleKept g ->
      Forall (fun nf => keeps g (snd nf)) (provider_list route);
  facts_providers_total :
    Forall (fun nf => total (snd nf)) (provider_list route)
}.

(** The mapping [updateMonthlyPriceFile] starts from: the file's, or an empty
    one when the file cannot be loaded; and the console line of that case. *)
Definition loaded_mapping (filePath : string) (s : State) : value :=
  match files s !! filePath with
  | Some (Json v) => v
  | _ => Obj []
  end.

Definition load_lines (filePath creating_line : string) (s : State) : list string :=
  match files s !! filePath with
  | Some (Json v) => []
  | _ => [creating_line]
  end.

(** What the proofs use of a route that writes the snapshot. *)
Definition writes_snapshot (W : World) (route : PriceRoute) : Prop :=
  exists creating_line update_error_line,
    snapshot_write route
    = updateMonthlyPriceFile W (snapshot_path route) creating_line update_error_line.

(** The snapshot read as the claim C2 words it: the record under the current
    month when that key is stored; otherwise the record under the greatest
    stored key strictly less than the current month; otherwise nothing. *)
Definition claimed_snapshot_read (currentMonth : string) (stored : props)
  : option value :=
  match Js.own stored currentMonth with
  | Some record => Some record
  | None =>
      match rev (Js.sort (List.filter (fun k => String.ltb k currentMonth)
                            (map fst stored))) with
      | latest :: _ => Js.own stored latest
      | [] => None
      end
  end.

(** The USD ounce price the second silver route's fcsapi adapter reads in the
    body of the quote, when it reads one: the [active.c] of the ticker
    FCM:XAGUSD, when it is truthy. *)
Definition usd_quote (W : World) (silverData : value) : option float :=
  match SilverFx.find_in (Js.opt silverData "response") with
  | Normal silverTicker =>
      let c := Js.opt (Js.opt silverTicker "active") "c" in
      if Js.truthy c then Some (ToNumber W c) else None
  | Throw _ => None
  end.

(** The request the nisab route sends to the gold route:
    [/api/gold?grams=true], with [&debug=1] in debug mode. *)
Definition gold_query (request : Request) : Request :=
  {| grams_param := Some "true";
     debug_param := if wants_debug request then Some "1" else None |}.

(** ** Example worlds and states *)

(** A request nobody answers, and an answer with a JSON body. *)
Definition no_reply : Exchange :=
  {| elapsed := 40; result := Rejected (ErrorInst "fetch failed") |}.

Definition json_reply (code : Z) (body : value) : Exchange :=
  {| elapsed := 40;
     result := Resolved {| status := code; json_body := Some body; text_body := "" |} |}.

Definition text_reply (code : Z) (text : string) : Exchange :=
  {| elapsed := 40;
     result := Resolved {| status := code; json_body := None; text_body := text |} |}.

(** A world in April 2024 with the given keys and network. The only text
    its [Number] reads is the price of the examples. *)
Definition april_world (gold_key metals_key fcs_key : option string)
    (net : HttpRequest -> Exchange) : World :=
  {| GOLD_API_KEY_1 := gold_key;
     GOLD_API_KEY_2 := None;
     GOLD_API_KEY_3 := None;
     METALS_API_KEY := metals_key;
     FCS_API_KEY := fcs_key;
     network := fun _ req => net req;
     own_origin_fault := None;
     getFullYear := fun _ => 2024;
     getMonth := fun _ => 3;
     toISOString := fun _ => "2024-04-15T12:00:00.000Z";
     StringToNumber :=
       fun text => if String.eqb text "6274.64" then 6274.64%float else PrimFloat.nan;
     ObjectToNumber := fun _ => PrimFloat.nan;
     regexp_match := fun _ _ => None |}.

(** A process that has just started, at noon on 15 April 2024 (UTC). *)
Definition boot : State :=
  {| clock := 1713182400000;
     priceCache := ∅;
     files := ∅;
     read_only_disk := false;
     console := [];
     requests := [] |}.

Definition plain_request : Request :=
  {| grams_param := None; debug_param := None |}.

Definition debug_request : Request :=
  {| grams_param := None; debug_param := Some "1" |}.

Definition grams_request : Request :=
  {| grams_param := Some "true"; debug_param := None |}.

(** Nothing is configured and nobody answers. *)
Definition offline_world : World :=
  april_world None None None (fun _ => no_reply).

(** goldapi.io is down, metals-api answers. *)
Definition metals_world : World :=
  april_world (Some "g1") (Some "m1") None
    (fun req =>
       if String.eqb (url req)
            "https://metals-api.com/api/latest?access_key=m1&base=XAU&symbols=CAD"
       then json_reply 200
              (Obj [("success", Bool true);
                    ("rates", Obj [("CAD", Num 0.0002%float)])])
       else no_reply).

(** Snapshot records, and processes whose gold snapshot file holds them. *)
Definition snapshot_record (price_oz price_gram_24k : float) (stamp : string) : value :=
  Obj [("price", Num price_oz);
       ("price_oz", Num price_oz);
       ("price_gram_24k", Num price_gram_24k);
       ("currency", Str "CAD");
       ("provider", Str "metals-api");
       ("cached", Bool true);
       ("timestamp", Str stamp)].

Definition january_record : value :=
  snapshot_record 2700 86.8%float "2024-01-09T10:00:00.000Z".

Definition march_record : value :=
  snapshot_record 2900 93.2%float "2024-03-20T10:00:00.000Z".

Definition may_record : value :=
  snapshot_record 3200 102.9%float "2024-05-02T10:00:00.000Z".

Definition with_gold_snapshot (mapping : props) (s : State) : State :=
  set_files (<[Gold.filePath := Json (Obj mapping)]> (files s)) s.

(** The file has January and March; it is April. *)
Definition past_snapshot : State :=
  with_gold_snapshot [("2024-01", january_record); ("2024-03", march_record)] boot.

(** The file has only May; it is April. *)
Definition future_snapshot : State :=
  with_gold_snapshot [("2024-05", may_record)] boot.


(** fcsapi quotes silver at 30 USD; the currency lookup answers as given. *)
Definition silver_quote : value :=
  Obj [("status", Bool true);
       ("response",
        Arr [Obj [("ticker", Str "FCM:XAGUSD");
                  ("active", Obj [("c", Num 30)])]])].

Definition fx_world (forex : Exchange) : World :=
  april_world None None (Some "f1")
    (fun req =>
       if String.eqb (url req)
            "https://api-v4.fcsapi.com/forex/latest?symbol=XAGUSD&type=commodity&access_key=f1"
       then json_reply 200 silver_quote
       else if String.eqb (url req)
                 "https://smart-portfolio-allocator.vercel.app/api/fx?base=USD&quote=CAD"
            then forex
            else no_reply).

(** The three keyed providers are configured and down; the page of
    goldprice.org shows 6,274.64 CAD. *)
Definition scrape_world : World :=
  {| GOLD_API_KEY_1 := Some "g1";
     GOLD_API_KEY_2 := None;
     GOLD_API_KEY_3 := None;
     METALS_API_KEY := Some "m1";
     FCS_API_KEY := Some "f1";
     network :=
       fun _ req =>
         if String.eqb (url req) "https://goldprice.org/"
         then text_reply 200 "<td>CAD</td><td>6,274.64</td>"
         else no_reply;
     own_origin_fault := None;
     getFullYear := fun _ => 2024;
     getMonth := fun _ => 3;
     toISOString := fun _ => "2024-04-15T12:00:00.000Z";
     StringToNumber :=
       fun text => if String.eqb text "6274.64" then 6274.64%float else PrimFloat.nan;
     ObjectToNumber := fun _ => PrimFloat.nan;
     regexp_match :=
       fun pattern html =>
         match pattern with
         | CadPattern =>
             if String.eqb html "<td>CAD</td><td>6,274.64</td>"
             then Some "6,274.64" else None
         | QuotedCadPattern => None
         end |}.

(** ** Vocabulary of the further properties *)

(** A value that [JSON.stringify] followed by [JSON.parse] gives back as it
    is. *)
Definition json_normal (v : value) : Prop := Js.jsonify v = Some v.

(** The months of a mapping after [mapping[month] = record]: a stored month
    keeps its place, a new month goes last. *)
Definition months_after (mapping : props) (month : string) : list string :=
  match Js.own mapping month with
  | Some _ => map fst mapping
  | None => (map fst mapping ++ [month])%list
  end.

(** A payload as metals-api gives it. *)
Definition sample_payload : Payload :=
  {| price_oz := 5000;
     price_gram_24k := 160.7537%float;
     currency := "CAD";
     provider := "metals-api";
     type := None;
     cached := None |}.

(** The content of one file. *)
Definition file_at (path : string) (s : State) : option FileContent :=
  files s !! path.

(** The guard of the monthly update:
    [!(!expectedSecret || secret !== expectedSecret)]. *)
Definition authorized (UPDATE_MONTHLY_SECRET : option string)
    (request : UpdateRequest) : bool :=
  match configured UPDATE_MONTHLY_SECRET with
  | Some expectedSecret => bool_decide (secret_param request = Some expectedSecret)
  | None => false
  end.

(** What the monthly update checks of the silver route's answer before it
    stores anything: a success status and truthy prices. *)
Definition valid_prices (response : Response) : bool :=
  ok_status (response_status response)
  && Js.truthy (field response "price_oz")
  && Js.truthy (field response "price_gram_24k").

(** The record the monthly update stores. *)
Definition update_record (W : World) (response : Response) (now : Z) : value :=
  Obj [("price", field response "price_oz");
       ("price_oz", field response "price_oz");
       ("price_gram_24k", field response "price_gram_24k");
       ("currency",
        if Js.truthy (field response "currency")
        then field response "currency" else Str "CAD");
       ("provider", field response "provider");
       ("cached", Bool true);
       ("timestamp", Str (toISOString W now))].

(** The answers of the monthly update. *)
Definition update_failure (error : thrown) : Response :=
  NextResponse_json
    [("error", Str "Failed to update monthly silver price");
     ("details", Str (error_message error))] 500.

Definition update_success (W : World) (response : Response) (now : Z) : Response :=
  NextResponse_json
    [("success", Bool true);
     ("month", Str (month_key W now));
     ("price_oz", field response "price_oz");
     ("price_gram_24k", field response "price_gram_24k");
     ("provider", field response "provider");
     ("message",
      Str ("Successfully stored monthly silver price for " ++ month_key W now))] 200.

(** The second silver route answers 42 CAD an ounce (30 USD at the rate
    1.4); the monthly update is configured with a secret, and a request
    carries it. *)
Definition silver_world : World := fx_world (json_reply 200 (Obj [])).

Definition update_secret : option string := Some "s3cret".

Definition update_request : UpdateRequest := {| secret_param := Some "s3cret" |}.

(** The environment variable of the key at a position of [GOLD_API_KEYS]
    (from 0). *)
Definition key_name (position : nat) : string :=
  "GOLD_API_KEY_" ++ Js.string_of_nat (position + 1).

(** The state after a request that took [e] milliseconds. *)
Definition after_request (req : HttpRequest) (e : N) (s : State) : State :=
  set_requests (requests s ++ [req])%list (set_clock (clock s + Z.of_N e) s).

(** The answer of the handler that loops over the goldapi.io keys, from the
    body it got. *)
Definition key_loop_price (grams : bool) (data : value) : Response :=
  NextResponse_json
    [("price", Js.member data (if grams then "price_gram_24k" else "price"))] 200.

Definition key_loop_failure : Response :=
  NextResponse_json
    [("error", Str "Failed to fetch gold data with available API keys")] 500.

(** The first key is empty; goldapi.io answers the second key only, with the
    given body. *)
Definition second_key_world (body : value) : World :=
  {| GOLD_API_KEY_1 := Some "";
     GOLD_API_KEY_2 := Some "g2";
     GOLD_API_KEY_3 := Some "g3";
     METALS_API_KEY := None;
     FCS_API_KEY := None;
     network :=
       fun _ req =>
         if String.eqb (url req) "https://www.goldapi.io/api/XAU/CAD"
            && bool_decide (access_token req = Some "g2")
         then json_reply 200 body
         else no_reply;
     own_origin_fault := None;
     getFullYear := fun _ => 2024;
     getMonth := fun _ => 3;
     toISOString := fun _ => "2024-04-15T12:00:00.000Z";
     StringToNumber := fun _ => PrimFloat.nan;
     ObjectToNumber := fun _ => PrimFloat.nan;
     regexp_match := fun _ _ => None |}.

(** The computation sends at most [n] requests, and takes none back from
    the log. *)
Definition sends (n : nat) {A : Type} (m : M A) : Prop :=
  forall s, exists sent,
    requests (snd (m s)) = (requests s ++ sent)%list /\ (length sent <= n)%nat.

(** The requests a route can send for its keys: one for each key that is
    set and not empty. *)
Definition keyed (key : option string) : nat :=
  match configured key with
  | Some _ => 1
  | None => 0
  end.

Definition keyed_budget (W : World) : nat :=
  (list_sum (map keyed (GOLD_API_KEYS W))
   + keyed (METALS_API_KEY W) + keyed (FCS_API_KEY W))%nat.

(** The entry of the request cache under one key. *)
Definition cache_at (key : string) (s : State) : option CacheEntry :=
  priceCache s !! key.

(** What an answer of the nisab route with a waterfall of its own reports:
    a nisab of 85 times the number of the gram price [v] it reports. *)
Definition nisab_of (W : World) (r : Response) : Prop :=
  exists v,
    field r "nisab" = Js.json_number (ToNumber W v * 85)
    /\ field r "price_gram_24k" = default Undefined (Js.jsonify v)
    /\ field r "nisab_grams" = Num 85.

(** A world whose clock counts the months of 2024: the timestamp is the
    month index. *)
Definition months_world : World :=
  {| GOLD_API_KEY_1 := None;
     GOLD_API_KEY_2 := None;
     GOLD_API_KEY_3 := None;
     METALS_API_KEY := None;
     FCS_API_KEY := None;
     network := fun _ _ => no_reply;
     own_origin_fault := None;
     getFullYear := fun _ => 2024;
     getMonth := fun t => t;
     toISOString := fun _ => "";
     StringToNumber := fun _ => PrimFloat.nan;
     ObjectToNumber := fun _ => PrimFloat.nan;
     regexp_match := fun _ _ => None |}.

(** ** Vocabulary of the prices of an answer *)

(** What an answer built from a stored record carries under [k]: the
    record's property as [JSON.stringify] writes it, and nothing when the
    record has none. *)
Definition served (stored : props) (k : string) : value :=
  match Js.own stored k with
  | Some v => default Undefined (Js.jsonify v)
  | None => Undefined
  end.

(** The property a request asks for as [price]. *)
Definition asked_price (request : Request) : string :=
  if wants_grams request then "price_gram_24k" else "price_oz".






(** * Properties *)

(** ** Request cache *)

Lemma getCachedPrice_miss (key : string) (s : State) :
  priceCache s !! key = None ->
  getCachedPrice key s = (Normal None, s).
Proof. intros H. unfold getCachedPrice. now rewrite H. Qed.

Lemma getCachedPrice_fresh (key : string) (s : State) (entry : CacheEntry) :
  priceCache s !! key = Some entry ->
  clock s - ts entry <= CACHE_TTL_MS ->
  getCachedPrice key s = (Normal (Some (with_cached (data entry) true)), s).
Proof.
  intros H Hage. unfold getCachedPrice. rewrite H.
  destruct (Z.gtb_spec (clock s - ts entry) CACHE_TTL_MS); [lia | reflexivity].
Qed.

Lemma getCachedPrice_expired (key : string) (s : State) (entry : CacheEntry) :
  priceCache s !! key = Some entry ->
  clock s - ts entry > CACHE_TTL_MS ->
  getCachedPrice key s
  = (Normal None, set_priceCache (delete key (priceCache s)) s).
Proof.
  intros H Hage. unfold getCachedPrice. rewrite H.
  destruct (Z.gtb_spec (clock s - ts entry) CACHE_TTL_MS); [reflexivity | lia].
Qed.

(** The three outcomes of a cache read, by cases on the entry and its age. *)
Lemma getCachedPrice_cases (key : string) (s : State) :
  (priceCache s !! key = None /\ getCachedPrice key s = (Normal None, s))
  \/ (exists entry, priceCache s !! key = Some entry
        /\ clock s - ts entry <= CACHE_TTL_MS
        /\ getCachedPrice key s = (Normal (Some (with_cached (data entry) true)), s))
  \/ (exists entry, priceCache s !! key = Some entry
        /\ clock s - ts entry > CACHE_TTL_MS
        /\ getCachedPrice key s
           = (Normal None, set_priceCache (delete key (priceCache s)) s)).
Proof.
  destruct (priceCache s !! key) as [entry|] eqn:H.
  - destruct (Z_le_gt_dec (clock s - ts entry) CACHE_TTL_MS).
    + right; left. exists entry. split; [reflexivity|]. split; [assumption|].
      now apply (getCachedPrice_fresh key s entry H).
    + right; right. exists entry. split; [reflexivity|]. split; [assumption|].
      now apply (getCachedPrice_expired key s entry H).
  - left. split; [reflexivity|]. now apply getCachedPrice_miss.
Qed.

(** C4. [getCachedPrice key] returns the stored payload (marked
    [cached: true]) if and only if an entry is stored under [key] and
    [now - inserted_at <= 600 s]; a hit changes nothing; a read of an expired
    entry evicts it, so it stays absent at every later time; a read touches
    no other key and never throws; and [setCachedPrice key d] overwrites
    whatever is stored under [key] with [d] and the current time, touching no
    other key. *)
Theorem request_cache_ttl (key : string) (s : State) :
  (forall p,
      fst (getCachedPrice key s) = Normal (Some p) <->
      exists entry,
        priceCache s !! key = Some entry
        /\ clock s - ts entry <= 600 * 1000
        /\ p = with_cached (data entry) true
        /\ price_oz p = price_oz (data entry)
        /\ price_gram_24k p = price_gram_24k (data entry)
        /\ currency p = currency (data entry)
        /\ provider p = provider (data entry)
        /\ cached p = Some true)
  /\ (forall p,
         fst (getCachedPrice key s) = Normal (Some p) ->
         snd (getCachedPrice key s) = s)
  /\ (forall entry,
         priceCache s !! key = Some entry ->
         clock s - ts entry > 600 * 1000 ->
         fst (getCachedPrice key s) = Normal None
         /\ priceCache (snd (getCachedPrice key s)) !! key = None
         /\ forall later,
             fst (getCachedPrice key (set_clock later (snd (getCachedPrice key s))))
             = Normal None)
  /\ (forall other,
         other <> key ->
         priceCache (snd (getCachedPrice key s)) !! other = priceCache s !! other)
  /\ (exists hit s', getCachedPrice key s = (Normal hit, s'))
  /\ (forall d,
         fst (setCachedPrice key d s) = Normal tt
         /\ priceCache (snd (setCachedPrice key d s)) !! key
            = Some {| ts := clock s; data := d |}
         /\ forall other,
             other <> key ->
             priceCache (snd (setCachedPrice key d s)) !! other
             = priceCache s !! other).
Proof.
  change (600 * 1000) with CACHE_TTL_MS.
  repeat split.
  - intros Hhit.
    destruct (getCachedPrice_cases key s)
      as [[_ E] | [(entry & Hin & Hage & E) | (entry & _ & _ & E)]];
      rewrite E in Hhit; simpl in Hhit; try discriminate.
    injection Hhit as <-. exists entry. repeat split; auto.
  - intros (entry & Hin & Hage & -> & _).
    now rewrite (getCachedPrice_fresh _ _ _ Hin Hage).
  - intros p Hhit.
    destruct (getCachedPrice_cases key s)
      as [[_ E] | [(entry & _ & _ & E) | (entry & _ & _ & E)]];
      rewrite E in Hhit |- *; simpl in *; try discriminate; reflexivity.
  - now rewrite (getCachedPrice_expired _ _ _ H H0).
  - rewrite (getCachedPrice_expired _ _ _ H H0). simpl. apply lookup_delete_eq.
  - intros later. rewrite (getCachedPrice_expired _ _ _ H H0). simpl.
    rewrite getCachedPrice_miss; [reflexivity|]. simpl. apply lookup_delete_eq.
  - intros other Hne.
    destruct (getCachedPrice_cases key s)
      as [[_ E] | [(entry & _ & _ & E) | (entry & _ & _ & E)]];
      rewrite E; simpl; try reflexivity.
    now apply lookup_delete_ne.
  - destruct (getCachedPrice_cases key s)
      as [[_ E] | [(entry & _ & _ & E) | (entry & _ & _ & E)]];
      rewrite E; eauto.
  - simpl. apply lookup_insert_eq.
  - intros other Hne. simpl. now apply lookup_insert_ne.
Qed.

(** ** Reasoning rules of the monad *)

Lemma bind_normal {A B : Type} (m : M A) (k : A -> M B) s a s' :
  m s = (Normal a, s') -> bind m k s = k a s'.
Proof. intros H. unfold bind. now rewrite H. Qed.

Lemma bind_throw {A B : Type} (m : M A) (k : A -> M B) s e s' :
  m s = (Throw e, s') -> bind m k s = (Throw e, s').
Proof. intros H. unfold bind. now rewrite H. Qed.

Lemma try_catch_normal {A : Type} (body : M A) handler s a s' :
  body s = (Normal a, s') -> try_catch body handler s = (Normal a, s').
Proof. intros H. unfold try_catch. now rewrite H. Qed.

Lemma try_catch_throw {A : Type} (body : M A) handler s e s' :
  body s = (Throw e, s') -> try_catch body handler s = handler e s'.
Proof. intros H. unfold try_catch. now rewrite H. Qed.

Section Rules.

Context {A B : Type}.

Lemma total_ret (a : A) : total (ret a).
Proof. intros s. now exists a, s. Qed.

Lemma total_bind (m : M A) (k : A -> M B) :
  total m -> (forall a, total (k a)) -> total (bind m k).
Proof.
  intros Hm Hk s. destruct (Hm s) as (a & s' & E).
  rewrite (bind_normal _ _ _ _ _ E). apply Hk.
Qed.

Lemma total_try_catch (body : M A) (handler : thrown -> M A) :
  (forall e, total (handler e)) -> total (try_catch body handler).
Proof.
  intros Hh s. unfold try_catch.
  destruct (body s) as [[a|e] s']; [now exists a, s' | apply Hh].
Qed.

Lemma total_console_line (line : string) : total (console_line line).
Proof. intros s. now eexists _, _. Qed.

Lemma returns_ret (Q : A -> Prop) (a : A) : Q a -> returns Q (ret a).
Proof. intros H s a' s' E. now inversion E; subst. Qed.

Lemma returns_throw (Q : A -> Prop) (e : thrown) : returns Q (throw e).
Proof. intros s a' s' E. discriminate. Qed.

Lemma returns_bind (P : A -> Prop) (Q : B -> Prop) (m : M A) (k : A -> M B) :
  returns P m -> (forall a, P a -> returns Q (k a)) -> returns Q (bind m k).
Proof.
  intros Hm Hk s b s' E. unfold bind in E.
  destruct (m s) as [[a|e] s1] eqn:Em; [|discriminate].
  exact (Hk a (Hm _ _ _ Em) _ _ _ E).
Qed.

Lemma returns_bind_any (Q : B -> Prop) (m : M A) (k : A -> M B) :
  (forall a, returns Q (k a)) -> returns Q (bind m k).
Proof.
  intros Hk. apply (returns_bind (fun _ => True)); [easy | auto].
Qed.

Lemma returns_try_catch (Q : A -> Prop) (body : M A) (handler : thrown -> M A) :
  returns Q body -> (forall e, returns Q (handler e)) ->
  returns Q (try_catch body handler).
Proof.
  intros Hb Hh s a s' E. unfold try_catch in E.
  destruct (body s) as [[a0|e] s1] eqn:Eb.
  - inversion E; subst. exact (Hb _ _ _ Eb).
  - exact (Hh e _ _ _ E).
Qed.

End Rules.

Section Frames.

Variable f : State -> State.
Context {A B : Type}.

Lemma commutes_ret (a : A) : commutes f (ret a).
Proof. easy. Qed.

Lemma commutes_throw (e : thrown) : commutes f (@throw A e).
Proof. easy. Qed.

Lemma commutes_lift (c : completion A) : commutes f (lift c).
Proof. easy. Qed.

Lemma commutes_bind (m : M A) (k : A -> M B) :
  commutes f m -> (forall a, commutes f (k a)) -> commutes f (bind m k).
Proof.
  intros Hm Hk s. unfold bind. rewrite Hm.
  destruct (m s) as [[a|e] s']; simpl; [apply Hk | reflexivity].
Qed.

Lemma commutes_try_catch (body : M A) (handler : thrown -> M A) :
  commutes f body -> (forall e, commutes f (handler e)) ->
  commutes f (try_catch body handler).
Proof.
  intros Hb Hh s. unfold try_catch. rewrite Hb.
  destruct (body s) as [[a|e] s']; simpl; [reflexivity | apply Hh].
Qed.

End Frames.

Section FramePrimitives.

Variable f : State -> State.

Lemma commutes_Date_now `{!NetFrame f} : commutes f Date_now.
Proof. intros s. unfold Date_now. simpl. now rewrite frame_clock. Qed.

Lemma commutes_console_line `{!NetFrame f} line : commutes f (console_line line).
Proof.
  intros s. unfold console_line. simpl.
  now rewrite frame_console, frame_set_console.
Qed.

Lemma commutes_fetch `{!NetFrame f} W req : commutes f (fetch W req).
Proof.
  intros s. unfold fetch. rewrite frame_clock, frame_requests.
  rewrite <- frame_set_clock, <- frame_set_requests.
  now destruct (result (network W (clock s) req)).
Qed.

Lemma commutes_response_json r : commutes f (response_json r).
Proof. unfold response_json. now destruct (json_body r). Qed.

Lemma commutes_readFileSync `{!FilesFrame f} path : commutes f (readFileSync path).
Proof.
  intros s. unfold readFileSync. rewrite frame_files.
  now destruct (files s !! path).
Qed.

Lemma commutes_JSON_parse c : commutes f (JSON_parse c).
Proof. now destruct c. Qed.

Lemma commutes_writeFileSync `{!FilesFrame f} `{!DiskFrame f} path text :
  commutes f (writeFileSync path text).
Proof.
  intros s. unfold writeFileSync. destruct text as [c|]; [|reflexivity].
  rewrite frame_read_only_disk, frame_files.
  destruct (read_only_disk s); [reflexivity|]. simpl. now rewrite frame_set_files.
Qed.

Lemma commutes_getCachedPrice `{!CacheFrame f} `{!NetFrame f} key :
  commutes f (getCachedPrice key).
Proof.
  intros s. unfold getCachedPrice. rewrite frame_priceCache, frame_clock.
  destruct (priceCache s !! key) as [entry|]; [|reflexivity].
  destruct (clock s - ts entry >? CACHE_TTL_MS); [|reflexivity].
  simpl. now rewrite frame_set_priceCache.
Qed.

Lemma commutes_setCachedPrice `{!CacheFrame f} `{!NetFrame f} key d :
  commutes f (setCachedPrice key d).
Proof.
  intros s. unfold setCachedPrice. simpl.
  now rewrite frame_priceCache, frame_clock, frame_set_priceCache.
Qed.

End FramePrimitives.

#[global] Instance NetFrame_read_only b : NetFrame (set_read_only_disk b).
Proof. now split. Qed.

#[global] Instance FilesFrame_read_only b : FilesFrame (set_read_only_disk b).
Proof. now split. Qed.

#[global] Instance CacheFrame_read_only b : CacheFrame (set_read_only_disk b).
Proof. now split. Qed.

#[global] Instance NetFrame_priceCache c : NetFrame (set_priceCache c).
Proof. now split. Qed.

#[global] Instance FilesFrame_priceCache c : FilesFrame (set_priceCache c).
Proof. now split. Qed.

#[global] Instance DiskFrame_priceCache c : DiskFrame (set_priceCache c).
Proof. now split. Qed.

(** One step of a frame proof: split the computation at its outermost
    construct. *)
Ltac frame_step :=
  lazymatch goal with
  | |- commutes _ (bind _ _) => apply commutes_bind; [|intros ?]
  | |- commutes _ (try_catch _ _) => apply commutes_try_catch; [|intros ?]
  | |- commutes _ (ret _) => apply commutes_ret
  | |- commutes _ (throw _) => apply commutes_throw
  | |- commutes _ (lift _) => apply commutes_lift
  | |- commutes _ Date_now => apply commutes_Date_now; assumption
  | |- commutes _ (console_line _) => apply commutes_console_line; assumption
  | |- commutes _ (fetch _ _) => apply commutes_fetch; assumption
  | |- commutes _ (response_json _) => apply commutes_response_json
  | |- commutes _ (readFileSync _) => apply commutes_readFileSync; assumption
  | |- commutes _ (JSON_parse _) => apply commutes_JSON_parse
  | |- commutes _ (writeFileSync _ _) => apply commutes_writeFileSync; assumption
  | |- commutes _ (getCachedPrice _) => apply commutes_getCachedPrice; assumption
  | |- commutes _ (setCachedPrice _ _) => apply commutes_setCachedPrice; assumption
  | |- commutes _ (if ?b then _ else _) => destruct b
  | |- commutes _ (match ?x with _ => _ end) => destruct x
  | |- commutes _ (let _ := _ in _) => cbv zeta
  end.

Ltac frame := repeat frame_step.

Ltac returns_step :=
  lazymatch goal with
  | |- returns _ (bind _ _) => apply returns_bind_any; intros ?
  | |- returns _ (try_catch _ _) => apply returns_try_catch; [|intros ?]
  | |- returns _ (ret _) => apply returns_ret
  | |- returns _ (throw _) => apply returns_throw
  | |- returns _ (if ?b then _ else _) => destruct b
  | |- returns _ (match ?x with _ => _ end) => destruct x
  | |- returns _ (let _ := _ in _) => cbv zeta
  end.

Ltac total_step :=
  lazymatch goal with
  | |- total (bind _ _) => apply total_bind; [|intros ?]
  | |- total (try_catch _ _) => apply total_try_catch; intros ?
  | |- total (ret _) => apply total_ret
  | |- total (console_line _) => apply total_console_line
  | |- total (if ?b then _ else _) => destruct b
  | |- total (match ?x with _ => _ end) => destruct x
  end.

(** ** The adapters *)

Section AdapterFacts.

Variable W : World.
Variable symbol : string.
Variable payload_type : option string.
Variable goldapi_error_line : string -> string.
Variable metals_error_line : string.
Variable fcsapi_error_line : string.

Lemma fetchGoldApiIo_from_commutes f `{!NetFrame f} keys i :
  commutes f (fetchGoldApiIo_from W symbol payload_type goldapi_error_line i keys).
Proof.
  revert i. induction keys as [|k rest IH]; intros i; cbn [fetchGoldApiIo_from].
  - frame.
  - destruct (configured k); [|apply IH].
    repeat (frame_step || apply IH).
Qed.

Lemma fetchGoldApiIo_commutes f `{!NetFrame f} :
  commutes f (fetchGoldApiIo W symbol payload_type goldapi_error_line).
Proof. apply fetchGoldApiIo_from_commutes; assumption. Qed.

Lemma fetchMetalsApi_commutes f `{!NetFrame f} :
  commutes f (fetchMetalsApi W symbol payload_type metals_error_line).
Proof. unfold fetchMetalsApi. frame. Qed.

Lemma fetchFcsApi_commutes f `{!NetFrame f} :
  commutes f (fetchFcsApi W symbol payload_type fcsapi_error_line).
Proof. unfold fetchFcsApi. frame. Qed.

Lemma fetchGoldPriceOrg_commutes f `{!NetFrame f} :
  commutes f (fetchGoldPriceOrg W).
Proof. unfold fetchGoldPriceOrg. frame. Qed.

Lemma fetchGoldApiIo_from_total keys i :
  total (fetchGoldApiIo_from W symbol payload_type goldapi_error_line i keys).
Proof.
  revert i. induction keys as [|k rest IH]; intros i; cbn [fetchGoldApiIo_from].
  - apply total_ret.
  - destruct (configured k); [|apply IH].
    repeat (total_step || apply IH).
Qed.

Lemma fetchGoldApiIo_total :
  total (fetchGoldApiIo W symbol payload_type goldapi_error_line).
Proof. apply fetchGoldApiIo_from_total. Qed.

Lemma fetchMetalsApi_total :
  total (fetchMetalsApi W symbol payload_type metals_error_line).
Proof. unfold fetchMetalsApi. repeat total_step. Qed.

Lemma fetchFcsApi_total :
  total (fetchFcsApi W symbol payload_type fcsapi_error_line).
Proof. unfold fetchFcsApi. repeat total_step. Qed.

Lemma fetchGoldPriceOrg_total : total (fetchGoldPriceOrg W).
Proof. unfold fetchGoldPriceOrg. repeat total_step. Qed.

Lemma fetchGoldApiIo_from_payload keys i :
  returns goldapi_payload
    (fetchGoldApiIo_from W symbol payload_type goldapi_error_line i keys).
Proof.
  revert i. induction keys as [|k rest IH]; intros i; cbn [fetchGoldApiIo_from].
  - apply returns_ret. intros p [=].
  - destruct (configured k); [|apply IH].
    apply (returns_bind goldapi_payload).
    + repeat returns_step; try (intros p [=]; fail).
      intros p [= <-]. cbn [provider currency cached]. repeat split. now eexists.
    + intros [p|] Hp; [|apply IH]. now apply returns_ret.
Qed.

Lemma fetchGoldApiIo_payload :
  returns goldapi_payload
    (fetchGoldApiIo W symbol payload_type goldapi_error_line).
Proof. apply fetchGoldApiIo_from_payload. Qed.

Lemma fetchMetalsApi_payload :
  returns (derived_payload "metals-api")
    (fetchMetalsApi W symbol payload_type metals_error_line).
Proof.
  unfold fetchMetalsApi. repeat returns_step; try (intros p [=]; fail).
  intros p [= <-]. now cbn.
Qed.

Lemma fetchFcsApi_payload :
  returns (derived_payload "fcsapi")
    (fetchFcsApi W symbol payload_type fcsapi_error_line).
Proof.
  unfold fetchFcsApi. repeat returns_step; try (intros p [=]; fail).
  intros p [= <-]. now cbn.
Qed.

Lemma scan_patterns_payload html patterns :
  derived_payload "goldprice.org" (scan_patterns W html patterns)
  /\ checked_price (scan_patterns W html patterns).
Proof.
  induction patterns as [|pattern rest IH]; cbn [scan_patterns].
  - split; intros p [=].
  - destruct (regexp_match W pattern html) as [group1|]; [|exact IH].
    destruct (PrimFloat.is_finite _ && PrimFloat.ltb 0 _) eqn:Hcheck; [|exact IH].
    apply andb_true_iff in Hcheck.
    split; intros p [= <-]; now cbn.
Qed.

Lemma fetchGoldPriceOrg_payload :
  returns (fun o => derived_payload "goldprice.org" o /\ checked_price o)
    (fetchGoldPriceOrg W).
Proof.
  unfold fetchGoldPriceOrg. repeat returns_step;
    try (split; intros p [=]; fail).
  apply scan_patterns_payload.
Qed.

End AdapterFacts.

(** ** JavaScript objects, sorting and serialisation *)

Lemma own_set_prop_eq (ps : props) (k : string) (v : value) :
  Js.own (Js.set_prop ps k v) k = Some v.
Proof.
  induction ps as [|[k' v'] rest IH]; cbn [Js.set_prop Js.own].
  - now rewrite String.eqb_refl.
  - destruct (String.eqb k' k) eqn:E; cbn [Js.own]; rewrite E; auto.
Qed.

Lemma own_set_prop_ne (ps : props) (k k0 : string) (v : value) :
  k <> k0 -> Js.own (Js.set_prop ps k v) k0 = Js.own ps k0.
Proof.
  intros Hne. induction ps as [|[k' v'] rest IH]; cbn [Js.set_prop Js.own].
  - now apply String.eqb_neq in Hne as ->.
  - destruct (String.eqb k' k) eqn:E; cbn [Js.own].
    + apply String.eqb_eq in E as ->. now apply String.eqb_neq in Hne as ->.
    + now rewrite IH.
Qed.

Lemma own_In (ps : props) (k : string) :
  In k (map fst ps) -> exists v, Js.own ps k = Some v.
Proof.
  induction ps as [|[k' v'] rest IH]; cbn [map fst In Js.own]; [easy|].
  intros [-> | Hin].
  - rewrite String.eqb_refl. now eexists.
  - destruct (String.eqb k' k); [now eexists | auto].
Qed.

Lemma own_None (ps : props) (k : string) :
  Js.own ps k = None -> ~ In k (map fst ps).
Proof.
  intros Hnone Hin. destruct (own_In _ _ Hin) as [v Hv]. congruence.
Qed.

Lemma leb_refl (a : string) : String.leb a a = true.
Proof. destruct (String.leb_total a a); assumption. Qed.

Lemma leb_iff (a b : string) :
  String.leb a b = true <-> a = b \/ String_as_OT.lt a b.
Proof.
  unfold String.leb. destruct (String.compare a b) eqn:E.
  - apply String.compare_eq_iff in E. intuition.
  - apply String_as_OT.cmp_lt in E. intuition.
  - split; [discriminate|]. intros [-> | Hlt].
    + pose proof (String.compare_antisym b b) as Ha. rewrite E in Ha.
      cbn in Ha. congruence.
    + apply String_as_OT.cmp_lt in Hlt. unfold String_as_OT.cmp in Hlt. congruence.
Qed.

Lemma leb_trans (a b c : string) :
  String.leb a b = true -> String.leb b c = true -> String.leb a c = true.
Proof.
  rewrite !leb_iff. intros [-> | Hab] [-> | Hbc]; auto.
  right. eapply String_as_OT.lt_trans; eassumption.
Qed.

Lemma insert_sorted_In (k x : string) (l : list string) :
  In x (Js.insert_sorted k l) <-> x = k \/ In x l.
Proof.
  induction l as [|h t IH]; cbn [Js.insert_sorted In]; [intuition|].
  destruct (String.leb k h); cbn [In]; rewrite ?IH; intuition.
Qed.

Lemma sort_In (x : string) (l : list string) :
  In x (Js.sort l) <-> In x l.
Proof.
  induction l as [|h t IH]; cbn [Js.sort In]; [reflexivity|].
  rewrite insert_sorted_In, IH. intuition.
Qed.

Lemma insert_sorted_sorted (k : string) (l : list string) :
  StronglySorted (fun a b => String.leb a b = true) l ->
  StronglySorted (fun a b => String.leb a b = true) (Js.insert_sorted k l).
Proof.
  induction 1 as [|h t Hs IH Hall]; cbn [Js.insert_sorted].
  - repeat constructor.
  - destruct (String.leb k h) eqn:E.
    + constructor; [now constructor|]. constructor; [assumption|].
      eapply Forall_impl; [exact Hall|]. intros x Hx. eapply leb_trans; eassumption.
    + constructor; [assumption|]. apply List.Forall_forall. intros x Hx.
      apply insert_sorted_In in Hx as [-> | Hx].
      * destruct (String.leb_total h k); congruence.
      * rewrite List.Forall_forall in Hall. auto.
Qed.

Lemma sort_sorted (l : list string) :
  StronglySorted (fun a b => String.leb a b = true) (Js.sort l).
Proof.
  induction l; cbn [Js.sort]; [constructor | now apply insert_sorted_sorted].
Qed.

Lemma sorted_last_greatest (l : list string) :
  StronglySorted (fun a b => String.leb a b = true) l ->
  forall m rest, rev l = m :: rest ->
  forall x, In x l -> String.leb x m = true.
Proof.
  induction 1 as [|h t Hs IH Hall]; intros m rest Hrev x Hin; [easy|].
  cbn [rev] in Hrev. assert (In m (h :: t)) as Hm.
  { apply in_rev. cbn [rev]. rewrite Hrev. now left. }
  destruct Hin as [<- | Hin].
  - destruct Hm as [<- | Hm]; [apply leb_refl|].
    rewrite List.Forall_forall in Hall. auto.
  - destruct (rev t) as [|m' rest'] eqn:Ert.
    + apply in_rev in Hin. rewrite Ert in Hin. easy.
    + cbn in Hrev. injection Hrev as <- _. now apply (IH m' rest').
Qed.

(** [Object.keys(o).sort().reverse()[0]] is a key of [o], and no key of [o]
    is greater. *)
Lemma latest_month (keys : list string) (latest : string) (rest : list string) :
  rev (Js.sort keys) = latest :: rest ->
  In latest keys /\ forall k, In k keys -> String.leb k latest = true.
Proof.
  intros Hrev. split.
  - apply sort_In, in_rev. rewrite Hrev. now left.
  - intros k Hk. eapply sorted_last_greatest; [apply sort_sorted | exact Hrev |].
    now apply sort_In.
Qed.

Lemma latest_month_exists (keys : list string) :
  keys <> [] -> exists latest rest, rev (Js.sort keys) = latest :: rest.
Proof.
  intros Hne. destruct (rev (Js.sort keys)) as [|latest rest] eqn:E; [|eauto].
  destruct keys as [|k keys]; [easy|]. exfalso.
  assert (In k (rev (Js.sort (k :: keys)))) as Hin.
  { apply in_rev. rewrite rev_involutive. apply sort_In. now left. }
  now rewrite E in Hin.
Qed.

Lemma jsonify_props_nil : Js.jsonify_props [] = [].
Proof. reflexivity. Qed.

Lemma jsonify_props_cons (k : string) (w : value) (rest : props) :
  Js.jsonify_props ((k, w) :: rest)
  = match Js.jsonify w with
    | Some w' => (k, w') :: Js.jsonify_props rest
    | None => Js.jsonify_props rest
    end.
Proof. reflexivity. Qed.

(** A property of a serialised object is the serialised property. *)
Lemma own_jsonify_props (ps : props) (k : string) :
  NoDup (map fst ps) ->
  Js.own (Js.jsonify_props ps) k
  = match Js.own ps k with Some v => Js.jsonify v | None => None end.
Proof.
  induction ps as [|[k' w] rest IH]; intros Hnd; [reflexivity|].
  cbn [map fst] in Hnd. apply NoDup_cons in Hnd as [Hnotin Hnd].
  rewrite jsonify_props_cons. cbn [Js.own].
  destruct (String.eqb k' k) eqn:E.
  - apply String.eqb_eq in E as ->.
    destruct (Js.jsonify w) as [w'|]; cbn [Js.own].
    + now rewrite String.eqb_refl.
    + rewrite (IH Hnd). destruct (Js.own rest k) as [v|] eqn:Ev; [|reflexivity].
      exfalso. apply Hnotin. apply list_elem_of_In.
      destruct (Js.own rest k) eqn:E2; [|discriminate].
      clear -E2. induction rest as [|[k2 v2] rest IH]; [discriminate|].
      cbn [Js.own] in E2. cbn [map fst In].
      destruct (String.eqb k2 k) eqn:E; [left; now apply String.eqb_eq | right; auto].
  - destruct (Js.jsonify w) as [w'|]; cbn [Js.own]; rewrite ?E; auto.
Qed.

(** What a client reads in a field of a response built from distinct keys. *)
Lemma field_NextResponse_json (body : props) (status : Z) (k : string) :
  NoDup (map fst body) ->
  field (NextResponse_json body status) k
  = match Js.own body k with
    | Some v => default Undefined (Js.jsonify v)
    | None => Undefined
    end.
Proof.
  intros Hnd. unfold field, NextResponse_json. cbn [response_body Js.member].
  rewrite (own_jsonify_props _ _ Hnd). now destruct (Js.own body k).
Qed.

Lemma jsonify_json_number x : Js.jsonify (Js.json_number x) = Some (Js.json_number x).
Proof.
  unfold Js.json_number.
  destruct (PrimFloat.is_finite x) eqn:Hf; [|reflexivity].
  destruct (PrimFloat.is_zero x) eqn:Hz; [reflexivity|].
  cbn [Js.jsonify]. unfold Js.json_number. now rewrite Hf, Hz.
Qed.

Lemma own_jsonify_set_prop ps k v v' :
  Js.jsonify v = Some v' ->
  Js.own (Js.jsonify_props (Js.set_prop ps k v)) k = Some v'.
Proof.
  intros Hv. induction ps as [|[k' w] rest IH]; cbn [Js.set_prop].
  - rewrite jsonify_props_cons, Hv. cbn [Js.own]. now rewrite String.eqb_refl.
  - destruct (String.eqb k' k) eqn:E; rewrite jsonify_props_cons.
    + rewrite Hv. cbn [Js.own]. now rewrite E.
    + destruct (Js.jsonify w); [cbn [Js.own]; rewrite E|]; exact IH.
Qed.

Lemma jsonify_props_normal ps :
  Forall (fun kv => json_normal (snd kv)) ps -> Js.jsonify_props ps = ps.
Proof.
  induction 1 as [|[k w] rest Hw _ IH]; [reflexivity|].
  rewrite jsonify_props_cons. cbn [snd] in Hw. unfold json_normal in Hw.
  now rewrite Hw, IH.
Qed.

Lemma jsonify_props_set_prop_normal ps k v v' :
  Forall (fun kv => json_normal (snd kv)) ps ->
  Js.jsonify v = Some v' ->
  Js.jsonify_props (Js.set_prop ps k v) = Js.set_prop ps k v'.
Proof.
  intros Hps Hv. induction Hps as [|[k' w] rest Hw Hrest IH]; cbn [Js.set_prop].
  - now rewrite jsonify_props_cons, Hv.
  - cbn [snd] in Hw. unfold json_normal in Hw.
    destruct (String.eqb k' k) eqn:E; rewrite jsonify_props_cons.
    + now rewrite Hv, (jsonify_props_normal rest Hrest).
    + now rewrite Hw, IH.
Qed.

Lemma set_prop_normal ps k v :
  Forall (fun kv => json_normal (snd kv)) ps -> json_normal v ->
  Forall (fun kv => json_normal (snd kv)) (Js.set_prop ps k v).
Proof.
  intros Hps Hv. induction Hps as [|[k' w] rest Hw Hrest IH]; cbn [Js.set_prop].
  - now repeat constructor.
  - destruct (String.eqb k' k); constructor; auto.
Qed.

Lemma keys_set_prop ps k v :
  map fst (Js.set_prop ps k v) = months_after ps k.
Proof.
  unfold months_after.
  induction ps as [|[k' w] rest IH]; cbn [Js.set_prop Js.own map fst app];
    [reflexivity|].
  destruct (String.eqb k' k) eqn:E; [reflexivity|].
  cbn [map fst]. rewrite IH. now destruct (Js.own rest k).
Qed.

(** The record the write stores, after serialisation. *)
Lemma jsonify_monthly_record W d now :
  Js.jsonify (monthly_record W d now)
  = Some (Obj [("price", Js.json_number (price_oz d));
               ("price_oz", Js.json_number (price_oz d));
               ("price_gram_24k", Js.json_number (price_gram_24k d));
               ("currency", Str (currency d));
               ("provider", Str (provider d));
               ("cached", Bool true);
               ("timestamp", Str (toISOString W now))]).
Proof. reflexivity. Qed.

Lemma stored_record_normal W d now v :
  Js.jsonify (monthly_record W d now) = Some v -> json_normal v.
Proof.
  rewrite jsonify_monthly_record. intros [= <-]. unfold json_normal.
  cbn [Js.jsonify]. now rewrite !jsonify_json_number.
Qed.

(** ** Rules for the parts of the state a computation leaves alone *)

Section Keeps.

Context {X : Type} (g : State -> X).
Context {A B : Type}.

Lemma keeps_ret (a : A) : keeps g (ret a).
Proof. easy. Qed.

Lemma keeps_throw (e : thrown) : keeps g (@throw A e).
Proof. easy. Qed.

Lemma keeps_lift (c : completion A) : keeps g (lift c).
Proof. easy. Qed.

Lemma keeps_bind (m : M A) (k : A -> M B) :
  keeps g m -> (forall a, keeps g (k a)) -> keeps g (bind m k).
Proof.
  intros Hm Hk s. unfold bind. specialize (Hm s).
  destruct (m s) as [[a|e] s']; cbn [snd] in *; [|assumption].
  now rewrite Hk.
Qed.

Lemma keeps_try_catch (body : M A) (handler : thrown -> M A) :
  keeps g body -> (forall e, keeps g (handler e)) ->
  keeps g (try_catch body handler).
Proof.
  intros Hb Hh s. unfold try_catch. specialize (Hb s).
  destruct (body s) as [[a|e] s']; cbn [snd] in *; [assumption|].
  now rewrite Hh.
Qed.

End Keeps.

Section KeepsPrimitives.

Context {X : Type} (g : State -> X).

Lemma keeps_Date_now : keeps g Date_now.
Proof. easy. Qed.

Lemma keeps_console_line `{!ConsoleKept g} line : keeps g (console_line line).
Proof. intros s. apply kept_set_console. Qed.

Lemma keeps_fetch `{!WireKept g} W req : keeps g (fetch W req).
Proof.
  intros s. unfold fetch.
  destruct (result (network W (clock s) req)); cbn [snd];
    now rewrite kept_set_requests, kept_set_clock.
Qed.

Lemma keeps_response_json r : keeps g (response_json r).
Proof. unfold response_json. now destruct (json_body r). Qed.

Lemma keeps_readFileSync path : keeps g (readFileSync path).
Proof. intros s. unfold readFileSync. now destruct (files s !! path). Qed.

Lemma keeps_JSON_parse c : keeps g (JSON_parse c).
Proof. now destruct c. Qed.

Lemma keeps_writeFileSync `{!FilesKept g} path text :
  keeps g (writeFileSync path text).
Proof.
  intros s. unfold writeFileSync. destruct text as [c|]; [|reflexivity].
  destruct (read_only_disk s); [reflexivity|]. apply kept_set_files.
Qed.

Lemma keeps_getCachedPrice `{!CacheKept g} key : keeps g (getCachedPrice key).
Proof.
  intros s. unfold getCachedPrice.
  destruct (priceCache s !! key) as [entry|]; [|reflexivity].
  destruct (clock s - ts entry >? CACHE_TTL_MS); [|reflexivity].
  apply kept_set_priceCache.
Qed.

Lemma keeps_setCachedPrice `{!CacheKept g} key d : keeps g (setCachedPrice key d).
Proof. intros s. apply kept_set_priceCache. Qed.

End KeepsPrimitives.

#[global] Instance WireKept_priceCache : WireKept priceCache.
Proof. now split. Qed.
#[global] Instance ConsoleKept_priceCache : ConsoleKept priceCache.
Proof. now split. Qed.
#[global] Instance FilesKept_priceCache : FilesKept priceCache.
Proof. now split. Qed.

#[global] Instance WireKept_files : WireKept files.
Proof. now split. Qed.
#[global] Instance ConsoleKept_files : ConsoleKept files.
Proof. now split. Qed.
#[global] Instance CacheKept_files : CacheKept files.
Proof. now split. Qed.

#[global] Instance WireKept_read_only_disk : WireKept read_only_disk.
Proof. now split. Qed.
#[global] Instance ConsoleKept_read_only_disk : ConsoleKept read_only_disk.
Proof. now split. Qed.
#[global] Instance FilesKept_read_only_disk : FilesKept read_only_disk.
Proof. now split. Qed.
#[global] Instance CacheKept_read_only_disk : CacheKept read_only_disk.
Proof. now split. Qed.

#[global] Instance ConsoleKept_requests : ConsoleKept requests.
Proof. now split. Qed.
#[global] Instance FilesKept_requests : FilesKept requests.
Proof. now split. Qed.
#[global] Instance CacheKept_requests : CacheKept requests.
Proof. now split. Qed.

#[global] Instance ConsoleKept_clock : ConsoleKept clock.
Proof. now split. Qed.
#[global] Instance FilesKept_clock : FilesKept clock.
Proof. now split. Qed.
#[global] Instance CacheKept_clock : CacheKept clock.
Proof. now split. Qed.

Ltac keeps_step :=
  lazymatch goal with
  | |- keeps _ (bind _ _) => apply keeps_bind; [|intros ?]
  | |- keeps _ (try_catch _ _) => apply keeps_try_catch; [|intros ?]
  | |- keeps _ (ret _) => apply keeps_ret
  | |- keeps _ (throw _) => apply keeps_throw
  | |- keeps _ (lift _) => apply keeps_lift
  | |- keeps _ Date_now => apply keeps_Date_now
  | |- keeps _ (console_line _) => apply keeps_console_line; assumption
  | |- keeps _ (fetch _ _) => apply keeps_fetch; assumption
  | |- keeps _ (response_json _) => apply keeps_response_json
  | |- keeps _ (readFileSync _) => apply keeps_readFileSync
  | |- keeps _ (JSON_parse _) => apply keeps_JSON_parse
  | |- keeps _ (writeFileSync _ _) => apply keeps_writeFileSync; assumption
  | |- keeps _ (getCachedPrice _) => apply keeps_getCachedPrice; assumption
  | |- keeps _ (setCachedPrice _ _) => apply keeps_setCachedPrice; assumption
  | |- keeps _ (if ?b then _ else _) => destruct b
  | |- keeps _ (match ?x with _ => _ end) => destruct x
  | |- keeps _ (let _ := _ in _) => cbv zeta
  end.

Section AdapterKeeps.

Context {X : Type} (g : State -> X) `{!WireKept g} `{!ConsoleKept g}.
Variable W : World.
Variable symbol : string.
Variable payload_type : option string.
Variable goldapi_error_line : string -> string.
Variable metals_error_line : string.
Variable fcsapi_error_line : string.

Lemma fetchGoldApiIo_from_keeps keys i :
  keeps g (fetchGoldApiIo_from W symbol payload_type goldapi_error_line i keys).
Proof.
  revert i. induction keys as [|k rest IH]; intros i; cbn [fetchGoldApiIo_from].
  - apply keeps_ret.
  - destruct (configured k); [|apply IH].
    repeat (keeps_step || apply IH).
Qed.

Lemma fetchGoldApiIo_keeps :
  keeps g (fetchGoldApiIo W symbol payload_type goldapi_error_line).
Proof. apply fetchGoldApiIo_from_keeps. Qed.

Lemma fetchMetalsApi_keeps :
  keeps g (fetchMetalsApi W symbol payload_type metals_error_line).
Proof. unfold fetchMetalsApi. repeat keeps_step. Qed.

Lemma fetchFcsApi_keeps :
  keeps g (fetchFcsApi W symbol payload_type fcsapi_error_line).
Proof. unfold fetchFcsApi. repeat keeps_step. Qed.

Lemma fetchGoldPriceOrg_keeps : keeps g (fetchGoldPriceOrg W).
Proof. unfold fetchGoldPriceOrg. repeat keeps_step. Qed.

End AdapterKeeps.

(** ** The snapshot store *)

Section SnapshotFacts.

Variable W : World.
Variable filePath : string.
Variable creating_line : string.
Variable update_error_line : string.
Variable fallback_error_line : string.

Let update := updateMonthlyPriceFile W filePath creating_line update_error_line.
Let fallback := getMonthlyFallback W filePath fallback_error_line.

Lemma updateMonthlyPriceFile_total d : total (update d).
Proof. apply total_try_catch. intros e. apply total_console_line. Qed.

Lemma getMonthlyFallback_total : total fallback.
Proof. apply total_try_catch. intros e. repeat total_step. Qed.

Lemma updateMonthlyPriceFile_commutes f
    `{!NetFrame f} `{!FilesFrame f} `{!DiskFrame f} d :
  commutes f (update d).
Proof. unfold update, updateMonthlyPriceFile. frame. Qed.

Lemma getMonthlyFallback_commutes f `{!NetFrame f} `{!FilesFrame f} :
  commutes f fallback.
Proof. unfold fallback, getMonthlyFallback. frame. Qed.

Lemma updateMonthlyPriceFile_keeps {X : Type} (g : State -> X)
    `{!ConsoleKept g} `{!FilesKept g} d :
  keeps g (update d).
Proof. unfold update, updateMonthlyPriceFile. repeat keeps_step. Qed.

Lemma getMonthlyFallback_keeps {X : Type} (g : State -> X) `{!ConsoleKept g} :
  keeps g fallback.
Proof. unfold fallback, getMonthlyFallback. repeat keeps_step. Qed.

End SnapshotFacts.

Section SnapshotBehaviour.

Variable W : World.
Variable filePath : string.
Variable creating_line : string.
Variable update_error_line : string.
Variable fallback_error_line : string.

Let update := updateMonthlyPriceFile W filePath creating_line update_error_line.
Let fallback := getMonthlyFallback W filePath fallback_error_line.

(** The current month's record, when the file has a truthy one. *)
Lemma getMonthlyFallback_current s monthlyPrices record :
  files s !! filePath = Some (Json monthlyPrices) ->
  Js.get monthlyPrices (month_key W (clock s)) = Normal record ->
  Js.truthy record = true ->
  fallback s = (Normal (Some (tagged_fallback record)), s).
Proof.
  intros Hfile Hget Htruthy.
  unfold fallback, getMonthlyFallback, try_catch, bind, readFileSync, Date_now, lift.
  rewrite Hfile. cbn [JSON_parse ret]. rewrite Hget, Htruthy. reflexivity.
Qed.

(** Otherwise the record under the greatest key of the file. *)
Lemma getMonthlyFallback_latest s monthlyPrices record ks latestMonth rest latest :
  files s !! filePath = Some (Json monthlyPrices) ->
  Js.get monthlyPrices (month_key W (clock s)) = Normal record ->
  Js.truthy record = false ->
  Js.keys monthlyPrices = Normal ks ->
  rev (Js.sort ks) = latestMonth :: rest ->
  Js.get monthlyPrices latestMonth = Normal latest ->
  fallback s = (Normal (Some (tagged_fallback latest)), s).
Proof.
  intros Hfile Hget Hfalsy Hkeys Hrev Hlatest.
  unfold fallback, getMonthlyFallback, try_catch, bind, readFileSync, Date_now, lift.
  rewrite Hfile. cbn [JSON_parse ret]. rewrite Hget, Hfalsy, Hkeys, Hrev, Hlatest.
  reflexivity.
Qed.

(** Nothing when the file has no key. *)
Lemma getMonthlyFallback_no_key s monthlyPrices record :
  files s !! filePath = Some (Json monthlyPrices) ->
  Js.get monthlyPrices (month_key W (clock s)) = Normal record ->
  Js.truthy record = false ->
  Js.keys monthlyPrices = Normal [] ->
  fallback s = (Normal None, s).
Proof.
  intros Hfile Hget Hfalsy Hkeys.
  unfold fallback, getMonthlyFallback, try_catch, bind, readFileSync, Date_now, lift.
  rewrite Hfile. cbn [JSON_parse ret]. rewrite Hget, Hfalsy, Hkeys. reflexivity.
Qed.

(** Nothing, and a console line, when there is no file or it does not
    parse. *)
Lemma getMonthlyFallback_unreadable s :
  files s !! filePath = None \/ files s !! filePath = Some NotJson ->
  fallback s
  = (Normal None, set_console (console s ++ [fallback_error_line])%list s).
Proof.
  intros [Hfile | Hfile];
    unfold fallback, getMonthlyFallback, try_catch, bind, readFileSync;
    rewrite Hfile; reflexivity.
Qed.

(** On a disk that can be written, a mapping that is an object gets the
    record under the current month and goes back to the file. *)
Lemma updateMonthlyPriceFile_written s d ps :
  read_only_disk s = false ->
  loaded_mapping filePath s = Obj ps ->
  update d s
  = (Normal tt,
     set_files
       (<[filePath :=
            Json (Obj (Js.jsonify_props
                         (Js.set_prop ps (month_key W (clock s))
                            (monthly_record W d (clock s)))))]> (files s))
       (set_console (console s ++ load_lines filePath creating_line s)%list s)).
Proof.
  intros Hrw Hload. unfold loaded_mapping, load_lines in *.
  unfold update, updateMonthlyPriceFile, try_catch, bind, readFileSync.
  destruct (files s !! filePath) as [[|v]|] eqn:Hfile; cbn -[month_key monthly_record].
  - injection Hload as <-. cbn -[month_key monthly_record]. rewrite Hrw.
    reflexivity.
  - subst v. cbn -[month_key monthly_record]. rewrite Hrw.
    rewrite app_nil_r. now destruct s.
  - injection Hload as <-. cbn -[month_key monthly_record]. rewrite Hrw.
    reflexivity.
Qed.

(** On a disk that cannot be written, the fault is caught: the call returns
    normally, the last console line is the error line, and no file
    changes. *)
Lemma updateMonthlyPriceFile_write_fault s d :
  read_only_disk s = true ->
  exists lines,
    update d s
    = (Normal tt,
       set_console (console s ++ lines ++ [update_error_line])%list s).
Proof.
  intros Hro.
  unfold update, updateMonthlyPriceFile, try_catch, bind, readFileSync.
  destruct (files s !! filePath) as [[|v]|] eqn:Hfile; cbn -[month_key monthly_record].
  - rewrite Hro. exists [creating_line].
    unfold console_line. cbn. now rewrite <- app_assoc.
  - destruct v; cbn -[month_key monthly_record]; rewrite ?Hro;
      exists []; reflexivity.
  - rewrite Hro. exists [creating_line].
    unfold console_line. cbn. now rewrite <- app_assoc.
Qed.

End SnapshotBehaviour.

(** ** The waterfall *)

Section PriceRouteFacts.

Variable cacheKey : string.
Variable providers : list (string * M (option Payload)).
Variable snapshot_write : Payload -> M unit.
Variable monthly_fallback : M (option props).
Variable thrown_line : string -> option string.
Variable failure_line : string.
Variable failure_error : string.

Let loop := try_providers cacheKey snapshot_write thrown_line.
Let handler := GET_with cacheKey providers snapshot_write monthly_fallback
                 thrown_line failure_line failure_error.

Lemma try_providers_step_none debug grams name fn rest errors s s1 :
  fn s = (Normal None, s1) ->
  loop debug grams ((name, fn) :: rest) errors s
  = loop debug grams rest
      (push_if debug errors
         {| failed_provider := name; message := "No data in response" |}) s1.
Proof.
  intros H. unfold loop. cbn [try_providers]. unfold bind at 1, try_catch, bind at 1.
  now rewrite H.
Qed.

Lemma try_providers_step_thrown debug grams name fn rest errors s e s1 :
  fn s = (Throw e, s1) ->
  loop debug grams ((name, fn) :: rest) errors s
  = loop debug grams rest
      (push_if debug errors
         {| failed_provider := name; message := error_message e |})
      (log_thrown thrown_line name s1).
Proof.
  intros H. unfold loop. cbn [try_providers]. unfold bind at 1, try_catch, bind at 1.
  rewrite H. unfold log_thrown, bind. now destruct (thrown_line name).
Qed.

Lemma try_providers_step_some debug grams name fn rest errors s p s2 s3 :
  fn s = (Normal (Some p), s2) ->
  snapshot_write p (after_cache_write cacheKey debug p s2) = (Normal tt, s3) ->
  loop debug grams ((name, fn) :: rest) errors s
  = (Normal (inl (live_response grams p)), s3).
Proof.
  intros H Hw. unfold loop. cbn [try_providers]. unfold bind at 1, try_catch, bind at 1.
  rewrite H. unfold after_cache_write in Hw. unfold bind.
  destruct debug; cbn [negb ret setCachedPrice snd] in *; now rewrite Hw.
Qed.

(** When every provider fails the loop runs out, with the diagnostics of all
    of them in debug mode and none otherwise. *)
Lemma try_providers_exhausted debug grams ps s ds s' :
  exhausted thrown_line ps s ds s' ->
  forall errors,
    loop debug grams ps errors s
    = (Normal (inr (if debug then (errors ++ ds)%list else errors)), s').
Proof.
  induction 1 as [s | name fn rest s s1 ds s' Hfn _ IH
                    | name fn rest s e s1 ds s' Hfn _ IH]; intros errors.
  - unfold loop. cbn [try_providers]. unfold ret.
    destruct debug; now rewrite ?app_nil_r.
  - rewrite (try_providers_step_none _ _ _ _ _ _ _ _ Hfn), IH.
    destruct debug; cbn [push_if]; now rewrite <- ?app_assoc.
  - rewrite (try_providers_step_thrown _ _ _ _ _ _ _ _ _ Hfn), IH.
    destruct debug; cbn [push_if]; now rewrite <- ?app_assoc.
Qed.

(** The first provider that returns a payload ends the loop: the response is
    built from that payload, and the providers after it play no part. *)
Lemma try_providers_first_success debug grams pre name fn post s ds s1 p s2 s3 :
  exhausted thrown_line pre s ds s1 ->
  fn s1 = (Normal (Some p), s2) ->
  snapshot_write p (after_cache_write cacheKey debug p s2) = (Normal tt, s3) ->
  forall errors,
    loop debug grams (pre ++ (name, fn) :: post)%list errors s
    = (Normal (inl (live_response grams p)), s3).
Proof.
  induction 1 as [s | name' fn' rest s s1 ds s' Hfn _ IH
                    | name' fn' rest s e s1 ds s' Hfn _ IH];
    intros Hsome Hwrite errors; cbn [app].
  - eapply try_providers_step_some; eassumption.
  - rewrite (try_providers_step_none _ _ _ _ _ _ _ _ Hfn). now apply IH.
  - rewrite (try_providers_step_thrown _ _ _ _ _ _ _ _ _ Hfn). now apply IH.
Qed.

Lemma try_providers_total debug grams ps errors :
  total (loop debug grams ps errors).
Proof.
  revert errors. induction ps as [|[name fn] rest IH]; intros errors;
    unfold loop; cbn [try_providers].
  - apply total_ret.
  - apply total_bind.
    + apply total_try_catch. intros e. apply total_bind; [|intros; apply total_ret].
      destruct (thrown_line name); [apply total_console_line | apply total_ret].
    + intros [response | errors']; [apply total_ret | apply IH].
Qed.

(** The handler, one stage after the other. *)
Lemma GET_with_run request s :
  handler request s
  = let grams := wants_grams request in
    let debug := wants_debug request in
    match read_cache cacheKey debug s with
    | (Normal (Some hit), s0) => (Normal (cached_response grams hit), s0)
    | (Normal None, s0) =>
        match loop debug grams providers [] s0 with
        | (Normal (inl response), s1) => (Normal response, s1)
        | (Normal (inr errors), s1) =>
            match monthly_fallback s1 with
            | (Normal (Some fallback), s2) =>
                (Normal (fallback_response grams fallback), s2)
            | (Normal None, s2) =>
                (Normal (failure_response failure_error debug errors),
                 set_console (console s2 ++ [failure_line])%list s2)
            | (Throw e, s2) => (Throw e, s2)
            end
        | (Throw e, s1) => (Throw e, s1)
        end
    | (Throw e, s0) => (Throw e, s0)
    end.
Proof.
  unfold handler, GET_with, loop, bind. cbv zeta.
  destruct (read_cache cacheKey (wants_debug request) s) as [[[hit|]|e] s0];
    try reflexivity.
  destruct (try_providers _ _ _ _ _ _ _ s0) as [[[response | errors]|e] s1];
    try reflexivity.
  destruct (monthly_fallback s1) as [[[fallback|]|e] s2]; reflexivity.
Qed.

Lemma read_cache_total debug : total (read_cache cacheKey debug).
Proof.
  destruct debug; [apply total_ret|]. intros s. cbn [read_cache].
  destruct (getCachedPrice_cases cacheKey s)
    as [[_ E] | [(entry & _ & _ & E) | (entry & _ & _ & E)]]; rewrite E; eauto.
Qed.

(** The handler never throws: whatever happens, it answers. *)
Lemma GET_with_total request :
  total monthly_fallback -> total (handler request).
Proof.
  intros Hfb. unfold handler, GET_with.
  apply total_bind; [apply read_cache_total|].
  intros [hit|]; [apply total_ret|].
  apply total_bind; [apply try_providers_total|].
  intros [response | errors]; [apply total_ret|].
  apply total_bind; [exact Hfb|].
  intros [fallback|]; [apply total_ret|].
  apply total_bind; [apply total_console_line | intros; apply total_ret].
Qed.

End PriceRouteFacts.

Section PriceRouteFrames.

Variable cacheKey : string.
Variable providers : list (string * M (option Payload)).
Variable snapshot_write : Payload -> M unit.
Variable monthly_fallback : M (option props).
Variable thrown_line : string -> option string.
Variable failure_line : string.
Variable failure_error : string.

Let loop := try_providers cacheKey snapshot_write thrown_line.
Let handler := GET_with cacheKey providers snapshot_write monthly_fallback
                 thrown_line failure_line failure_error.

Variable f : State -> State.
Context `{!NetFrame f}.

Hypothesis fallback_commutes : commutes f monthly_fallback.

Lemma try_providers_commutes debug grams ps errors :
  (debug = false -> CacheFrame f) ->
  Forall (fun nf => commutes f (snd nf)) ps ->
  (forall p, commutes f (snapshot_write p)) ->
  commutes f (loop debug grams ps errors).
Proof.
  intros Hcache Hps Hwrite. revert errors.
  induction Hps as [|[name fn] rest Hfn _ IH]; intros errors;
    unfold loop; cbn [try_providers].
  - apply commutes_ret.
  - cbn [snd] in Hfn. apply commutes_bind.
    + apply commutes_try_catch.
      * apply commutes_bind; [exact Hfn|]. intros [p|]; [|apply commutes_ret].
        apply commutes_bind.
        -- destruct debug; cbn [negb]; [apply commutes_ret|].
           pose proof (Hcache eq_refl). now apply commutes_setCachedPrice.
        -- intros _. apply commutes_bind; [apply Hwrite | intros; apply commutes_ret].
      * intros e. apply commutes_bind; [|intros; apply commutes_ret].
        destruct (thrown_line name);
          [now apply commutes_console_line | apply commutes_ret].
    + intros [response | errors']; [apply commutes_ret | apply IH].
Qed.

(** A state change that the providers, the snapshot write and the snapshot
    read do not see is not seen by the handler either (in debug mode, even
    when it changes the cache). *)
Lemma GET_with_commutes request :
  (wants_debug request = false -> CacheFrame f) ->
  Forall (fun nf => commutes f (snd nf)) providers ->
  (forall p, commutes f (snapshot_write p)) ->
  commutes f (handler request).
Proof.
  intros Hcache Hps Hwrite. unfold handler, GET_with. cbv zeta.
  apply commutes_bind.
  - unfold read_cache. destruct (wants_debug request); [apply commutes_ret|].
    pose proof (Hcache eq_refl). now apply commutes_getCachedPrice.
  - intros [hit|]; [apply commutes_ret|].
    apply commutes_bind; [now apply try_providers_commutes|].
    intros [response | errors]; [apply commutes_ret|].
    apply commutes_bind; [exact fallback_commutes|].
    intros [fallback|]; [apply commutes_ret|].
    apply commutes_bind; [now apply commutes_console_line | intros; apply commutes_ret].
Qed.

End PriceRouteFrames.

Section SnapshotFaultFrame.

Variable cacheKey : string.
Variable providers : list (string * M (option Payload)).
Variable snapshot_write : Payload -> M unit.
Variable monthly_fallback : M (option props).
Variable thrown_line : string -> option string.
Variable failure_line : string.
Variable failure_error : string.
Variable b : bool.

Let loop := try_providers cacheKey snapshot_write thrown_line.
Let handler := GET_with cacheKey providers snapshot_write monthly_fallback
                 thrown_line failure_line failure_error.
Let f := set_read_only_disk b.

Hypothesis providers_commute : Forall (fun nf => commutes f (snd nf)) providers.
Hypothesis fallback_commutes : commutes f monthly_fallback.
Hypothesis write_total : forall p, total (snapshot_write p).
Hypothesis write_keeps_cache : forall p, keeps priceCache (snapshot_write p).

(** Whether the disk can be written changes neither what the loop hands
    back nor the cache it leaves; and when the loop runs out, nothing else
    either. *)
Lemma try_providers_write_fault debug grams ps errors s :
  Forall (fun nf => commutes f (snd nf)) ps ->
  fst (loop debug grams ps errors (f s)) = fst (loop debug grams ps errors s)
  /\ priceCache (snd (loop debug grams ps errors (f s)))
     = priceCache (snd (loop debug grams ps errors s))
  /\ (forall errors', fst (loop debug grams ps errors s) = Normal (inr errors') ->
        snd (loop debug grams ps errors (f s)) = f (snd (loop debug grams ps errors s))).
Proof.
  intros Hps. revert errors s.
  induction Hps as [|[name fn] rest Hfn _ IH]; intros errors s.
  - unfold loop. cbn. auto.
  - cbn [snd] in Hfn. pose proof (Hfn s) as Ef.
    destruct (fn s) as [[[p|]|e] s1] eqn:Es; cbn [fst snd] in Ef.
    + pose proof (commutes_setCachedPrice f cacheKey p s1) as Ec.
      assert (after_cache_write cacheKey debug p (f s1)
              = f (after_cache_write cacheKey debug p s1)) as Ea.
      { unfold after_cache_write. destruct debug; [reflexivity|]. now rewrite Ec. }
      destruct (write_total p (after_cache_write cacheKey debug p (f s1)))
        as ([] & sa & Ewa).
      destruct (write_total p (after_cache_write cacheKey debug p s1))
        as ([] & sb & Ewb).
      unfold loop.
      rewrite (try_providers_step_some _ _ _ _ _ _ _ _ _ _ _ _ _ Ef Ewa).
      rewrite (try_providers_step_some _ _ _ _ _ _ _ _ _ _ _ _ _ Es Ewb).
      cbn [fst snd]. repeat split; [|discriminate].
      pose proof (write_keeps_cache p (after_cache_write cacheKey debug p (f s1))) as Ka.
      pose proof (write_keeps_cache p (after_cache_write cacheKey debug p s1)) as Kb.
      rewrite Ewa in Ka. rewrite Ewb in Kb. cbn [snd] in Ka, Kb.
      rewrite Ka, Kb, Ea. reflexivity.
    + unfold loop.
      rewrite (try_providers_step_none _ _ _ _ _ _ _ _ _ _ _ Ef).
      rewrite (try_providers_step_none _ _ _ _ _ _ _ _ _ _ _ Es).
      apply IH.
    + unfold loop.
      rewrite (try_providers_step_thrown _ _ _ _ _ _ _ _ _ _ _ _ Ef).
      rewrite (try_providers_step_thrown _ _ _ _ _ _ _ _ _ _ _ _ Es).
      replace (log_thrown thrown_line name (f s1))
        with (f (log_thrown thrown_line name s1))
        by (unfold log_thrown; now destruct (thrown_line name)).
      apply IH.
Qed.

(** The answer of the handler and the cache it leaves are the same whether
    the disk can be written or not. *)
Lemma GET_with_write_fault request s :
  fst (handler request (f s)) = fst (handler request s)
  /\ priceCache (snd (handler request (f s)))
     = priceCache (snd (handler request s)).
Proof.
  unfold handler. rewrite !GET_with_run. cbv zeta.
  set (debug := wants_debug request). set (grams := wants_grams request).
  assert (commutes f (read_cache cacheKey debug)) as Hc.
  { unfold read_cache. destruct debug; [apply commutes_ret|].
    apply commutes_getCachedPrice; typeclasses eauto. }
  rewrite Hc.
  destruct (read_cache cacheKey debug s) as [[[hit|]|e] s0]; cbn [fst snd];
    [now split | | now split].
  destruct (try_providers_write_fault debug grams providers [] s0 providers_commute)
    as (Hfst & Hcache & Hsnd).
  fold loop.
  destruct (loop debug grams providers [] s0) as [[[response | errors]|e] s1];
    destruct (loop debug grams providers [] (f s0)) as [[[response' | errors']|e'] s1'];
    cbn [fst snd] in Hfst, Hcache, Hsnd; try discriminate.
  - injection Hfst as ->. now split.
  - injection Hfst as ->. rewrite (Hsnd errors eq_refl), fallback_commutes.
    destruct (monthly_fallback s1) as [[[fallback|]|e] s2]; cbn [fst snd]; auto.
  - injection Hfst as ->. now split.
Qed.

End SnapshotFaultFrame.

(** ** The adapter of the second silver route *)

Lemma SilverFx_fetchFcsApi_total W : total (SilverFx.fetchFcsApi W).
Proof. unfold SilverFx.fetchFcsApi. repeat total_step. Qed.

Lemma SilverFx_fetchFcsApi_commutes W f `{!NetFrame f} :
  commutes f (SilverFx.fetchFcsApi W).
Proof. unfold SilverFx.fetchFcsApi. frame. Qed.

Lemma SilverFx_fetchFcsApi_keeps {X : Type} (g : State -> X)
    `{!WireKept g} `{!ConsoleKept g} W :
  keeps g (SilverFx.fetchFcsApi W).
Proof. unfold SilverFx.fetchFcsApi. repeat keeps_step. Qed.

Lemma SilverFx_fetchFcsApi_payload W :
  returns (derived_payload "fcsapi") (SilverFx.fetchFcsApi W).
Proof.
  unfold SilverFx.fetchFcsApi. repeat returns_step; try (intros p [=]; fail).
  all: intros p [= <-]; now cbn.
Qed.

(** ** The three price routes *)

Lemma identifies_goldapi o :
  goldapi_payload o -> forall p, o = Some p -> identifies "goldapi.io" (provider p).
Proof. intros H p Hp. now destruct (H p Hp). Qed.

Lemma identifies_derived name o :
  String.eqb name "goldapi.io" = false ->
  derived_payload name o -> forall p, o = Some p -> identifies name (provider p).
Proof.
  intros Hname H p Hp. unfold identifies. rewrite Hname. now destruct (H p Hp).
Qed.

Lemma returns_weaken {A : Type} (P Q : A -> Prop) (m : M A) :
  (forall a, P a -> Q a) -> returns P m -> returns Q m.
Proof. intros HPQ Hm s a s' E. eauto. Qed.

Lemma Gold_tags W : Forall tags_its_payloads (Gold.providers W).
Proof.
  repeat constructor; unfold tags_its_payloads; cbn [fst snd].
  - eapply returns_weaken; [intros o; apply identifies_goldapi | apply fetchGoldApiIo_payload].
  - eapply returns_weaken; [intros o; now apply identifies_derived | apply fetchMetalsApi_payload].
  - eapply returns_weaken; [intros o; now apply identifies_derived | apply fetchFcsApi_payload].
  - eapply returns_weaken; [|apply fetchGoldPriceOrg_payload].
    intros o [Ho _]. now apply identifies_derived.
Qed.

Lemma Silver_tags W : Forall tags_its_payloads (Silver.providers W).
Proof.
  repeat constructor; unfold tags_its_payloads; cbn [fst snd].
  - eapply returns_weaken; [intros o; apply identifies_goldapi | apply fetchGoldApiIo_payload].
  - eapply returns_weaken; [intros o; now apply identifies_derived | apply fetchMetalsApi_payload].
  - eapply returns_weaken; [intros o; now apply identifies_derived | apply fetchFcsApi_payload].
Qed.

Lemma SilverFx_tags W : Forall tags_its_payloads (SilverFx.providers W).
Proof.
  repeat constructor; unfold tags_its_payloads; cbn [fst snd].
  - eapply returns_weaken; [intros o; apply identifies_goldapi | apply fetchGoldApiIo_payload].
  - eapply returns_weaken; [intros o; now apply identifies_derived | apply fetchMetalsApi_payload].
  - eapply returns_weaken; [intros o; now apply identifies_derived | apply SilverFx_fetchFcsApi_payload].
Qed.


Lemma skipped_exhausted thrown_line ps s s' :
  skipped ps s s' ->
  exhausted thrown_line ps s (map no_data (map fst ps)) s'.
Proof.
  induction 1; cbn [map fst]; [constructor|].
  eapply exhausted_none; eassumption.
Qed.

Section PriceRouteRuns.

Variable cacheKey : string.
Variable providers : list (string * M (option Payload)).
Variable snapshot_write : Payload -> M unit.
Variable monthly_fallback : M (option props).
Variable thrown_line : string -> option string.
Variable failure_line : string.
Variable failure_error : string.

Let handler := GET_with cacheKey providers snapshot_write monthly_fallback
                 thrown_line failure_line failure_error.

Hypothesis write_total : forall p, total (snapshot_write p).

(** A live success: the response is the first successful provider's. *)
Lemma GET_with_first_success request s s0 pre name fn post s1 p s2 :
  providers = (pre ++ (name, fn) :: post)%list ->
  read_cache cacheKey (wants_debug request) s = (Normal None, s0) ->
  skipped pre s0 s1 ->
  fn s1 = (Normal (Some p), s2) ->
  handler request s
  = (Normal (live_response (wants_grams request) p),
     snd (snapshot_write p
            (after_cache_write cacheKey (wants_debug request) p s2))).
Proof.
  intros -> Hcache Hpre Hfn. unfold handler. rewrite GET_with_run. cbv zeta.
  rewrite Hcache.
  destruct (write_total p (after_cache_write cacheKey (wants_debug request) p s2))
    as ([] & s3 & Hw).
  rewrite (try_providers_first_success _ _ _ _ _ _ _ _ _ _ _ _ _ _ _
             (skipped_exhausted thrown_line _ _ _ Hpre) Hfn Hw).
  now rewrite Hw.
Qed.

(** Total failure: no provider returns a payload and the snapshot has
    nothing. *)
Lemma GET_with_total_failure request s s0 s1 s2 :
  read_cache cacheKey (wants_debug request) s = (Normal None, s0) ->
  skipped providers s0 s1 ->
  monthly_fallback s1 = (Normal None, s2) ->
  handler request s
  = (Normal (failure_response failure_error (wants_debug request)
               (if wants_debug request
                then map no_data (map fst providers) else [])),
     set_console (console s2 ++ [failure_line])%list s2).
Proof.
  intros Hcache Hps Hfb. unfold handler. rewrite GET_with_run. cbv zeta.
  rewrite Hcache.
  rewrite (try_providers_exhausted _ _ _ _ _ _ _ _ _
             (skipped_exhausted thrown_line _ _ _ Hps)).
  rewrite Hfb. now destruct (wants_debug request).
Qed.

(** Snapshot fallback: no provider returns a payload and the snapshot has a
    record. *)
Lemma GET_with_fallback request s s0 s1 fallback s2 :
  read_cache cacheKey (wants_debug request) s = (Normal None, s0) ->
  skipped providers s0 s1 ->
  monthly_fallback s1 = (Normal (Some fallback), s2) ->
  handler request s
  = (Normal (fallback_response (wants_grams request) fallback), s2).
Proof.
  intros Hcache Hps Hfb. unfold handler. rewrite GET_with_run. cbv zeta.
  rewrite Hcache.
  rewrite (try_providers_exhausted _ _ _ _ _ _ _ _ _
             (skipped_exhausted thrown_line _ _ _ Hps)).
  now rewrite Hfb.
Qed.

End PriceRouteRuns.



Lemma live_response_cached grams p :
  field (live_response grams p) "cached" = Bool false.
Proof. reflexivity. Qed.

Lemma live_response_status grams p :
  response_status (live_response grams p) = 200.
Proof. reflexivity. Qed.


Lemma gold_route_facts W : RouteFacts W (gold_route W).
Proof.
  split; cbn [gold_route cache_key provider_list snapshot_path snapshot_write
              snapshot_read failure_text handler].
  - now eexists.
  - now eexists _, _.
  - intros p. apply updateMonthlyPriceFile_total.
  - apply getMonthlyFallback_total.
  - apply Gold_tags.
  - cbn. intuition.
  - intros f Hf. repeat constructor; cbn [snd].
    + now apply fetchGoldApiIo_commutes.
    + now apply fetchMetalsApi_commutes.
    + now apply fetchFcsApi_commutes.
    + now apply fetchGoldPriceOrg_commutes.
  - intros f Hn Hf. now apply getMonthlyFallback_commutes.
  - intros f p Hn Hf Hd. now apply updateMonthlyPriceFile_commutes.
  - intros X g p Hc Hf. now apply updateMonthlyPriceFile_keeps.
  - intros X g Hc. now apply getMonthlyFallback_keeps.
  - intros X g Hw Hc. repeat constructor; cbn [snd].
    + now apply fetchGoldApiIo_keeps.
    + now apply fetchMetalsApi_keeps.
    + now apply fetchFcsApi_keeps.
    + now apply fetchGoldPriceOrg_keeps.
  - repeat constructor; cbn [snd].
    + apply fetchGoldApiIo_total.
    + apply fetchMetalsApi_total.
    + apply fetchFcsApi_total.
    + apply fetchGoldPriceOrg_total.
Qed.

Lemma silver_route_facts W : RouteFacts W (silver_route W).
Proof.
  split; cbn [silver_route cache_key provider_list snapshot_path snapshot_write
              snapshot_read failure_text handler].
  - now eexists.
  - now eexists _, _.
  - intros p. apply updateMonthlyPriceFile_total.
  - apply getMonthlyFallback_total.
  - apply Silver_tags.
  - cbn. intuition.
  - intros f Hf. repeat constructor; cbn [snd].
    + now apply fetchGoldApiIo_commutes.
    + now apply fetchMetalsApi_commutes.
    + now apply fetchFcsApi_commutes.
  - intros f Hn Hf. now apply getMonthlyFallback_commutes.
  - intros f p Hn Hf Hd. now apply updateMonthlyPriceFile_commutes.
  - intros X g p Hc Hf. now apply updateMonthlyPriceFile_keeps.
  - intros X g Hc. now apply getMonthlyFallback_keeps.
  - intros X g Hw Hc. repeat constructor; cbn [snd].
    + now apply fetchGoldApiIo_keeps.
    + now apply fetchMetalsApi_keeps.
    + now apply fetchFcsApi_keeps.
  - repeat constructor; cbn [snd].
    + apply fetchGoldApiIo_total.
    + apply fetchMetalsApi_total.
    + apply fetchFcsApi_total.
Qed.

Lemma silver_fx_route_facts W : RouteFacts W (silver_fx_route W).
Proof.
  split; cbn [silver_fx_route cache_key provider_list snapshot_path snapshot_write
              snapshot_read failure_text handler].
  - now eexists.
  - now eexists _, _.
  - intros p. apply total_ret.
  - apply getMonthlyFallback_total.
  - apply SilverFx_tags.
  - cbn. intuition.
  - intros f Hf. repeat constructor; cbn [snd].
    + now apply fetchGoldApiIo_commutes.
    + now apply fetchMetalsApi_commutes.
    + now apply SilverFx_fetchFcsApi_commutes.
  - intros f Hn Hf. now apply getMonthlyFallback_commutes.
  - intros f p Hn Hf Hd. apply commutes_ret.
  - intros X g p Hc Hf. apply keeps_ret.
  - intros X g Hc. now apply getMonthlyFallback_keeps.
  - intros X g Hw Hc. repeat constructor; cbn [snd].
    + now apply fetchGoldApiIo_keeps.
    + now apply fetchMetalsApi_keeps.
    + now apply SilverFx_fetchFcsApi_keeps.
  - repeat constructor; cbn [snd].
    + apply fetchGoldApiIo_total.
    + apply fetchMetalsApi_total.
    + apply SilverFx_fetchFcsApi_total.
Qed.

Lemma price_routes_facts W route :
  In route (price_routes W) -> RouteFacts W route.
Proof.
  intros [<- | [<- | [<- | []]]];
    [apply gold_route_facts | apply silver_route_facts | apply silver_fx_route_facts].
Qed.



(** ** Where an answer comes from *)

#[global] Instance WireKept_pair {X Y : Type} (g1 : State -> X) (g2 : State -> Y)
    `{!WireKept g1} `{!WireKept g2} : WireKept (fun s => (g1 s, g2 s)).
Proof. split; intros; now rewrite ?kept_set_clock, ?kept_set_requests. Qed.
#[global] Instance ConsoleKept_pair {X Y : Type} (g1 : State -> X) (g2 : State -> Y)
    `{!ConsoleKept g1} `{!ConsoleKept g2} : ConsoleKept (fun s => (g1 s, g2 s)).
Proof. split; intros; now rewrite !kept_set_console. Qed.

(** The outcomes of the cache read of a handler: a fresh entry, or nothing,
    with the files as they were and no entry that was not there. *)
Lemma read_cache_cases key debug s hit s0 :
  read_cache key debug s = (Normal hit, s0) ->
  match hit with
  | Some h =>
      debug = false /\ s0 = s
      /\ exists entry,
          priceCache s !! key = Some entry
          /\ clock s - ts entry <= CACHE_TTL_MS
          /\ h = with_cached (data entry) true
  | None =>
      files s0 = files s
      /\ forall k entry,
          priceCache s0 !! k = Some entry -> priceCache s !! k = Some entry
  end.
Proof.
  unfold read_cache. destruct debug.
  - intros [= <- <-]. auto.
  - destruct (getCachedPrice_cases key s)
      as [[_ E] | [(entry & Hin & Hage & E) | (entry & _ & _ & E)]];
      rewrite E; intros [= <- <-].
    + auto.
    + split; [reflexivity|]. split; [reflexivity|]. now exists entry.
    + split; [reflexivity|]. intros k e. cbn.
      destruct (decide (k = key)) as [->|Hne].
      * now rewrite lookup_delete_eq.
      * now rewrite lookup_delete_ne by congruence.
Qed.

Section PriceRouteOrigin.

Context {X : Type} (g : State -> X) `{!ConsoleKept g}.
Variable cacheKey : string.
Variable providers : list (string * M (option Payload)).
Variable snapshot_write : Payload -> M unit.
Variable monthly_fallback : M (option props).
Variable thrown_line : string -> option string.
Variable failure_line : string.
Variable failure_error : string.

Let loop := try_providers cacheKey snapshot_write thrown_line.
Let handler := GET_with cacheKey providers snapshot_write monthly_fallback
                 thrown_line failure_line failure_error.

Hypothesis write_total : forall p, total (snapshot_write p).

(** What the loop hands back is the answer built from the payload of one of
    its providers, reached after providers that left [g] alone; or the loop
    ran out and left [g] alone. *)
Lemma try_providers_origin debug grams ps errors s r s' :
  Forall (fun nf => keeps g (snd nf)) ps ->
  loop debug grams ps errors s = (Normal r, s') ->
  match r with
  | inl response =>
      exists name fn s1 s2 p,
        In (name, fn) ps
        /\ g s1 = g s
        /\ fn s1 = (Normal (Some p), s2)
        /\ response = live_response grams p
        /\ s' = snd (snapshot_write p (after_cache_write cacheKey debug p s2))
  | inr _ => g s' = g s
  end.
Proof.
  intros Hps. revert errors s.
  induction Hps as [|[name fn] rest Hfn _ IH]; intros errors s Hrun.
  - unfold loop in Hrun. cbn in Hrun. now inversion Hrun.
  - cbn [snd] in Hfn. pose proof (Hfn s) as Hg.
    destruct (fn s) as [[[p|]|e] s1] eqn:Es; cbn [snd] in Hg.
    + destruct (write_total p (after_cache_write cacheKey debug p s1))
        as ([] & s3 & Ew).
      pose proof (eq_trans
                    (eq_sym (try_providers_step_some cacheKey snapshot_write
                               thrown_line debug grams name fn rest errors s p s1 s3
                               Es Ew)) Hrun) as Hstep.
      inversion Hstep; subst. exists name, fn, s, s1, p.
      split; [now left|]. split; [reflexivity|]. split; [exact Es|].
      split; [reflexivity|]. now rewrite Ew.
    + pose proof (eq_trans
                    (eq_sym (try_providers_step_none cacheKey snapshot_write
                               thrown_line debug grams name fn rest errors s s1 Es))
                    Hrun) as Hstep.
      clear Hrun. apply IH in Hstep. rename Hstep into Hrun. destruct r as [response|errors'].
      * destruct Hrun as (n & f & sa & sb & p & Hin & Hsa & Hf & Hr & Hs').
        exists n, f, sa, sb, p. split; [now right|].
        split; [congruence|]. auto.
      * congruence.
    + pose proof (eq_trans
                    (eq_sym (try_providers_step_thrown cacheKey snapshot_write
                               thrown_line debug grams name fn rest errors s e s1 Es))
                    Hrun) as Hstep.
      clear Hrun. apply IH in Hstep. rename Hstep into Hrun.
      assert (g (log_thrown thrown_line name s1) = g s) as Hlog.
      { unfold log_thrown. destruct (thrown_line name); [|exact Hg].
        now rewrite kept_set_console. }
      destruct r as [response|errors'].
      * destruct Hrun as (n & f & sa & sb & p & Hin & Hsa & Hf & Hr & Hs').
        exists n, f, sa, sb, p. split; [now right|].
        split; [congruence|]. auto.
      * congruence.
Qed.

(** The four origins of an answer of the handler: the cache; a provider's
    payload; the snapshot; nothing. *)
Lemma GET_with_origin request s response s' :
  Forall (fun nf => keeps g (snd nf)) providers ->
  handler request s = (Normal response, s') ->
  exists hit s0,
    read_cache cacheKey (wants_debug request) s = (Normal hit, s0)
    /\ match hit with
       | Some h => response = cached_response (wants_grams request) h /\ s' = s0
       | None =>
           (exists name fn s1 s2 p,
               In (name, fn) providers
               /\ g s1 = g s0
               /\ fn s1 = (Normal (Some p), s2)
               /\ response = live_response (wants_grams request) p
               /\ s' = snd (snapshot_write p
                              (after_cache_write cacheKey (wants_debug request) p s2)))
           \/ (exists s1 fallback,
                  g s1 = g s0
                  /\ monthly_fallback s1 = (Normal (Some fallback), s')
                  /\ response = fallback_response (wants_grams request) fallback)
           \/ (exists s1 s2 errors,
                  g s1 = g s0
                  /\ monthly_fallback s1 = (Normal None, s2)
                  /\ response
                     = failure_response failure_error (wants_debug request) errors
                  /\ s' = set_console (console s2 ++ [failure_line])%list s2)
       end.
Proof.
  intros Hps Hrun. unfold handler in Hrun. rewrite GET_with_run in Hrun.
  cbv zeta in Hrun.
  destruct (read_cache cacheKey (wants_debug request) s) as [[[h|]|e] s0];
    [| |discriminate].
  - injection Hrun as <- <-. exists (Some h), s0. auto.
  - exists None, s0. split; [reflexivity|].
    destruct (try_providers cacheKey snapshot_write thrown_line
                (wants_debug request) (wants_grams request) providers [] s0)
      as [[[live|errors]|e] s1] eqn:Eloop; [| |discriminate].
    + injection Hrun as <- <-. left.
      exact (try_providers_origin _ _ _ _ _ _ _ Hps Eloop).
    + pose proof (try_providers_origin _ _ _ _ _ _ _ Hps Eloop) as Hg.
      cbn in Hg. right.
      destruct (monthly_fallback s1) as [[[fallback|]|e] s2] eqn:Efb;
        [| |discriminate]; injection Hrun as <- <-.
      * left. exists s1, fallback. auto.
      * right. exists s1, s2, errors. auto.
Qed.

End PriceRouteOrigin.

(** The origin of an answer of a price route, with the cache and the files
    at each stage. *)
Lemma route_answer_origin W route request s response s' :
  In route (price_routes W) ->
  handler route request s = (Normal response, s') ->
  exists hit s0,
    read_cache (cache_key route) (wants_debug request) s = (Normal hit, s0)
    /\ match hit with
       | Some h => response = cached_response (wants_grams request) h /\ s' = s0
       | None =>
           (exists name fn s1 s2 p,
               In (name, fn) (provider_list route)
               /\ fn s1 = (Normal (Some p), s2)
               /\ priceCache s2 = priceCache s0
               /\ response = live_response (wants_grams request) p
               /\ priceCache s'
                  = priceCache (after_cache_write (cache_key route)
                                  (wants_debug request) p s2))
           \/ (exists s1 fallback,
                  files s1 = files s0
                  /\ snapshot_read route s1 = (Normal (Some fallback), s')
                  /\ priceCache s' = priceCache s0
                  /\ response = fallback_response (wants_grams request) fallback)
           \/ (exists errors,
                  response
                  = failure_response (failure_text route) (wants_debug request) errors
                  /\ priceCache s' = priceCache s0)
       end.
Proof.
  intros Hroute Hrun.
  pose proof (price_routes_facts W route Hroute) as F.
  destruct (facts_handler _ _ F) as (thrown_line & failure_line & E).
  rewrite E in Hrun.
  pose proof (facts_providers_keep _ _ F _ (fun s => (priceCache s, files s)) _ _)
    as Hkeep.
  destruct (GET_with_origin (fun s => (priceCache s, files s)) _ _ _ _ _ _ _
              (facts_write_total _ _ F) request s response s' Hkeep Hrun)
    as (hit & s0 & Hcache & Horigin).
  exists hit, s0. split; [exact Hcache|].
  destruct hit as [h|]; [exact Horigin|].
  destruct Horigin as [(name & fn & s1 & s2 & p & Hin & Hg & Hfn & -> & ->)
                      | [(s1 & fallback & Hg & Hfb & ->)
                        | (s1 & s2 & errors & Hg & Hfb & -> & ->)]];
    injection Hg as Hc Hf.
  - left. exists name, fn, s1, s2, p. split; [exact Hin|]. split; [exact Hfn|].
    split.
    { pose proof (proj1 (List.Forall_forall _ _) Hkeep _ Hin s1) as K.
      cbn [snd] in K. rewrite Hfn in K. cbn [snd] in K.
      injection K as K _. congruence. }
    split; [reflexivity|].
    apply (facts_write_keeps _ _ F _ priceCache p _ _).
  - right; left. exists s1, fallback. split; [exact Hf|]. split; [exact Hfb|].
    split; [|reflexivity].
    pose proof (facts_read_keeps _ _ F _ priceCache _ s1) as K.
    rewrite Hfb in K. cbn [snd] in K. congruence.
  - right; right. exists errors. split; [reflexivity|].
    pose proof (facts_read_keeps _ _ F _ priceCache _ s1) as K.
    rewrite Hfb in K. cbn [snd] in K. cbn. congruence.
Qed.

(** ** What the responses carry *)

Ltac distinct_keys :=
  apply (bool_decide_unpack _); vm_compute; exact I.

Lemma cached_response_fields grams p :
  response_status (cached_response grams (with_cached p true)) = 200
  /\ field (cached_response grams (with_cached p true)) "cached" = Bool true
  /\ field (cached_response grams (with_cached p true)) "provider" = Str (provider p)
  /\ field (cached_response grams (with_cached p true)) "currency" = Str (currency p)
  /\ field (cached_response grams (with_cached p true)) "price_oz"
     = Js.json_number (price_oz p)
  /\ field (cached_response grams (with_cached p true)) "price_gram_24k"
     = Js.json_number (price_gram_24k p).
Proof. destruct p as [oz gram cur tag [t|] c]; repeat split. Qed.

Lemma cached_response_price grams hit :
  field (cached_response grams hit) "price"
  = field (cached_response grams hit)
      (if grams then "price_gram_24k" else "price_oz").
Proof.
  destruct hit as [oz gram cur tag [t|] [c|]]; destruct grams; reflexivity.
Qed.

Lemma cached_response_cached grams hit :
  cached hit = Some true ->
  field (cached_response grams hit) "cached" = Bool true.
Proof.
  destruct hit as [oz gram cur tag [t|] [c|]]; cbn [cached]; intros [=]; subst;
    reflexivity.
Qed.

Lemma live_response_price grams p :
  field (live_response grams p) "price"
  = field (live_response grams p)
      (if grams then "price_gram_24k" else "price_oz").
Proof. destruct grams; reflexivity. Qed.

Lemma live_response_numbers grams p :
  field (live_response grams p) "price_oz" = Js.json_number (price_oz p)
  /\ field (live_response grams p) "price_gram_24k"
     = Js.json_number (price_gram_24k p).
Proof. split; reflexivity. Qed.

Lemma fallback_response_field grams fallback k :
  In k ["price_oz"; "price_gram_24k"; "currency"; "provider"] ->
  field (fallback_response grams fallback) k
  = match Js.own fallback k with
    | Some v => default Undefined (Js.jsonify v)
    | None => Undefined
    end.
Proof.
  intros Hk. unfold fallback_response.
  rewrite field_NextResponse_json by distinct_keys.
  cbn [In] in Hk. destruct Hk as [<- | [<- | [<- | [<- | []]]]];
    cbn [Js.own String.eqb Ascii.eqb Bool.eqb];
    match goal with |- context [Js.own fallback ?k] => now destruct (Js.own fallback k) end.
Qed.

Lemma fallback_response_price grams fallback :
  field (fallback_response grams fallback) "price"
  = field (fallback_response grams fallback)
      (if grams then "price_gram_24k" else "price_oz").
Proof.
  unfold fallback_response. rewrite !field_NextResponse_json by distinct_keys.
  destruct grams; reflexivity.
Qed.

Lemma fallback_response_cached grams fallback :
  field (fallback_response grams fallback) "cached" = Bool false.
Proof.
  unfold fallback_response. rewrite field_NextResponse_json by distinct_keys.
  reflexivity.
Qed.

Lemma fallback_response_status grams fallback :
  response_status (fallback_response grams fallback) = 200.
Proof. reflexivity. Qed.

Lemma jsonify_diagnostics (ds : list Diagnostic) :
  map (fun i => default Null (Js.jsonify i)) (map diagnostic_value ds)
  = map diagnostic_value ds.
Proof. induction ds as [|d ds IH]; cbn [map]; [reflexivity | now rewrite IH]. Qed.

Lemma failure_response_fields error_text debug errors :
  response_status (failure_response error_text debug errors) = 500
  /\ field (failure_response error_text debug errors) "error" = Str error_text
  /\ field (failure_response error_text debug errors) "debug"
     = if debug then Arr (map diagnostic_value errors) else Undefined.
Proof.
  destruct debug; cbn; rewrite ?jsonify_diagnostics; auto.
Qed.

(** C10. Every successful answer of a price route has a [price] equal to its
    [price_gram_24k] when the request has [grams=true] and to its [price_oz]
    otherwise, and these are the prices of what the answer was built from.
    An answer from the cache or from a provider carries three numbers, those
    of the payload (the fresh cache entry's, or the one a provider of the
    list returned): [price] is the payload's gram price with [grams=true]
    and its ounce price otherwise. An answer from the snapshot carries the
    properties of the record read, as [JSON.stringify] writes them: [price]
    is the record's [price_gram_24k] with [grams=true] and its [price_oz]
    otherwise. *)
Theorem price_follows_grams (W : World) (route : PriceRoute) :
  In route (price_routes W) ->
  forall request s response s',
    handler route request s = (Normal response, s') ->
    response_status response = 200 ->
    field response "price" = field response (asked_price request)
    /\ ((exists p,
            ((exists entry,
                 wants_debug request = false
                 /\ priceCache s !! cache_key route = Some entry
                 /\ clock s - ts entry <= 600 * 1000
                 /\ p = data entry)
             \/ (exists name fn s1 s2,
                    In (name, fn) (provider_list route)
                    /\ fn s1 = (Normal (Some p), s2)))
            /\ field response "price"
               = Js.json_number
                   (if wants_grams request then price_gram_24k p else price_oz p)
            /\ field response "price_oz" = Js.json_number (price_oz p)
            /\ field response "price_gram_24k" = Js.json_number (price_gram_24k p))
        \/ (exists s1 fallback,
               files s1 = files s
               /\ snapshot_read route s1 = (Normal (Some fallback), s')
               /\ field response "price" = served fallback (asked_price request)
               /\ field response "price_oz" = served fallback "price_oz"
               /\ field response "price_gram_24k" = served fallback "price_gram_24k"
               /\ forall x,
                   Js.own fallback (asked_price request) = Some (Num x) ->
                   field response "price" = Js.json_number x)).
Proof.
  intros Hroute request s response s' Hrun Hok.
  destruct (route_answer_origin W route request s response s' Hroute Hrun)
    as (hit & s0 & Hcache & Horigin).
  pose proof (read_cache_cases _ _ _ _ _ Hcache) as Hread.
  unfold asked_price.
  destruct hit as [h|].
  - destruct Horigin as [-> ->].
    destruct Hread as (Hdebug & _ & entry & Hentry & Hage & ->).
    destruct (cached_response_fields (wants_grams request) (data entry))
      as (_ & _ & _ & _ & Hoz & Hgram).
    assert (field (cached_response (wants_grams request)
                     (with_cached (data entry) true)) "price"
            = Js.json_number (if wants_grams request
                              then price_gram_24k (data entry)
                              else price_oz (data entry))) as Hprice.
    { rewrite cached_response_price. destruct (wants_grams request); assumption. }
    split.
    + rewrite Hprice. destruct (wants_grams request); congruence.
    + left. exists (data entry). split; [|auto].
      left. exists entry. auto.
  - destruct Hread as [Hfiles _].
    destruct Horigin as [(name & fn & s1 & s2 & p & Hin & Hfn & _ & -> & _)
                        | [(s1 & fallback & Hf & Hfb & _ & ->) | (errors & -> & _)]].
    + split; [apply live_response_price|].
      left. exists p. split; [right; now exists name, fn, s1, s2|].
      split; [destruct (wants_grams request); reflexivity|].
      apply live_response_numbers.
    + split; [apply fallback_response_price|].
      right. exists s1, fallback. split; [congruence|]. split; [exact Hfb|].
      assert (forall k, In k ["price_oz"; "price_gram_24k"] ->
                        field (fallback_response (wants_grams request) fallback) k
                        = served fallback k) as Hk.
      { intros k Hin. apply fallback_response_field. cbn in *. tauto. }
      assert (field (fallback_response (wants_grams request) fallback) "price"
              = served fallback
                  (if wants_grams request then "price_gram_24k" else "price_oz"))
        as Hprice.
      { rewrite fallback_response_price.
        destruct (wants_grams request); apply Hk; cbn; tauto. }
      split; [exact Hprice|].
      split; [apply Hk; cbn; tauto|]. split; [apply Hk; cbn; tauto|].
      intros x Hx. rewrite Hprice. unfold served. now rewrite Hx.
    + discriminate.
Qed.

Lemma price_follows_grams_witness :
  (exists response s',
      Gold.GET metals_world grams_request boot = (Normal response, s')
      /\ field response "price" = field response "price_gram_24k"
      /\ field response "price" = Num (5000 / 31.1034768)
      /\ field response "price_oz" = Num 5000)
  /\ (exists response,
         fst (Gold.GET metals_world plain_request
                (snd (Gold.GET metals_world grams_request boot)))
         = Normal response
         /\ field response "cached" = Bool true
         /\ field response "price" = Num 5000)
  /\ (exists response,
         fst (Gold.GET offline_world grams_request past_snapshot) = Normal response
         /\ field response "provider" = Str "monthly-fallback"
         /\ field response "price" = Num 93.2).
Proof.
  split; [|split].
  - pose (r := Gold.GET metals_world grams_request boot).
    pose (response := match fst r with
                      | Normal x => x
                      | Throw _ => {| response_status := 0; response_body := Null |}
                      end).
    exists response, (snd r).
    assert (Gold.GET metals_world grams_request boot = (Normal response, snd r))
      as Hrun by (vm_compute; reflexivity).
    split; [exact Hrun|]. split.
    + apply (proj1 (price_follows_grams metals_world (gold_route metals_world)
                      (or_introl eq_refl) grams_request boot response (snd r) Hrun
                      ltac:(vm_compute; reflexivity))).
    + split; vm_compute; reflexivity.
  - eexists. split; [vm_compute; reflexivity|]. split; vm_compute; reflexivity.
  - eexists. split; [vm_compute; reflexivity|]. split; vm_compute; reflexivity.
Defined.

(** ** Total failure *)

Lemma skipped_keeps {X : Type} (g : State -> X) ps s s' :
  Forall (fun nf => keeps g (snd nf)) ps ->
  skipped ps s s' -> g s' = g s.
Proof.
  intros Hps Hskip. induction Hskip as [|name fn rest s s1 s' Hfn _ IH];
    [reflexivity|].
  apply Forall_cons in Hps as [Hk Hrest]. rewrite (IH Hrest).
  pose proof (Hk s) as Hs. cbn [snd] in Hs. rewrite Hfn in Hs. exact Hs.
Qed.

Lemma read_cache_keeps {X : Type} (g : State -> X) `{!CacheKept g} key debug :
  keeps g (read_cache key debug).
Proof.
  destruct debug; [apply keeps_ret | now apply keeps_getCachedPrice].
Qed.

(** The files when the snapshot is consulted are the files at the start of
    the request. *)
Lemma files_at_fallback W route request s a s0 s1 :
  In route (price_routes W) ->
  read_cache (cache_key route) (wants_debug request) s = (a, s0) ->
  skipped (provider_list route) s0 s1 ->
  files s1 = files s.
Proof.
  intros Hroute Hcache Hskip.
  pose proof (price_routes_facts W route Hroute) as F.
  rewrite (skipped_keeps files _ _ _ (facts_providers_keep _ _ F _ files _ _) Hskip).
  pose proof (read_cache_keeps files (cache_key route) (wants_debug request) s) as K.
  now rewrite Hcache in K.
Qed.

Lemma getMonthlyFallback_nothing W path line s :
  files s !! path = None
  \/ files s !! path = Some NotJson
  \/ files s !! path = Some (Json (Obj [])) ->
  exists s', getMonthlyFallback W path line s = (Normal None, s').
Proof.
  intros [H | [H | H]].
  - eexists. apply getMonthlyFallback_unreadable. now left.
  - eexists. apply getMonthlyFallback_unreadable. now right.
  - eexists. eapply getMonthlyFallback_no_key; [exact H | reflexivity..].
Qed.

(** C7. A price route always answers (it never throws). When every provider
    returns nothing and there is no snapshot record (no file, a file that
    does not parse, or an empty mapping), the answer is a failure: status
    500 and an [error] text. With [debug=1] the answer has under [debug] one
    record for each provider of the list, in order, whose [provider] is the
    provider's name and whose [message] is [No data in response]; without
    it the answer has no [debug] at all. *)
Theorem total_failure (W : World) (route : PriceRoute) :
  In route (price_routes W) ->
  (forall request s, exists response s',
      handler route request s = (Normal response, s'))
  /\ forall request s s0 s1,
      read_cache (cache_key route) (wants_debug request) s = (Normal None, s0) ->
      skipped (provider_list route) s0 s1 ->
      files s !! snapshot_path route = None
      \/ files s !! snapshot_path route = Some NotJson
      \/ files s !! snapshot_path route = Some (Json (Obj [])) ->
      exists response s',
        handler route request s = (Normal response, s')
        /\ response_status response = 500
        /\ field response "error" = Str (failure_text route)
        /\ field response "debug"
           = if wants_debug request
             then Arr (map (fun name =>
                              Obj [("provider", Str name);
                                   ("message", Str "No data in response")])
                         (map fst (provider_list route)))
             else Undefined.
Proof.
  intros Hroute.
  pose proof (price_routes_facts W route Hroute) as F.
  destruct (facts_handler _ _ F) as (thrown_line & failure_line & E).
  destruct (facts_read_is _ _ F) as (line & Eread).
  split.
  - intros request s. rewrite E. apply GET_with_total. apply (facts_read_total _ _ F).
  - intros request s s0 s1 Hcache Hskip Hfile.
    rewrite <- (files_at_fallback W route request s _ s0 s1 Hroute Hcache Hskip) in Hfile.
    destruct (getMonthlyFallback_nothing W _ line s1 Hfile) as (s2 & Hfb).
    rewrite <- Eread in Hfb.
    eexists _, _. split.
    + rewrite E. eapply GET_with_total_failure; eassumption.
    + destruct (failure_response_fields (failure_text route) (wants_debug request)
                  (if wants_debug request
                   then map no_data (map fst (provider_list route)) else []))
        as (Hs & He & Hd).
      split; [exact Hs|]. split; [exact He|].
      rewrite Hd. destruct (wants_debug request); [|reflexivity].
      now rewrite map_map.
Qed.

Lemma total_failure_witness :
  exists response s',
    Gold.GET offline_world debug_request boot = (Normal response, s')
    /\ response_status response = 500
    /\ field response "debug"
       = Arr [Obj [("provider", Str "goldapi.io");
                   ("message", Str "No data in response")];
              Obj [("provider", Str "metals-api");
                   ("message", Str "No data in response")];
              Obj [("provider", Str "fcsapi");
                   ("message", Str "No data in response")];
              Obj [("provider", Str "goldprice.org");
                   ("message", Str "No data in response")]].
Proof.
  pose (s1 := snd (Gold.fetchGoldPriceOrg offline_world boot)).
  destruct (proj2 (total_failure offline_world (gold_route offline_world)
                     (or_introl eq_refl))
              debug_request boot boot s1)
    as (response & s' & Hrun & Hstatus & _ & Hdebug).
  - reflexivity.
  - repeat (eapply skipped_cons; [vm_compute; reflexivity|]). constructor.
  - left. reflexivity.
  - exists response, s'. auto.
Defined.

(** ** Snapshot write faults *)

Lemma writing_routes_write W route :
  In route (writing_routes W) -> writes_snapshot W route.
Proof. intros [<- | [<- | []]]; now eexists _, _. Qed.

Lemma writing_routes_price W route :
  In route (writing_routes W) -> In route (price_routes W).
Proof. cbn. intuition. Qed.

(** C6. The snapshot write never throws and touches neither the cache, the
    clock nor the request log; the answer of a price route and the cache it
    leaves are the same whether the disk can be written or not; on a disk
    that cannot be written the fault is caught inside the write, which
    returns normally after a console line and changes no file; and when the
    file cannot be loaded (no file, or no JSON) the write starts from an
    empty mapping, after a console line. *)
Theorem snapshot_write_faults (W : World) (route : PriceRoute) :
  In route (price_routes W) ->
  (forall p s, exists s',
      snapshot_write route p s = (Normal tt, s')
      /\ priceCache s' = priceCache s
      /\ clock s' = clock s
      /\ requests s' = requests s)
  /\ (forall request s,
         fst (handler route request (set_read_only_disk true s))
         = fst (handler route request (set_read_only_disk false s))
         /\ priceCache (snd (handler route request (set_read_only_disk true s)))
            = priceCache (snd (handler route request (set_read_only_disk false s))))
  /\ (In route (writing_routes W) ->
      forall p s,
        read_only_disk s = true ->
        exists lines line,
          snapshot_write route p s
          = (Normal tt, set_console (console s ++ lines ++ [line])%list s))
  /\ (In route (writing_routes W) ->
      forall p s,
        read_only_disk s = false ->
        files s !! snapshot_path route = None
        \/ files s !! snapshot_path route = Some NotJson ->
        exists line,
          snapshot_write route p s
          = (Normal tt,
             set_files
               (<[snapshot_path route :=
                    Json (Obj (Js.jsonify_props
                                 [(month_key W (clock s),
                                   monthly_record W p (clock s))]))]> (files s))
               (set_console (console s ++ [line])%list s))).
Proof.
  intros Hroute. pose proof (price_routes_facts W route Hroute) as F.
  split; [|split; [|split]].
  - intros p s. destruct (facts_write_total _ _ F p s) as ([] & s' & E).
    exists s'. split; [exact E|].
    pose proof (facts_write_keeps _ _ F _ priceCache p _ _ s) as K1.
    pose proof (facts_write_keeps _ _ F _ clock p _ _ s) as K2.
    pose proof (facts_write_keeps _ _ F _ requests p _ _ s) as K3.
    rewrite E in K1, K2, K3. auto.
  - intros request s.
    destruct (facts_handler _ _ F) as (thrown_line & failure_line & ->).
    assert (forall b,
               fst (GET_with (cache_key route) (provider_list route)
                      (snapshot_write route) (snapshot_read route) thrown_line
                      failure_line (failure_text route) request
                      (set_read_only_disk b s))
               = fst (GET_with (cache_key route) (provider_list route)
                        (snapshot_write route) (snapshot_read route) thrown_line
                        failure_line (failure_text route) request s)
               /\ priceCache
                    (snd (GET_with (cache_key route) (provider_list route)
                            (snapshot_write route) (snapshot_read route) thrown_line
                            failure_line (failure_text route) request
                            (set_read_only_disk b s)))
                  = priceCache
                      (snd (GET_with (cache_key route) (provider_list route)
                              (snapshot_write route) (snapshot_read route) thrown_line
                              failure_line (failure_text route) request s))) as H.
    { intros b. apply GET_with_write_fault.
      - apply (facts_providers_commute _ _ F); typeclasses eauto.
      - apply (facts_read_commutes _ _ F); typeclasses eauto.
      - apply (facts_write_total _ _ F).
      - intros p. apply (facts_write_keeps _ _ F); typeclasses eauto. }
    destruct (H true) as [-> ->]. destruct (H false) as [-> ->]. auto.
  - intros Hw p s Hro.
    destruct (writing_routes_write W route Hw) as (l1 & l2 & ->).
    destruct (updateMonthlyPriceFile_write_fault W (snapshot_path route) l1 l2 s p Hro)
      as (lines & E).
    now exists lines, l2.
  - intros Hw p s Hrw Hfile.
    destruct (writing_routes_write W route Hw) as (l1 & l2 & ->).
    exists l1.
    rewrite (updateMonthlyPriceFile_written W (snapshot_path route) l1 l2 s p [] Hrw).
    + unfold load_lines. now destruct Hfile as [-> | ->].
    + unfold loaded_mapping. now destruct Hfile as [-> | ->].
Qed.

Lemma snapshot_write_faults_witness :
  fst (Gold.GET metals_world plain_request (set_read_only_disk true boot))
  = fst (Gold.GET metals_world plain_request (set_read_only_disk false boot))
  /\ files (snd (Gold.GET metals_world plain_request (set_read_only_disk true boot)))
     = ∅
  /\ files (snd (Gold.GET metals_world plain_request (set_read_only_disk false boot)))
     <> ∅.
Proof.
  split; [|split].
  - apply (proj1 (proj2 (snapshot_write_faults metals_world (gold_route metals_world)
                           (or_introl eq_refl)))).
  - vm_compute. reflexivity.
  - vm_compute. discriminate.
Defined.

(** ** Debug mode *)

Lemma set_priceCache_same s : set_priceCache (priceCache s) s = s.
Proof. now destruct s. Qed.

(** Against C5 as stated: after a live success in debug mode the cache has
    no entry for the instrument (without debug it has one). *)
Lemma debug_skips_cache_write :
  (exists response,
      fst (Gold.GET metals_world debug_request boot) = Normal response
      /\ response_status response = 200
      /\ field response "provider" = Str "metals-api"
      /\ field response "cached" = Bool false)
  /\ priceCache (snd (Gold.GET metals_world debug_request boot)) !! Gold.cacheKey
     = None
  /\ priceCache (snd (Gold.GET metals_world plain_request boot)) !! Gold.cacheKey
     <> None.
Proof.
  split; [|split].
  - eexists. split; [vm_compute; reflexivity|]. repeat split.
  - vm_compute. reflexivity.
  - vm_compute. discriminate.
Qed.

(** C5 (as amended). With [debug=1] a price route neither reads nor writes
    the cache: its answer does not depend on what the cache holds, and the
    cache after the request is the cache before it, also after a live
    success. The routes that write the snapshot still do so in debug mode:
    after a live success on a disk that can be written, the file holds the
    loaded mapping with the record of the payload under the current month. *)
Theorem debug_mode (W : World) (route : PriceRoute) :
  In route (price_routes W) ->
  forall request,
    wants_debug request = true ->
    (forall c s,
        fst (handler route request (set_priceCache c s))
        = fst (handler route request s)
        /\ priceCache (snd (handler route request (set_priceCache c s))) = c)
    /\ (forall s, priceCache (snd (handler route request s)) = priceCache s)
    /\ (In route (writing_routes W) ->
        forall s pre name fn post s1 p s2 mapping,
          provider_list route = (pre ++ (name, fn) :: post)%list ->
          skipped pre s s1 ->
          fn s1 = (Normal (Some p), s2) ->
          read_only_disk s2 = false ->
          loaded_mapping (snapshot_path route) s2 = Obj mapping ->
          exists s',
            handler route request s
            = (Normal (live_response (wants_grams request) p), s')
            /\ files s' !! snapshot_path route
               = Some (Json (Obj (Js.jsonify_props
                                    (Js.set_prop mapping (month_key W (clock s2))
                                       (monthly_record W p (clock s2))))))
            /\ priceCache s' = priceCache s).
Proof.
  intros Hroute request Hdebug.
  pose proof (price_routes_facts W route Hroute) as F.
  destruct (facts_handler _ _ F) as (thrown_line & failure_line & E).
  assert (forall c, commutes (set_priceCache c) (handler route request)) as Hc.
  { intros c. rewrite E. apply GET_with_commutes.
    - typeclasses eauto.
    - apply (facts_read_commutes _ _ F); typeclasses eauto.
    - rewrite Hdebug. discriminate.
    - apply (facts_providers_commute _ _ F); typeclasses eauto.
    - intros p. apply (facts_write_commutes _ _ F); typeclasses eauto. }
  assert (forall s, priceCache (snd (handler route request s)) = priceCache s) as Hk.
  { intros s. pose proof (Hc (priceCache s) s) as H.
    rewrite set_priceCache_same in H.
    apply (f_equal snd) in H. cbn [snd] in H. rewrite H at 1. reflexivity. }
  split; [|split].
  - intros c s. rewrite Hc. cbn [fst snd]. auto.
  - exact Hk.
  - intros Hw s pre name fn post s1 p s2 mapping Hps Hskip Hfn Hrw Hload.
    destruct (writing_routes_write W route Hw) as (l1 & l2 & Ew).
    assert (handler route request s
            = (Normal (live_response (wants_grams request) p),
               snd (snapshot_write route p s2))) as Hrun.
    { rewrite E.
      rewrite (GET_with_first_success _ _ _ _ _ _ _ (facts_write_total _ _ F)
                 request s s pre name fn post s1 p s2 Hps); auto.
      - now rewrite Hdebug.
      - now rewrite Hdebug. }
    eexists. split; [exact Hrun|]. split.
    + rewrite Ew.
      rewrite (updateMonthlyPriceFile_written W _ l1 l2 s2 p mapping Hrw Hload).
      cbn [snd files set_files]. apply lookup_insert_eq.
    + specialize (Hk s). now rewrite Hrun in Hk.
Qed.

Lemma debug_mode_witness :
  fst (Gold.GET metals_world debug_request
         (snd (Gold.GET metals_world plain_request boot)))
  = fst (Gold.GET metals_world debug_request
           (set_priceCache ∅ (snd (Gold.GET metals_world plain_request boot)))).
Proof.
  pose (warm := snd (Gold.GET metals_world plain_request boot)).
  assert (set_priceCache (priceCache warm) (set_priceCache ∅ warm) = warm) as Hwarm
    by (vm_compute; reflexivity).
  fold warm. rewrite <- Hwarm at 1.
  apply (proj1 (debug_mode metals_world (gold_route metals_world)
                  (or_introl eq_refl) debug_request eq_refl)).
Defined.

(** ** Snapshot read *)

Lemma getMonthlyFallback_tagged W path line :
  returns (fun o => forall fallback,
               o = Some fallback ->
               Js.own fallback "provider" = Some (Str "monthly-fallback"))
    (getMonthlyFallback W path line).
Proof.
  unfold getMonthlyFallback. repeat returns_step;
    try (intros fallback [=]; fail);
    intros fallback [= <-]; apply own_set_prop_eq.
Qed.

(** Against C2 as stated: the file holds only May and it is April; no stored
    key is less than the current month, so the claim has the read return
    nothing, and the read returns the record of May. *)
Lemma snapshot_read_takes_later_month :
  month_key offline_world (clock future_snapshot) = "2024-04"
  /\ fst (Gold.getMonthlyFallback offline_world future_snapshot)
     = Normal (Some (tagged_fallback may_record))
  /\ claimed_snapshot_read "2024-04" [("2024-05", may_record)] = None
  /\ (exists response,
         fst (Gold.GET offline_world plain_request future_snapshot) = Normal response
         /\ response_status response = 200
         /\ field response "provider" = Str "monthly-fallback"
         /\ field response "price_oz" = Num 3200).
Proof.
  split; [vm_compute; reflexivity|].
  split; [vm_compute; reflexivity|].
  split; [vm_compute; reflexivity|].
  eexists. split; [vm_compute; reflexivity|]. repeat split.
Qed.

(** C2 (as amended). The snapshot read returns the record stored under the
    current month key when that key holds one; otherwise the record under
    the greatest stored key, in the order of the sort, whether that key is
    earlier or later than the current month; it returns nothing when the
    mapping has no key. The record comes back with its provider rewritten to
    "monthly-fallback", and when the resolver falls back to it after the
    chain is exhausted the answer carries that tag and [cached: false]. *)
Theorem snapshot_read_latest (W : World) (route : PriceRoute) :
  In route (price_routes W) ->
  (forall s mapping,
      files s !! snapshot_path route = Some (Json (Obj mapping)) ->
      (forall record,
          Js.own mapping (month_key W (clock s)) = Some record ->
          Js.truthy record = true ->
          snapshot_read route s = (Normal (Some (tagged_fallback record)), s))
      /\ (Js.truthy (default Undefined (Js.own mapping (month_key W (clock s))))
          = false ->
          mapping <> [] ->
          exists latest record,
            In latest (map fst mapping)
            /\ (forall k, In k (map fst mapping) -> String.leb k latest = true)
            /\ Js.own mapping latest = Some record
            /\ snapshot_read route s
               = (Normal (Some (tagged_fallback record)), s))
      /\ (mapping = [] -> snapshot_read route s = (Normal None, s)))
  /\ (forall request s s0 s1 fallback s2,
         read_cache (cache_key route) (wants_debug request) s = (Normal None, s0) ->
         skipped (provider_list route) s0 s1 ->
         snapshot_read route s1 = (Normal (Some fallback), s2) ->
         handler route request s
         = (Normal (fallback_response (wants_grams request) fallback), s2)
         /\ response_status (fallback_response (wants_grams request) fallback) = 200
         /\ field (fallback_response (wants_grams request) fallback) "provider"
            = Str "monthly-fallback"
         /\ field (fallback_response (wants_grams request) fallback) "cached"
            = Bool false).
Proof.
  intros Hroute. pose proof (price_routes_facts W route Hroute) as F.
  destruct (facts_read_is _ _ F) as (line & Eread).
  destruct (facts_handler _ _ F) as (thrown_line & failure_line & E).
  split.
  - intros s mapping Hfile. rewrite Eread. split; [|split].
    + intros record Hown Htruthy.
      eapply getMonthlyFallback_current; [exact Hfile | | exact Htruthy].
      cbn [Js.get Js.member]. now rewrite Hown.
    + intros Hfalsy Hne.
      assert (map fst mapping <> []) as Hkeys by (now destruct mapping).
      destruct (latest_month_exists _ Hkeys) as (latest & rest & Hrev).
      destruct (latest_month _ _ _ Hrev) as [Hin Hmax].
      destruct (own_In _ _ Hin) as [record Hrecord].
      exists latest, record. repeat split; try assumption.
      eapply getMonthlyFallback_latest;
        [exact Hfile | reflexivity | exact Hfalsy | reflexivity | exact Hrev |].
      cbn [Js.get Js.member]. now rewrite Hrecord.
    + intros ->.
      eapply getMonthlyFallback_no_key; [exact Hfile | reflexivity..].
  - intros request s s0 s1 fallback s2 Hcache Hskip Hfb.
    split; [|split; [|split]].
    + rewrite E. eapply GET_with_fallback; eassumption.
    + reflexivity.
    + rewrite fallback_response_field by (cbn; intuition).
      rewrite Eread in Hfb.
      now rewrite (getMonthlyFallback_tagged W _ line _ _ _ Hfb fallback eq_refl).
    + apply fallback_response_cached.
Qed.

Lemma snapshot_read_latest_witness :
  exists latest record,
    In latest ["2024-01"; "2024-03"]
    /\ String.leb "2024-01" latest = true
    /\ String.leb "2024-03" latest = true
    /\ Gold.getMonthlyFallback offline_world past_snapshot
       = (Normal (Some (tagged_fallback record)), past_snapshot).
Proof.
  destruct (proj1 (proj2 (proj1 (snapshot_read_latest offline_world
                                   (gold_route offline_world) (or_introl eq_refl))
                            past_snapshot
                            [("2024-01", january_record); ("2024-03", march_record)]
                            eq_refl))
              eq_refl ltac:(discriminate))
    as (latest & record & Hin & Hmax & _ & Hread).
  exists latest, record. split; [exact Hin|].
  split; [apply Hmax; now left|]. split; [apply Hmax; right; now left|].
  exact Hread.
Defined.

(** ** Prices of a live resolution *)







(** ** The currency conversion of the second silver route *)

Lemma quoted_price_read (t : value) :
  Js.truthy (Js.opt (Js.opt t "active") "c") = true ->
  Js.get t "active" = Normal (Js.opt t "active")
  /\ Js.get (Js.opt t "active") "c" = Normal (Js.opt (Js.opt t "active") "c").
Proof.
  intros H. split.
  - destruct t; try reflexivity; discriminate.
  - destruct (Js.opt t "active"); try reflexivity; discriminate.
Qed.

(** Against C9 as stated: the quote is read (30 USD), the currency lookup
    answers with status 500, or is rejected, and the adapter returns no
    payload, where the claim has it return 30 * 1.4. *)
Lemma failed_lookup_fails_attempt :
  fst (SilverFx.fetchFcsApi (fx_world (json_reply 500 (Obj []))) boot) = Normal None
  /\ fst (SilverFx.fetchFcsApi (fx_world no_reply) boot) = Normal None
  /\ usd_quote (fx_world (json_reply 500 (Obj []))) silver_quote = Some 30%float.
Proof. repeat split; vm_compute; reflexivity. Qed.

Section FcsApiConversion.

Variable W : World.
Variable s : State.
Variable key : string.
Variable e1 : N.
Variable r1 : HttpResponse.
Variable silverData : value.
Variable usd : float.

Hypothesis configured_key : configured (FCS_API_KEY W) = Some key.
Hypothesis quote_exchange :
  network W (clock s) (SilverFx.silver_request key)
  = {| elapsed := e1; result := Resolved r1 |}.
Hypothesis quote_ok : ok r1 = true.
Hypothesis quote_body : json_body r1 = Some silverData.
Hypothesis quote_price : usd_quote W silverData = Some usd.

(** The adapter up to the currency lookup. *)
Lemma fetchFcsApi_to_lookup :
  exists s1,
    clock s1 = clock s + Z.of_N e1
    /\ SilverFx.fetchFcsApi W s
       = try_catch
           (forexResponse <- fetch W SilverFx.forex_request ;;
            if negb (ok forexResponse) then ret None
            else
              forexData <- response_json forexResponse ;;
              usdCadRate <-
                (if Js.truthy (Js.opt forexData "rate")
                 then rate <- lift (Js.get forexData "rate") ;; ret (ToNumber W rate)
                 else ret SilverFx.FALLBACK_RATE) ;;
              let price_oz := (usd * usdCadRate)%float in
              let price_gram_24k := (price_oz / TROY_OUNCE_GRAMS)%float in
              ret (Some {| price_oz := price_oz;
                           price_gram_24k := price_gram_24k;
                           currency := "CAD";
                           provider := "fcsapi";
                           type := None;
                           cached := None |}))
           (fun error => console_line "[fcsapi/silver] Error:" ;; ret None) s1.
Proof.
  eexists. split; [|].
  2: { unfold SilverFx.fetchFcsApi. rewrite configured_key.
       unfold try_catch at 1, bind at 1, fetch at 1. rewrite quote_exchange.
       cbn [result]. rewrite quote_ok. cbn [negb].
       unfold bind at 1, response_json at 1. rewrite quote_body.
       unfold ret at 1, bind at 1, lift at 1.
       unfold usd_quote in quote_price.
       destruct (SilverFx.find_in (Js.opt silverData "response")) as [t|]; [|discriminate].
       cbv zeta in quote_price.
       destruct (Js.truthy (Js.opt (Js.opt t "active") "c")) eqn:Htruthy; [|discriminate].
       injection quote_price as <-.
       destruct (quoted_price_read t Htruthy) as [Hactive Hc].
       cbn [negb]. unfold bind at 1, lift at 1. rewrite Hactive.
       unfold bind at 1, lift at 1. rewrite Hc.
       unfold try_catch. reflexivity. }
  reflexivity.
Qed.

End FcsApiConversion.

(** C9 (as amended). In the silver route whose fcsapi adapter converts a USD
    quote, once the quote is read: when the currency lookup answers with a
    success status and a JSON body that has no truthy [rate], the adapter
    uses the rate 1.4 and returns a payload whose [price_oz] is the USD ounce
    price multiplied by 1.4; when the lookup answers with another status,
    when its request is rejected, or when its body is not JSON, the adapter
    returns no payload. *)
Theorem fcsapi_fallback_rate (W : World) (s : State) (key : string)
    (e1 : N) (r1 : HttpResponse) (silverData : value) (usd : float) :
  configured (FCS_API_KEY W) = Some key ->
  network W (clock s) (SilverFx.silver_request key)
  = {| elapsed := e1; result := Resolved r1 |} ->
  ok r1 = true ->
  json_body r1 = Some silverData ->
  usd_quote W silverData = Some usd ->
  (forall e2 r2 forexData,
      network W (clock s + Z.of_N e1) SilverFx.forex_request
      = {| elapsed := e2; result := Resolved r2 |} ->
      ok r2 = true ->
      json_body r2 = Some forexData ->
      Js.truthy (Js.opt forexData "rate") = false ->
      fst (SilverFx.fetchFcsApi W s)
      = Normal (Some {| price_oz := (usd * 1.4)%float;
                        price_gram_24k := (usd * 1.4 / 31.1034768)%float;
                        currency := "CAD";
                        provider := "fcsapi";
                        type := None;
                        cached := None |}))
  /\ (forall e2 r2,
         network W (clock s + Z.of_N e1) SilverFx.forex_request
         = {| elapsed := e2; result := Resolved r2 |} ->
         ok r2 = false \/ json_body r2 = None ->
         fst (SilverFx.fetchFcsApi W s) = Normal None)
  /\ (forall e2 error,
         network W (clock s + Z.of_N e1) SilverFx.forex_request
         = {| elapsed := e2; result := Rejected error |} ->
         fst (SilverFx.fetchFcsApi W s) = Normal None).
Proof.
  intros Hkey Hquote Hok Hbody Husd.
  destruct (fetchFcsApi_to_lookup W s key e1 r1 silverData usd
              Hkey Hquote Hok Hbody Husd) as (s1 & Hclock & ->).
  rewrite <- Hclock. split; [|split].
  - intros e2 r2 forexData Hnet Hok2 Hbody2 Hrate.
    unfold try_catch, bind at 1, fetch. rewrite Hnet. cbn [result].
    rewrite Hok2. cbn [negb]. unfold bind at 1, response_json. rewrite Hbody2.
    unfold ret at 1. rewrite Hrate. reflexivity.
  - intros e2 r2 Hnet Hbad.
    unfold try_catch, bind at 1, fetch. rewrite Hnet. cbn [result].
    destruct (ok r2) eqn:Hok2; cbn [negb]; [|reflexivity].
    destruct Hbad as [? | Hbody2]; [discriminate|].
    unfold bind at 1, response_json. rewrite Hbody2. reflexivity.
  - intros e2 error Hnet.
    unfold try_catch, bind at 1, fetch. rewrite Hnet. reflexivity.
Qed.

Lemma fcsapi_fallback_rate_witness :
  fst (SilverFx.fetchFcsApi (fx_world (json_reply 200 (Obj []))) boot)
  = Normal (Some {| price_oz := (30 * 1.4)%float;
                    price_gram_24k := (30 * 1.4 / 31.1034768)%float;
                    currency := "CAD";
                    provider := "fcsapi";
                    type := None;
                    cached := None |}).
Proof.
  eapply (proj1 (fcsapi_fallback_rate (fx_world (json_reply 200 (Obj []))) boot
                   "f1" 40 _ silver_quote 30%float
                   eq_refl eq_refl eq_refl eq_refl eq_refl));
    reflexivity.
Defined.

(** ** Nisab *)

Lemma member_get (body : value) (k : string) (x : float) :
  Js.member body k = Num x ->
  forall k', Js.get body k' = Normal (Js.member body k').
Proof. intros H k'. destruct body; try reflexivity; discriminate. Qed.

(** Against C8 as stated: the nisab route of lines 59-316 has a provider
    chain of its own. It asks the three keyed providers itself and fails, in
    a world where the gold route resolves a price (from its fourth
    provider). *)
Lemma nisab_chain_of_its_own :
  (exists gold,
      fst (Gold.GET scrape_world grams_request boot) = Normal gold
      /\ response_status gold = 200
      /\ field gold "provider" = Str "goldprice.org")
  /\ (exists nisab,
         fst (NisabChain.GET scrape_world plain_request boot) = Normal nisab
         /\ response_status nisab = 500
         /\ field nisab "nisab" = Undefined)
  /\ map url (requests (snd (NisabChain.GET scrape_world plain_request boot)))
     = ["https://www.goldapi.io/api/XAU/CAD";
        "https://metals-api.com/api/latest?access_key=m1&base=XAU&symbols=CAD";
        "https://fcsapi.com/api-v3/forex/latest?symbol=XAU/CAD&access_key=f1"].
Proof.
  split; [|split].
  - eexists. split; [vm_compute; reflexivity|]. repeat split.
  - eexists. split; [vm_compute; reflexivity|]. repeat split.
  - vm_compute. reflexivity.
Qed.

Lemma Nisab_GET_run W request s gold s1 :
  own_origin_fault W = None ->
  Gold.GET W (gold_query request) s = (Normal gold, s1) ->
  Nisab.GET W request s
  = try_catch (Nisab.respond W gold)
      (fun error =>
         console_line "[Nisab API] Error:" ;;
         ret (NextResponse_json [("error", Str "Failed to calculate nisab value")] 500))
      s1.
Proof.
  intros Horigin Hgold. unfold Nisab.GET, Nisab.fetch_gold. cbv zeta.
  rewrite Horigin. unfold try_catch, bind at 1.
  unfold gold_query in Hgold. now rewrite Hgold.
Qed.

Lemma payload_response_nisab W p from_cache :
  response_status (NisabChain.payload_response p from_cache) = 200
  /\ nisab_of W (NisabChain.payload_response p from_cache).
Proof.
  split; [reflexivity|]. exists (Num (price_gram_24k p)).
  unfold NisabChain.payload_response, NisabChain.nisab_response.
  rewrite !field_NextResponse_json by distinct_keys. repeat split.
Qed.

Lemma NisabChain_try_providers_total debug ps :
  Forall (fun nf => total (snd nf)) ps -> total (NisabChain.try_providers debug ps).
Proof.
  induction 1 as [|[name fn] rest Hfn _ IH]; cbn [NisabChain.try_providers].
  - apply total_ret.
  - apply total_bind.
    + apply total_try_catch. intros e. repeat total_step.
    + intros [response|]; [apply total_ret | exact IH].
Qed.

Lemma NisabChain_try_providers_returns W debug ps :
  returns (fun o => forall r, o = Some r -> response_status r = 200 /\ nisab_of W r)
    (NisabChain.try_providers debug ps).
Proof.
  induction ps as [|[name fn] rest IH]; cbn [NisabChain.try_providers].
  - apply returns_ret. intros r [=].
  - eapply (returns_bind
              (fun o => forall r, o = Some r -> response_status r = 200 /\ nisab_of W r)).
    + apply returns_try_catch.
      * apply returns_bind_any. intros [p|].
        -- apply returns_bind_any. intros _. apply returns_ret.
           intros r [= <-]. apply payload_response_nisab.
        -- apply returns_ret. intros r [=].
      * intros e. apply returns_bind_any. intros _. apply returns_ret. intros r [=].
    + intros [response|] Hstep; [|exact IH].
      apply returns_ret. intros r [= <-]. now apply Hstep.
Qed.

(** The loop of the nisab route with a waterfall of its own, when every
    provider returns nothing, and at the first payload. *)
Lemma NisabChain_try_providers_skipped debug ps s s' :
  skipped ps s s' -> NisabChain.try_providers debug ps s = (Normal None, s').
Proof.
  induction 1 as [|name fn rest s s1 s' Hfn _ IH]; cbn [NisabChain.try_providers];
    [reflexivity|].
  unfold bind at 1, try_catch, bind at 1. now rewrite Hfn.
Qed.

Lemma NisabChain_try_providers_first debug pre name fn post s s1 p s2 :
  skipped pre s s1 ->
  fn s1 = (Normal (Some p), s2) ->
  NisabChain.try_providers debug (pre ++ (name, fn) :: post)%list s
  = (Normal (Some (NisabChain.payload_response p false)),
     after_cache_write NisabChain.cacheKey debug p s2).
Proof.
  intros Hskip Hfn.
  induction Hskip as [|name' fn' rest s s1 s' Hfn' _ IH];
    cbn [app NisabChain.try_providers].
  - unfold bind at 1, try_catch, bind at 1. rewrite Hfn.
    unfold after_cache_write. now destruct debug.
  - unfold bind at 1, try_catch, bind at 1. rewrite Hfn'. now apply IH.
Qed.

Lemma payload_response_fields p from_cache :
  response_status (NisabChain.payload_response p from_cache) = 200
  /\ field (NisabChain.payload_response p from_cache) "nisab"
     = Js.json_number (price_gram_24k p * 85)
  /\ field (NisabChain.payload_response p from_cache) "price_gram_24k"
     = Js.json_number (price_gram_24k p)
  /\ field (NisabChain.payload_response p from_cache) "nisab_grams" = Num 85
  /\ field (NisabChain.payload_response p from_cache) "provider" = Str (provider p)
  /\ field (NisabChain.payload_response p from_cache) "cached" = Bool from_cache.
Proof.
  unfold NisabChain.payload_response, NisabChain.nisab_response.
  rewrite !field_NextResponse_json by distinct_keys. repeat split.
Qed.

(** C8 (as amended). The nisab route of lines 1-58 has no provider of its
    own: it asks the gold route with [grams=true]; when the gold route
    answers with a success status and a gram price [g], the nisab is
    [g * 85], and when it answers with another status the nisab route
    answers with that status and no nisab. The nisab route of lines 59-316
    resolves the gold price itself: from its cache, when it holds a fresh
    entry; otherwise from the first of its three providers (goldapi.io,
    metals-api, fcsapi) that returns a payload, which it stores in the cache
    unless the request has [debug=1]; otherwise from the snapshot file of
    the gold route. Its nisab is the gram price of that payload, or the
    number of the gram price of that record, times 85; every answer with
    status 200 reports such a nisab; and when nothing resolves it answers
    500 with no nisab. An ounce price of 6274.64 gives a gram price of about
    201.7344 and a nisab of about 17147.42. *)
Theorem nisab_value (W : World) :
  (forall request s gold s1,
      own_origin_fault W = None ->
      Gold.GET W (gold_query request) s = (Normal gold, s1) ->
      (forall g,
          ok_status (response_status gold) = true ->
          field gold "price_gram_24k" = Num g ->
          Js.truthy (field gold "error") = false ->
          exists nisab,
            Nisab.GET W request s = (Normal nisab, s1)
            /\ response_status nisab = 200
            /\ field nisab "nisab" = Js.json_number (g * 85)
            /\ field nisab "nisab_grams" = Num 85)
      /\ (ok_status (response_status gold) = false ->
          exists nisab s',
            Nisab.GET W request s = (Normal nisab, s')
            /\ response_status nisab = response_status gold
            /\ field nisab "error" = Str "Failed to fetch gold price"
            /\ field nisab "nisab" = Undefined))
  /\ (forall request s entry,
         wants_debug request = false ->
         priceCache s !! NisabChain.cacheKey = Some entry ->
         clock s - ts entry <= 600 * 1000 ->
         exists nisab,
           NisabChain.GET W request s = (Normal nisab, s)
           /\ response_status nisab = 200
           /\ field nisab "nisab" = Js.json_number (price_gram_24k (data entry) * 85)
           /\ field nisab "price_gram_24k"
              = Js.json_number (price_gram_24k (data entry))
           /\ field nisab "cached" = Bool true)
  /\ (forall request s s0 pre name fn post s1 p s2,
         read_cache NisabChain.cacheKey (wants_debug request) s = (Normal None, s0) ->
         NisabChain.providers W = (pre ++ (name, fn) :: post)%list ->
         skipped pre s0 s1 ->
         fn s1 = (Normal (Some p), s2) ->
         exists nisab,
           NisabChain.GET W request s
           = (Normal nisab,
              after_cache_write NisabChain.cacheKey (wants_debug request) p s2)
           /\ response_status nisab = 200
           /\ field nisab "nisab" = Js.json_number (price_gram_24k p * 85)
           /\ field nisab "price_gram_24k" = Js.json_number (price_gram_24k p)
           /\ field nisab "provider" = Str (provider p)
           /\ field nisab "cached" = Bool false)
  /\ (forall request s s0 s1,
         read_cache NisabChain.cacheKey (wants_debug request) s = (Normal None, s0) ->
         skipped (NisabChain.providers W) s0 s1 ->
         (forall fallback s2,
             NisabChain.getMonthlyFallback W s1 = (Normal (Some fallback), s2) ->
             exists nisab,
               NisabChain.GET W request s = (Normal nisab, s2)
               /\ response_status nisab = 200
               /\ field nisab "nisab"
                  = Js.json_number
                      (ToNumber W (default Undefined
                                     (Js.own fallback "price_gram_24k")) * 85)
               /\ field nisab "price_gram_24k" = served fallback "price_gram_24k"
               /\ field nisab "provider" = served fallback "provider"
               /\ field nisab "cached" = Bool false)
         /\ (forall s2,
                NisabChain.getMonthlyFallback W s1 = (Normal None, s2) ->
                exists failure s',
                  NisabChain.GET W request s = (Normal failure, s')
                  /\ response_status failure = 500
                  /\ field failure "error"
                     = Str "Failed to fetch nisab value from all providers"
                  /\ field failure "nisab" = Undefined))
  /\ (forall request,
         returns (fun r => response_status r = 200 -> nisab_of W r)
           (NisabChain.GET W request))
  /\ map fst (NisabChain.providers W) = ["goldapi.io"; "metals-api"; "fcsapi"]
  /\ NisabChain.filePath = Gold.filePath
  /\ within 0.00005 (6274.64 / 31.1034768) 201.7344 = true
  /\ within 0.005 (6274.64 / 31.1034768 * 85) 17147.42 = true.
Proof.
  split; [|split; [|split; [|split; [|split; [|split; [|split; [|split]]]]]]].
  - intros request s gold s1 Horigin Hgold.
    rewrite (Nisab_GET_run W request s gold s1 Horigin Hgold). split.
    + intros g Hok Hgram Herror. unfold field in Hgram, Herror.
      pose proof (member_get _ _ _ Hgram) as Hget.
      eexists. split.
      * unfold try_catch, Nisab.respond. rewrite Hok. cbn [negb].
        unfold bind, lift. rewrite !Hget, Herror, Hgram. reflexivity.
      * split; [reflexivity|].
        rewrite !field_NextResponse_json by distinct_keys. split; reflexivity.
    + intros Hbad. eexists _, _. split.
      * unfold try_catch, Nisab.respond. rewrite Hbad. cbn [negb].
        unfold bind, console_line, ret. reflexivity.
      * repeat split.
  - intros request s entry Hdebug Hentry Hage.
    exists (NisabChain.payload_response (with_cached (data entry) true) true).
    split.
    + unfold NisabChain.GET. cbv zeta. rewrite Hdebug. unfold bind.
      now rewrite (getCachedPrice_fresh _ _ _ Hentry Hage).
    + destruct (payload_response_fields (with_cached (data entry) true) true)
        as (Hs & Hn & Hg & _ & _ & Hc). auto.
  - intros request s s0 pre name fn post s1 p s2 Hcache Hps Hskip Hfn.
    exists (NisabChain.payload_response p false). split.
    + unfold NisabChain.GET. cbv zeta. unfold bind at 1.
      unfold read_cache in Hcache. rewrite Hcache, Hps. unfold bind.
      now rewrite (NisabChain_try_providers_first _ _ _ _ _ _ _ _ _ Hskip Hfn).
    + destruct (payload_response_fields p false) as (Hs & Hn & Hg & _ & Hp & Hc).
      auto.
  - intros request s s0 s1 Hcache Hskip.
    assert (NisabChain.GET W request s
            = bind (NisabChain.getMonthlyFallback W)
                   (fun fallback =>
                      match fallback with
                      | Some fallback =>
                          let field k := default Undefined (Js.own fallback k) in
                          let nisabValue :=
                            (ToNumber W (field "price_gram_24k") * NISAB_GRAMS)%float in
                          ret (NisabChain.nisab_response nisabValue
                                 (field "price_gram_24k") (field "currency")
                                 (field "provider") (field "type") false)
                      | None =>
                          console_line "[Nisab API] All providers failed" ;;
                          ret (NextResponse_json
                                 [("error",
                                   Str "Failed to fetch nisab value from all providers")]
                                 500)
                      end) s1) as Hrun.
    { unfold NisabChain.GET. cbv zeta. unfold bind at 1.
      unfold read_cache in Hcache. rewrite Hcache. unfold bind at 1.
      now rewrite (NisabChain_try_providers_skipped _ _ _ _ Hskip). }
    split.
    + intros fallback s2 Hfb. eexists. split.
      * rewrite Hrun. unfold bind. rewrite Hfb. reflexivity.
      * split; [reflexivity|]. unfold NisabChain.nisab_response, served.
        rewrite !field_NextResponse_json by distinct_keys.
        cbn [Js.own String.eqb Ascii.eqb Bool.eqb].
        repeat split;
          match goal with
          | |- context [Js.own fallback ?k] => now destruct (Js.own fallback k)
          end.
    + intros s2 Hfb. eexists _, _. split.
      * rewrite Hrun. unfold bind at 1. rewrite Hfb. reflexivity.
      * rewrite !field_NextResponse_json by distinct_keys. repeat split.
  - intros request. unfold NisabChain.GET. cbv zeta.
    apply returns_bind_any. intros [hit|].
    { apply returns_ret. intros _. apply payload_response_nisab. }
    eapply returns_bind; [apply (NisabChain_try_providers_returns W)|].
    intros [response|] Hlive.
    { apply returns_ret. intros _. now apply Hlive. }
    apply returns_bind_any. intros [fallback|].
    + apply returns_ret. intros _.
      exists (default Undefined (Js.own fallback "price_gram_24k")).
      unfold NisabChain.nisab_response.
      rewrite !field_NextResponse_json by distinct_keys. repeat split.
    + apply returns_bind_any. intros _. apply returns_ret. discriminate.
  - reflexivity.
  - reflexivity.
  - vm_compute. reflexivity.
  - vm_compute. reflexivity.
Qed.

Lemma nisab_value_witness :
  (exists nisab,
      fst (Nisab.GET scrape_world plain_request boot) = Normal nisab
      /\ response_status nisab = 200
      /\ field nisab "nisab" = Js.json_number (6274.64 / 31.1034768 * 85))
  /\ (exists nisab,
         fst (NisabChain.GET metals_world plain_request boot) = Normal nisab
         /\ response_status nisab = 200
         /\ field nisab "provider" = Str "metals-api"
         /\ field nisab "nisab" = Js.json_number (5000 / 31.1034768 * 85)).
Proof.
  split.
  - pose (r := Gold.GET scrape_world (gold_query plain_request) boot).
    pose (gold := match fst r with
                  | Normal x => x
                  | Throw _ => {| response_status := 0; response_body := Null |}
                  end).
    assert (Gold.GET scrape_world (gold_query plain_request) boot
            = (Normal gold, snd r)) as Hgold by (vm_compute; reflexivity).
    destruct (proj1 (proj1 (nisab_value scrape_world) plain_request boot gold (snd r)
                       eq_refl Hgold)
                (6274.64 / 31.1034768)%float)
      as (nisab & Hrun & Hstatus & Hnisab & _).
    + vm_compute. reflexivity.
    + vm_compute. reflexivity.
    + vm_compute. reflexivity.
    + exists nisab. rewrite Hrun. auto.
  - pose (s1 := snd (NisabChain.fetchGoldApiIo metals_world boot)).
    pose (r := NisabChain.fetchMetalsApi metals_world s1).
    pose (p := match fst r with
               | Normal (Some p) => p
               | _ => {| price_oz := 0; price_gram_24k := 0; currency := "";
                         provider := ""; type := None; cached := None |}
               end).
    destruct (proj1 (proj2 (proj2 (nisab_value metals_world)))
                plain_request boot boot
                [("goldapi.io", NisabChain.fetchGoldApiIo metals_world)]
                "metals-api" (NisabChain.fetchMetalsApi metals_world)
                [("fcsapi", NisabChain.fetchFcsApi metals_world)]
                s1 p (snd r))
      as (nisab & Hrun & Hstatus & Hnisab & _ & Hprovider & _).
    + reflexivity.
    + reflexivity.
    + apply skipped_cons with (s1 := s1); [vm_compute; reflexivity | constructor].
    + vm_compute. reflexivity.
    + exists nisab. rewrite Hrun. split; [reflexivity|]. split; [exact Hstatus|].
      split; [rewrite Hprovider; reflexivity|].
      rewrite Hnisab. vm_compute. reflexivity.
Defined.

(** ** The two ends of a chain *)

(** From any state, the providers of a list that never throw either all
    return nothing, or some first one returns a payload after those before it
    returned nothing: the cases of C1 and of C7 are the only ones. *)
Lemma chain_outcomes (ps : list (string * M (option Payload))) :
  Forall (fun nf => total (snd nf)) ps ->
  forall s,
    (exists s', skipped ps s s')
    \/ (exists pre name fn post s1 p s2,
           ps = (pre ++ (name, fn) :: post)%list
           /\ skipped pre s s1
           /\ fn s1 = (Normal (Some p), s2)).
Proof.
  induction 1 as [|[name fn] rest Hfn _ IH]; intros s.
  - left. exists s. constructor.
  - cbn [snd] in Hfn. destruct (Hfn s) as ([p|] & s1 & E).
    + right. exists [], name, fn, rest, s, p, s1. repeat split; [constructor | exact E].
    + destruct (IH s1) as [(s' & Hskip) | (pre & n & g & post & s2 & p & s3 & -> & Hskip & E')].
      * left. exists s'. econstructor; eassumption.
      * right. exists ((name, fn) :: pre), n, g, post, s2, p, s3.
        repeat split; [econstructor; eassumption | exact E'].
Qed.

(** * Further properties of the routes *)

(** ** The cache across two requests *)

Lemma getCachedPrice_none_absent key s s0 :
  getCachedPrice key s = (Normal None, s0) -> priceCache s0 !! key = None.
Proof.
  intros H.
  destruct (getCachedPrice_cases key s)
    as [[Hm E] | [(entry & _ & _ & E) | (entry & _ & _ & E)]];
    rewrite E in H; inversion H; subst; clear H.
  - exact Hm.
  - cbn. apply lookup_delete_eq.
Qed.

(** X1. After a live success without debug, a later request without debug that
    finds the same cache at most 600 s after the provider answered is served
    from the cache: the answer has [cached: true] and the provider, currency
    and prices of the live answer, and nothing changes: no request is sent,
    no file is written. *)
Theorem second_request_from_cache (W : World) (route : PriceRoute) :
  In route (price_routes W) ->
  forall request s s0 pre name fn post s1 p s2 again later,
    wants_debug request = false ->
    provider_list route = (pre ++ (name, fn) :: post)%list ->
    read_cache (cache_key route) (wants_debug request) s = (Normal None, s0) ->
    skipped pre s0 s1 ->
    fn s1 = (Normal (Some p), s2) ->
    wants_debug again = false ->
    priceCache later = priceCache (snd (handler route request s)) ->
    clock later - clock s2 <= 600 * 1000 ->
    handler route again later
    = (Normal (cached_response (wants_grams again) (with_cached p true)), later)
    /\ field (cached_response (wants_grams again) (with_cached p true)) "cached"
       = Bool true
    /\ field (cached_response (wants_grams again) (with_cached p true)) "provider"
       = field (live_response (wants_grams request) p) "provider"
    /\ field (cached_response (wants_grams again) (with_cached p true)) "price_oz"
       = field (live_response (wants_grams request) p) "price_oz"
    /\ field (cached_response (wants_grams again) (with_cached p true)) "price_gram_24k"
       = field (live_response (wants_grams request) p) "price_gram_24k".
Proof.
  intros Hroute request s s0 pre name fn post s1 p s2 again later
    Hdebug Hps Hcache Hpre Hfn Hagain Hsame Hage.
  pose proof (price_routes_facts W route Hroute) as F.
  destruct (facts_handler _ _ F) as (thrown_line & failure_line & E).
  destruct (cached_response_fields (wants_grams again) p) as (_ & Hc & Hp & _ & Ho & Hg).
  split; [|repeat split; assumption].
  assert (priceCache later !! cache_key route
          = Some {| ts := clock s2; data := p |}) as Hentry.
  { rewrite Hsame, E.
    rewrite (GET_with_first_success _ _ _ _ _ _ _ (facts_write_total _ _ F)
               request s s0 pre name fn post s1 p s2 Hps Hcache Hpre Hfn).
    cbn [snd]. rewrite (facts_write_keeps _ _ F _ priceCache p _ _).
    rewrite Hdebug. cbn. apply lookup_insert_eq. }
  rewrite E, GET_with_run. cbv zeta. rewrite Hagain. cbn [read_cache].
  now rewrite (getCachedPrice_fresh _ _ _ Hentry Hage).
Qed.

Lemma second_request_from_cache_witness :
  exists response,
    Gold.GET metals_world grams_request
      (set_clock (clock (snd (Gold.GET metals_world plain_request boot)) + 600000)
         (snd (Gold.GET metals_world plain_request boot)))
    = (Normal response,
       set_clock (clock (snd (Gold.GET metals_world plain_request boot)) + 600000)
         (snd (Gold.GET metals_world plain_request boot)))
    /\ field response "cached" = Bool true
    /\ field response "provider" = Str "metals-api".
Proof.
  pose (s1 := snd (Gold.fetchGoldApiIo metals_world boot)).
  pose (r := Gold.fetchMetalsApi metals_world s1).
  pose (p := match fst r with
             | Normal (Some p) => p
             | _ => {| price_oz := 0; price_gram_24k := 0; currency := "";
                       provider := ""; type := None; cached := None |}
             end).
  destruct (second_request_from_cache metals_world (gold_route metals_world)
              (or_introl eq_refl) plain_request boot boot
              [("goldapi.io", Gold.fetchGoldApiIo metals_world)]
              "metals-api" (Gold.fetchMetalsApi metals_world)
              [("fcsapi", Gold.fetchFcsApi metals_world);
               ("goldprice.org", Gold.fetchGoldPriceOrg metals_world)]
              s1 p (snd r) grams_request
              (set_clock (clock (snd (Gold.GET metals_world plain_request boot)) + 600000)
                 (snd (Gold.GET metals_world plain_request boot))))
    as (Hrun & Hcached & _).
  - reflexivity.
  - reflexivity.
  - reflexivity.
  - apply skipped_cons with (s1 := s1); [vm_compute; reflexivity | constructor].
  - vm_compute. reflexivity.
  - reflexivity.
  - reflexivity.
  - vm_compute. discriminate.
  - eexists. split; [exact Hrun|]. split; [exact Hcached|]. vm_compute. reflexivity.
Defined.

(** ** What an outage leaves in the cache *)

(** X2. When every provider returns nothing, the answer (from the snapshot or
    the failure) is not cached: the cache is what the cache read left, and
    without debug it holds nothing for the instrument, so the next request
    asks the providers again. *)
Theorem outage_not_cached (W : World) (route : PriceRoute) :
  In route (price_routes W) ->
  forall request s s0 s1,
    read_cache (cache_key route) (wants_debug request) s = (Normal None, s0) ->
    skipped (provider_list route) s0 s1 ->
    priceCache (snd (handler route request s)) = priceCache s0
    /\ (wants_debug request = false ->
        priceCache (snd (handler route request s)) !! cache_key route = None).
Proof.
  intros Hroute request s s0 s1 Hcache Hskip.
  pose proof (price_routes_facts W route Hroute) as F.
  destruct (facts_handler _ _ F) as (thrown_line & failure_line & E).
  assert (priceCache (snd (handler route request s)) = priceCache s0) as Hsame.
  { rewrite E, GET_with_run. cbv zeta. rewrite Hcache.
    rewrite (try_providers_exhausted _ _ _ _ _ _ _ _ _
               (skipped_exhausted thrown_line _ _ _ Hskip)).
    pose proof (facts_read_keeps _ _ F _ priceCache _ s1) as K.
    rewrite <- (skipped_keeps priceCache _ _ _
                  (facts_providers_keep _ _ F _ priceCache _ _) Hskip).
    destruct (snapshot_read route s1) as [[[fallback|]|e] s2]; cbn [snd] in *; auto. }
  split; [exact Hsame|].
  intros Hdebug. rewrite Hsame. rewrite Hdebug in Hcache. cbn [read_cache] in Hcache.
  now apply (getCachedPrice_none_absent _ s).
Qed.

Lemma outage_not_cached_witness :
  priceCache (snd (Gold.GET offline_world plain_request past_snapshot)) !! Gold.cacheKey
  = None.
Proof.
  pose (s1 := snd (Gold.fetchGoldPriceOrg offline_world past_snapshot)).
  apply (proj2 (outage_not_cached offline_world (gold_route offline_world)
                  (or_introl eq_refl) plain_request past_snapshot past_snapshot s1
                  eq_refl
                  ltac:(repeat (eapply skipped_cons; [vm_compute; reflexivity|]);
                        constructor))
           eq_refl).
Defined.

(** ** The snapshot file across a write and a read *)

(** X3. What a price route that writes the snapshot stored after a live
    success is what an outage in the same month answers: when every provider
    returns nothing at a later request that finds the files the write left,
    and the month has not changed, the answer is 200 with the prices and the
    currency of the stored payload, the provider [monthly-fallback] and
    [cached: false]. *)
Theorem snapshot_round_trip (W : World) (route : PriceRoute) :
  In route (writing_routes W) ->
  forall p s mapping request later t0 t1,
    read_only_disk s = false ->
    loaded_mapping (snapshot_path route) s = Obj mapping ->
    files later = files (snd (snapshot_write route p s)) ->
    read_cache (cache_key route) (wants_debug request) later = (Normal None, t0) ->
    skipped (provider_list route) t0 t1 ->
    month_key W (clock t1) = month_key W (clock s) ->
    exists response,
      handler route request later = (Normal response, t1)
      /\ response_status response = 200
      /\ field response "provider" = Str "monthly-fallback"
      /\ field response "price_oz" = Js.json_number (price_oz p)
      /\ field response "price_gram_24k" = Js.json_number (price_gram_24k p)
      /\ field response "currency" = Str (currency p)
      /\ field response "cached" = Bool false.
Proof.
  intros Hroute p s mapping request later t0 t1 Hrw Hload Hfiles Hcache Hskip Hmonth.
  pose proof (writing_routes_price W route Hroute) as Hprice.
  pose proof (price_routes_facts W route Hprice) as F.
  destruct (writing_routes_write W route Hroute) as (creating & update_line & Ew).
  destruct (facts_read_is _ _ F) as (line & Er).
  destruct (facts_handler _ _ F) as (thrown_line & failure_line & E).
  set (record := Obj [("price", Js.json_number (price_oz p));
                      ("price_oz", Js.json_number (price_oz p));
                      ("price_gram_24k", Js.json_number (price_gram_24k p));
                      ("currency", Str (currency p));
                      ("provider", Str (provider p));
                      ("cached", Bool true);
                      ("timestamp", Str (toISOString W (clock s)))]).
  assert (files t1 !! snapshot_path route
          = Some (Json (Obj (Js.jsonify_props
                               (Js.set_prop mapping (month_key W (clock s))
                                  (monthly_record W p (clock s))))))) as Hfile.
  { rewrite (files_at_fallback W route request later _ t0 t1 Hprice Hcache Hskip).
    rewrite Hfiles, Ew.
    rewrite (updateMonthlyPriceFile_written W _ creating update_line s p mapping Hrw Hload).
    cbn [snd]. apply lookup_insert_eq. }
  assert (snapshot_read route t1 = (Normal (Some (tagged_fallback record)), t1)) as Hread.
  { rewrite Er.
    apply (getMonthlyFallback_current W _ line t1 _ record Hfile); [|reflexivity].
    rewrite Hmonth. cbn [Js.get Js.member].
    now rewrite (own_jsonify_set_prop mapping _ _ record
                   (jsonify_monthly_record W p (clock s))). }
  exists (fallback_response (wants_grams request) (tagged_fallback record)).
  split.
  { rewrite E.
    apply (GET_with_fallback _ _ _ _ _ _ _ request later t0 t1 _ t1 Hcache Hskip Hread). }
  split; [apply fallback_response_status|].
  rewrite !fallback_response_field by (cbn; tauto).
  rewrite fallback_response_cached.
  cbn. rewrite !jsonify_json_number. repeat split.
Qed.

Lemma snapshot_round_trip_witness :
  exists response,
    Gold.GET offline_world plain_request
      (snd (Gold.updateMonthlyPriceFile offline_world sample_payload boot))
    = (Normal response,
       snd (Gold.fetchGoldPriceOrg offline_world
              (snd (Gold.updateMonthlyPriceFile offline_world sample_payload boot))))
    /\ field response "provider" = Str "monthly-fallback"
    /\ field response "price_oz" = Num 5000.
Proof.
  destruct (snapshot_round_trip offline_world (gold_route offline_world)
              (or_introl eq_refl) sample_payload boot [] plain_request
              (snd (Gold.updateMonthlyPriceFile offline_world sample_payload boot))
              (snd (Gold.updateMonthlyPriceFile offline_world sample_payload boot))
              (snd (Gold.fetchGoldPriceOrg offline_world
                      (snd (Gold.updateMonthlyPriceFile offline_world sample_payload
                              boot))))
              eq_refl eq_refl eq_refl eq_refl
              ltac:(repeat (eapply skipped_cons; [vm_compute; reflexivity|]);
                    constructor)
              eq_refl)
    as (response & Hrun & _ & Hprovider & Hoz & _).
  exists response. split; [exact Hrun|]. split; [exact Hprovider|].
  rewrite Hoz. reflexivity.
Defined.

(** X4. On a disk that can be written, the snapshot write of a price route
    changes one file, its own, and in it one month, the current one: every
    other month keeps its record, a stored month keeps its place and a new
    month goes last, so that no month is ever removed; and a file whose
    records are what [JSON.parse] produces stays such a file. *)
Theorem snapshot_upsert (W : World) (route : PriceRoute) :
  In route (writing_routes W) ->
  forall p s mapping,
    read_only_disk s = false ->
    files s !! snapshot_path route = Some (Json (Obj mapping)) ->
    Forall (fun kv => json_normal (snd kv)) mapping ->
    exists mapping',
      files (snd (snapshot_write route p s)) !! snapshot_path route
      = Some (Json (Obj mapping'))
      /\ (forall month, month <> month_key W (clock s) ->
                        Js.own mapping' month = Js.own mapping month)
      /\ map fst mapping' = months_after mapping (month_key W (clock s))
      /\ Forall (fun kv => json_normal (snd kv)) mapping'
      /\ (forall path, path <> snapshot_path route ->
                       files (snd (snapshot_write route p s)) !! path
                       = files s !! path).
Proof.
  intros Hroute p s mapping Hrw Hfile Hnormal.
  destruct (writing_routes_write W route Hroute) as (creating & update_line & Ew).
  assert (loaded_mapping (snapshot_path route) s = Obj mapping) as Hload
    by (unfold loaded_mapping; now rewrite Hfile).
  rewrite Ew.
  rewrite (updateMonthlyPriceFile_written W _ creating update_line s p mapping Hrw Hload).
  cbn [snd].
  rewrite (jsonify_props_set_prop_normal mapping _ _ _ Hnormal
             (jsonify_monthly_record W p (clock s))).
  eexists. split; [apply lookup_insert_eq|].
  split; [intros month Hne; apply own_set_prop_ne; congruence|].
  split; [apply keys_set_prop|].
  split.
  - apply set_prop_normal; [exact Hnormal|].
    apply (stored_record_normal W p (clock s)), jsonify_monthly_record.
  - intros path Hne. cbn. now apply lookup_insert_ne.
Qed.

Lemma snapshot_upsert_witness :
  exists mapping',
    files (snd (Gold.updateMonthlyPriceFile offline_world sample_payload past_snapshot))
      !! Gold.filePath
    = Some (Json (Obj mapping'))
    /\ Js.own mapping' "2024-03" = Some march_record
    /\ map fst mapping' = ["2024-01"; "2024-03"; "2024-04"].
Proof.
  destruct (snapshot_upsert offline_world (gold_route offline_world)
              (or_introl eq_refl) sample_payload past_snapshot
              [("2024-01", january_record); ("2024-03", march_record)]
              eq_refl eq_refl
              ltac:(repeat constructor))
    as (mapping' & Hfile & Hother & Hkeys & _).
  exists mapping'. split; [exact Hfile|].
  split; [apply Hother; discriminate | exact Hkeys].
Defined.

(** ** What the handlers leave alone *)

#[global] Instance WireKept_file_at path : WireKept (file_at path).
Proof. now split. Qed.
#[global] Instance ConsoleKept_file_at path : ConsoleKept (file_at path).
Proof. now split. Qed.
#[global] Instance CacheKept_file_at path : CacheKept (file_at path).
Proof. now split. Qed.

Lemma keeps_writeFileSync_elsewhere path other text :
  other <> path -> keeps (file_at other) (writeFileSync path text).
Proof.
  intros Hne s. unfold writeFileSync, file_at.
  destruct text; [|reflexivity].
  destruct (read_only_disk s); [reflexivity|].
  cbn. apply lookup_insert_ne. congruence.
Qed.

Lemma updateMonthlyPriceFile_elsewhere W path creating_line update_error_line other d :
  other <> path ->
  keeps (file_at other)
    (updateMonthlyPriceFile W path creating_line update_error_line d).
Proof.
  intros Hne. unfold updateMonthlyPriceFile.
  repeat (keeps_step
          || (apply keeps_console_line; typeclasses eauto)
          || (apply keeps_writeFileSync_elsewhere; assumption)).
Qed.

Section HandlerKeeps.

Context {X : Type} (g : State -> X) `{!ConsoleKept g}.
Variable cacheKey : string.
Variable providers : list (string * M (option Payload)).
Variable snapshot_write : Payload -> M unit.
Variable monthly_fallback : M (option props).
Variable thrown_line : string -> option string.
Variable failure_line : string.
Variable failure_error : string.

Hypothesis lookup_keeps : keeps g (getCachedPrice cacheKey).
Hypothesis store_keeps : forall d, keeps g (setCachedPrice cacheKey d).
Hypothesis write_keeps : forall p, keeps g (snapshot_write p).
Hypothesis fallback_keeps : keeps g monthly_fallback.

Lemma try_providers_keeps debug grams ps errors :
  Forall (fun nf => keeps g (snd nf)) ps ->
  keeps g (try_providers cacheKey snapshot_write thrown_line debug grams ps errors).
Proof.
  intros Hps. revert errors.
  induction Hps as [|[name fn] rest Hfn _ IH]; intros errors; cbn [try_providers].
  - apply keeps_ret.
  - cbn [snd] in Hfn.
    repeat (keeps_step || exact Hfn || apply write_keeps || apply store_keeps
            || apply IH).
Qed.

Lemma GET_with_keeps request :
  Forall (fun nf => keeps g (snd nf)) providers ->
  keeps g (GET_with cacheKey providers snapshot_write monthly_fallback
             thrown_line failure_line failure_error request).
Proof.
  intros Hps. unfold GET_with. cbv zeta.
  apply keeps_bind.
  { unfold read_cache. destruct (wants_debug request);
      [apply keeps_ret | exact lookup_keeps]. }
  intros [hit|]; [apply keeps_ret|].
  apply keeps_bind; [now apply try_providers_keeps|].
  intros [response|errors]; [apply keeps_ret|].
  repeat (keeps_step || exact fallback_keeps).
Qed.

End HandlerKeeps.

(** A price route keeps what its snapshot write keeps, of what a network
    exchange, a console line and a cache write do not reach. *)
Lemma handler_keeps W route {X : Type} (g : State -> X)
    `{!WireKept g} `{!ConsoleKept g} `{!CacheKept g} request :
  In route (price_routes W) ->
  (forall p, keeps g (snapshot_write route p)) ->
  keeps g (handler route request).
Proof.
  intros Hroute Hwrite.
  pose proof (price_routes_facts W route Hroute) as F.
  destruct (facts_handler _ _ F) as (thrown_line & failure_line & ->).
  apply GET_with_keeps; try assumption.
  - now apply keeps_getCachedPrice.
  - intros d. now apply keeps_setCachedPrice.
  - now apply (facts_read_keeps _ _ F).
  - now apply (facts_providers_keep _ _ F).
Qed.

#[global] Instance WireKept_cache_at key : WireKept (cache_at key).
Proof. now split. Qed.
#[global] Instance ConsoleKept_cache_at key : ConsoleKept (cache_at key).
Proof. now split. Qed.
#[global] Instance FilesKept_cache_at key : FilesKept (cache_at key).
Proof. now split. Qed.

Lemma getCachedPrice_elsewhere key other :
  other <> key -> keeps (cache_at other) (getCachedPrice key).
Proof.
  intros Hne s. unfold getCachedPrice, cache_at.
  destruct (priceCache s !! key) as [entry|]; [|reflexivity].
  destruct (_ >? _); [|reflexivity].
  cbn. apply lookup_delete_ne. congruence.
Qed.

Lemma setCachedPrice_elsewhere key other d :
  other <> key -> keeps (cache_at other) (setCachedPrice key d).
Proof.
  intros Hne s. unfold setCachedPrice, cache_at. cbn.
  apply lookup_insert_ne. congruence.
Qed.

(** A price route keeps the cache entries of the other keys. *)
Lemma handler_keeps_other_entries W route other request :
  In route (price_routes W) ->
  other <> cache_key route ->
  keeps (cache_at other) (handler route request).
Proof.
  intros Hroute Hne.
  pose proof (price_routes_facts W route Hroute) as F.
  destruct (facts_handler _ _ F) as (thrown_line & failure_line & ->).
  apply GET_with_keeps.
  - typeclasses eauto.
  - now apply getCachedPrice_elsewhere.
  - intros d. now apply setCachedPrice_elsewhere.
  - intros p. apply (facts_write_keeps _ _ F); typeclasses eauto.
  - apply (facts_read_keeps _ _ F); typeclasses eauto.
  - apply (facts_providers_keep _ _ F); typeclasses eauto.
Qed.

Lemma snapshot_write_elsewhere W route other p :
  In route (price_routes W) ->
  other <> snapshot_path route ->
  keeps (file_at other) (snapshot_write route p).
Proof.
  intros [<- | [<- | [<- | []]]] Hne; cbn [snapshot_write gold_route silver_route
                                           silver_fx_route].
  - now apply updateMonthlyPriceFile_elsewhere.
  - now apply updateMonthlyPriceFile_elsewhere.
  - apply keeps_ret.
Qed.

(** X5. A price route touches no file but its own snapshot file and no cache
    entry but its own, and never changes whether the disk can be written:
    whatever the request, the cache and the providers, every other file and
    every other cache entry is after the request what it was before. *)
Theorem route_touches_its_own_only (W : World) (route : PriceRoute) :
  In route (price_routes W) ->
  forall request s,
    (forall path, path <> snapshot_path route ->
                  files (snd (handler route request s)) !! path = files s !! path)
    /\ (forall key, key <> cache_key route ->
                    priceCache (snd (handler route request s)) !! key
                    = priceCache s !! key)
    /\ read_only_disk (snd (handler route request s)) = read_only_disk s.
Proof.
  intros Hroute request s.
  pose proof (price_routes_facts W route Hroute) as F.
  split; [|split].
  - intros path Hne.
    apply (handler_keeps W route (file_at path) request Hroute).
    intros p. now apply (snapshot_write_elsewhere W).
  - intros key Hne.
    now apply (handler_keeps_other_entries W route key request Hroute).
  - apply (handler_keeps W route read_only_disk request Hroute).
    intros p. now apply (facts_write_keeps _ _ F).
Qed.

Lemma route_touches_its_own_only_witness :
  files (snd (Gold.GET metals_world plain_request boot)) !! Silver.filePath = None.
Proof.
  apply (proj1 (route_touches_its_own_only metals_world (gold_route metals_world)
                  (or_introl eq_refl) plain_request boot)
           Silver.filePath).
  discriminate.
Defined.

Lemma NisabChain_try_providers_keeps {X : Type} (g : State -> X)
    `{!ConsoleKept g} `{!CacheKept g} debug ps :
  Forall (fun nf => keeps g (snd nf)) ps ->
  keeps g (NisabChain.try_providers debug ps).
Proof.
  induction 1 as [|[name fn] rest Hfn _ IH]; cbn [NisabChain.try_providers].
  - apply keeps_ret.
  - cbn [snd] in Hfn. repeat (keeps_step || exact Hfn || apply IH).
Qed.

Lemma NisabChain_GET_keeps {X : Type} (g : State -> X)
    `{!WireKept g} `{!ConsoleKept g} `{!CacheKept g} W request :
  keeps g (NisabChain.GET W request).
Proof.
  unfold NisabChain.GET. cbv zeta.
  apply keeps_bind; [destruct (wants_debug request); repeat keeps_step|].
  intros [hit|]; [apply keeps_ret|].
  apply keeps_bind.
  - apply NisabChain_try_providers_keeps; try assumption.
    repeat constructor; cbn [snd].
    + now apply fetchGoldApiIo_keeps.
    + now apply fetchMetalsApi_keeps.
    + now apply fetchFcsApi_keeps.
  - intros [response|]; [apply keeps_ret|].
    apply keeps_bind; [now apply getMonthlyFallback_keeps|].
    intros [fallback|]; repeat keeps_step.
Qed.

Lemma GoldKeys_try_keys_keeps {X : Type} (g : State -> X) `{!WireKept g} W keys :
  keeps g (GoldKeys.try_keys W keys).
Proof.
  induction keys as [|k rest IH]; cbn [GoldKeys.try_keys].
  - apply keeps_ret.
  - destruct (configured k); [|exact IH]. repeat (keeps_step || exact IH).
Qed.

Lemma GoldKeys_GET_keeps {X : Type} (g : State -> X)
    `{!WireKept g} `{!ConsoleKept g} W request :
  keeps g (GoldKeys.GET W request).
Proof.
  unfold GoldKeys.GET. cbv zeta.
  apply keeps_bind; [now apply GoldKeys_try_keys_keeps|].
  intros [data|]; repeat keeps_step.
Qed.

(** X6. The second silver route, the nisab route with a waterfall of its own
    and the handler that loops over the goldapi.io keys write no file: the
    files and the disk are after the request what they were before; the
    last of the three does not touch the request cache either. *)
Theorem readers_write_no_file (W : World) (request : Request) (s : State) :
  files (snd (SilverFx.GET W request s)) = files s
  /\ files (snd (NisabChain.GET W request s)) = files s
  /\ files (snd (GoldKeys.GET W request s)) = files s
  /\ priceCache (snd (GoldKeys.GET W request s)) = priceCache s.
Proof.
  split; [|split; [|split]].
  - apply (handler_keeps W (silver_fx_route W) files request).
    + cbn. tauto.
    + intros p. apply keeps_ret.
  - now apply NisabChain_GET_keeps.
  - now apply GoldKeys_GET_keeps.
  - now apply GoldKeys_GET_keeps.
Qed.

(** ** The monthly update of the silver snapshot *)

Lemma jsonify_Obj ps : Js.jsonify (Obj ps) = Some (Obj (Js.jsonify_props ps)).
Proof. reflexivity. Qed.

Lemma truthy_jsonify v : Js.truthy v = true -> exists v', Js.jsonify v = Some v'.
Proof. destruct v; try discriminate; intros _; eexists; reflexivity. Qed.

Lemma fetch_silver_keeps {X : Type} (g : State -> X) W silver :
  (forall r, keeps g (silver r)) -> keeps g (SilverUpdate.fetch_silver W silver).
Proof.
  intros Hk. unfold SilverUpdate.fetch_silver.
  destruct (own_origin_fault W); [apply keeps_throw | apply Hk].
Qed.

Section UpdateFacts.

Variable W : World.
Variable UPDATE_MONTHLY_SECRET : option string.
Variable silver : Request -> M Response.
Variable request : UpdateRequest.

Let POST := SilverUpdate.POST W UPDATE_MONTHLY_SECRET silver request.

Lemma POST_total : total POST.
Proof.
  unfold POST, SilverUpdate.POST. cbv zeta.
  destruct (configured UPDATE_MONTHLY_SECRET); [|apply total_ret].
  destruct (negb _); [apply total_ret|].
  apply total_try_catch. intros e. repeat total_step.
Qed.

Lemma POST_unauthorized s :
  authorized UPDATE_MONTHLY_SECRET request = false ->
  POST s
  = (Normal (SilverUpdate.refusal "Unauthorized - invalid or missing secret" 401), s).
Proof.
  unfold authorized, POST, SilverUpdate.POST. cbv zeta.
  destruct (configured UPDATE_MONTHLY_SECRET); [|reflexivity].
  now intros ->.
Qed.

Hypothesis Hauth : authorized UPDATE_MONTHLY_SECRET request = true.

Lemma POST_authorized :
  exists body handler,
    POST = try_catch (bind (SilverUpdate.fetch_silver W silver) body) handler
    /\ (forall e s,
           handler e s
           = (Normal (update_failure e),
              set_console (console s ++ ["[Update Silver Monthly] Error:"])%list s))
    /\ (forall r s,
           valid_prices r = false ->
           exists c,
             body r s = (c, s)
             /\ match c with
                | Normal answer => response_status answer = 500
                | Throw e => True
                end)
    /\ (forall r s,
           valid_prices r = true ->
           match loaded_mapping SilverUpdate.filePath s with
           | Obj mapping =>
               read_only_disk s = false ->
               body r s
               = (Normal (update_success W r (clock s)),
                  set_files
                    (<[SilverUpdate.filePath :=
                         Json (Obj (Js.jsonify_props
                                      (Js.set_prop mapping (month_key W (clock s))
                                         (update_record W r (clock s)))))]> (files s))
                    (set_console
                       (console s
                        ++ load_lines SilverUpdate.filePath
                             "[Update Silver Monthly] Creating new monthly prices file"
                             s)%list s))
           | _ => True
           end)
    /\ (forall r s,
           valid_prices r = true ->
           exists c s',
             body r s = (c, s')
             /\ match c with
                | Normal answer =>
                    response_status answer = 200 /\ read_only_disk s = false
                | Throw e => files s' = files s
                end).
Proof.
  unfold authorized in Hauth. unfold POST, SilverUpdate.POST. cbv zeta.
  destruct (configured UPDATE_MONTHLY_SECRET) as [expected|]; [|discriminate].
  rewrite Hauth. cbn [negb].
  eexists _, _. split; [reflexivity|].
  split; [reflexivity|].
  assert (forall r, Js.truthy (field r "price_oz") = true ->
                    forall k, Js.get (response_body r) k = Normal (field r k)) as Hget.
  { intros r Hr k. unfold field in *. now destruct (response_body r). }
  split.
  { intros r s Hr. unfold valid_prices in Hr.
    destruct (ok_status (response_status r)); cbn [negb andb] in *;
      [|eexists; split; reflexivity].
    destruct (Js.truthy (field r "price_oz")) eqn:Hoz; cbn [andb] in Hr.
    - unfold bind at 1, lift at 1. rewrite (Hget r Hoz), Hoz. cbn [negb].
      unfold bind at 1, lift at 1. rewrite (Hget r Hoz), Hr. cbn [negb].
      eexists; split; reflexivity.
    - unfold bind at 1, lift at 1.
      destruct (Js.get (response_body r) "price_oz") as [v|e] eqn:Eg;
        [|eexists; split; [reflexivity | exact I]].
      assert (v = field r "price_oz") as ->.
      { unfold field. unfold Js.get in Eg.
        destruct (response_body r); now (discriminate || injection Eg as <-). }
      rewrite Hoz. cbn [negb]. eexists; split; reflexivity. }
  assert (forall r, valid_prices r = true ->
                    ok_status (response_status r) = true
                    /\ Js.truthy (field r "price_oz") = true
                    /\ Js.truthy (field r "price_gram_24k") = true) as Hvalid.
  { intros r Hr. unfold valid_prices in Hr.
    apply andb_prop in Hr as [Hr Hgram]. now apply andb_prop in Hr as [Hok Hoz]. }
  split.
  { intros r s Hr. destruct (Hvalid r Hr) as (Hok & Hoz & Hgram).
    rewrite Hok, !(Hget r Hoz). cbn [negb].
    unfold bind at 1, lift at 1. rewrite Hoz. cbn [negb].
    unfold bind at 1, lift at 1. rewrite Hgram. cbn [negb].
    unfold loaded_mapping, load_lines, update_success, update_record.
    unfold bind, try_catch, readFileSync, Date_now, lift, writeFileSync, JSON_stringify.
    destruct (files s !! SilverUpdate.filePath) as [[|v]|] eqn:Hfile;
      cbn -[month_key Js.jsonify]; try destruct v; try exact I;
      intros Hrw; cbn -[month_key Js.jsonify]; rewrite jsonify_Obj, Hrw.
    - reflexivity.
    - rewrite app_nil_r. now destruct s.
    - reflexivity. }
  intros r s Hr. destruct (Hvalid r Hr) as (Hok & Hoz & Hgram).
  rewrite Hok, !(Hget r Hoz). cbn [negb].
  unfold bind at 1, lift at 1. rewrite Hoz. cbn [negb].
  unfold bind at 1, lift at 1. rewrite Hgram. cbn [negb].
  unfold bind, try_catch, readFileSync, Date_now, lift, writeFileSync, JSON_stringify.
  destruct (files s !! SilverUpdate.filePath) as [[|v]|] eqn:Hfile;
    cbn -[month_key Js.jsonify]; try destruct v; cbn -[month_key Js.jsonify];
    rewrite ?jsonify_Obj; try (destruct (Js.jsonify (Arr _)); cbn -[month_key Js.jsonify]);
    try (destruct (read_only_disk s) eqn:Hrw); cbn -[month_key Js.jsonify];
    eexists _, _; (split; [reflexivity|]); cbn; auto.
Qed.

End UpdateFacts.

(** X7. The monthly update never throws. Without the configured secret in
    the query (no secret configured, an empty one, or another one than the
    query's) it answers 401 and does nothing at all: the silver route is not
    called and no file is read or written. With it, the answer is 200 or
    500. *)
Theorem update_guard (W : World) (UPDATE_MONTHLY_SECRET : option string)
    (silver : Request -> M Response) (request : UpdateRequest) (s : State) :
  exists response s',
    SilverUpdate.POST W UPDATE_MONTHLY_SECRET silver request s = (Normal response, s')
    /\ (authorized UPDATE_MONTHLY_SECRET request = false ->
        response = SilverUpdate.refusal "Unauthorized - invalid or missing secret" 401
        /\ s' = s)
    /\ (authorized UPDATE_MONTHLY_SECRET request = true ->
        response_status response = 200 \/ response_status response = 500).
Proof.
  destruct (POST_total W UPDATE_MONTHLY_SECRET silver request s) as (response & s' & E).
  exists response, s'. split; [exact E|]. split.
  - intros Hno. rewrite (POST_unauthorized _ _ _ _ _ Hno) in E. now inversion E.
  - intros Hyes.
    revert E. revert s response s'.
    change (returns (fun r => response_status r = 200 \/ response_status r = 500)
              (SilverUpdate.POST W UPDATE_MONTHLY_SECRET silver request)).
    unfold authorized in Hyes. unfold SilverUpdate.POST. cbv zeta.
    destruct (configured UPDATE_MONTHLY_SECRET); [|discriminate].
    rewrite Hyes. cbn [negb].
    repeat returns_step; cbn; auto.
Qed.

(** X8. The monthly update feeds the snapshot read of the silver routes.
    When the query has the configured secret, the silver route answers with
    a success status and truthy prices, the disk can be written and the file
    holds a mapping (or cannot be loaded), the update answers 200 with the
    month, and a snapshot read of a silver route that finds the files the
    update left, in the same month, returns the prices of the silver route's
    answer under the provider [monthly-fallback]. *)
Theorem update_feeds_fallback (W : World) (UPDATE_MONTHLY_SECRET : option string)
    (silver : Request -> M Response) (request : UpdateRequest) :
  authorized UPDATE_MONTHLY_SECRET request = true ->
  forall s response s1 mapping route later,
    SilverUpdate.fetch_silver W silver s = (Normal response, s1) ->
    valid_prices response = true ->
    read_only_disk s1 = false ->
    loaded_mapping SilverUpdate.filePath s1 = Obj mapping ->
    In route [silver_route W; silver_fx_route W] ->
    files later
    = files (snd (SilverUpdate.POST W UPDATE_MONTHLY_SECRET silver request s)) ->
    month_key W (clock later) = month_key W (clock s1) ->
    fst (SilverUpdate.POST W UPDATE_MONTHLY_SECRET silver request s)
    = Normal (update_success W response (clock s1))
    /\ exists fallback,
         snapshot_read route later = (Normal (Some fallback), later)
         /\ Js.own fallback "provider" = Some (Str "monthly-fallback")
         /\ Js.own fallback "price_oz" = Js.jsonify (field response "price_oz")
         /\ Js.own fallback "price_gram_24k"
            = Js.jsonify (field response "price_gram_24k").
Proof.
  intros Hauth s response s1 mapping route later Hfetch Hvalid Hrw Hload Hroute
    Hfiles Hmonth.
  destruct (POST_authorized W UPDATE_MONTHLY_SECRET silver request Hauth)
    as (body & handler & E & _ & _ & Hstore & _).
  specialize (Hstore response s1 Hvalid). rewrite Hload in Hstore.
  specialize (Hstore Hrw).
  rewrite E in *. unfold try_catch, bind in *. rewrite Hfetch, Hstore in *.
  cbn [fst snd] in *. split; [reflexivity|].
  unfold valid_prices in Hvalid.
  apply andb_prop in Hvalid as [Hvalid Hgram].
  apply andb_prop in Hvalid as [_ Hoz].
  destruct (truthy_jsonify _ Hoz) as [oz Eoz].
  destruct (truthy_jsonify _ Hgram) as [gram Egram].
  set (record := Obj (Js.jsonify_props
                        [("price", field response "price_oz");
                         ("price_oz", field response "price_oz");
                         ("price_gram_24k", field response "price_gram_24k");
                         ("currency",
                          if Js.truthy (field response "currency")
                          then field response "currency" else Str "CAD");
                         ("provider", field response "provider");
                         ("cached", Bool true);
                         ("timestamp", Str (toISOString W (clock s1)))])).
  assert (getMonthlyFallback W SilverUpdate.filePath
            "[Silver Monthly Fallback] Error reading monthly prices:" later
          = (Normal (Some (tagged_fallback record)), later)) as Hread.
  { eapply getMonthlyFallback_current; [| |reflexivity].
    - rewrite Hfiles. cbn. apply lookup_insert_eq.
    - rewrite Hmonth. cbn [Js.get Js.member].
      now rewrite (own_jsonify_set_prop mapping _ _ record (jsonify_Obj _)). }
  exists (tagged_fallback record).
  split; [destruct Hroute as [<- | [<- | []]]; exact Hread|].
  unfold tagged_fallback. split; [apply own_set_prop_eq|].
  rewrite !own_set_prop_ne by discriminate.
  unfold record. cbn [Js.spread].
  rewrite !jsonify_props_cons, Eoz, Egram.
  split; [reflexivity|].
  cbn [Js.own String.eqb Ascii.eqb Bool.eqb]. reflexivity.
Qed.

(** X9. The monthly update stores all or nothing. With a silver route that
    writes no file (the second silver route), whatever goes wrong (a wrong
    secret, a rejected or failed call of the silver route, a falsy price, a
    file that holds no mapping, a disk that cannot be written), an answer
    other than 200 comes with the files as they were, and on a disk that
    cannot be written the answer is never 200. *)
Theorem update_all_or_nothing (W : World) (UPDATE_MONTHLY_SECRET : option string)
    (silver : Request -> M Response) (request : UpdateRequest) :
  (forall r, keeps files (silver r)) ->
  forall s response s',
    SilverUpdate.POST W UPDATE_MONTHLY_SECRET silver request s = (Normal response, s') ->
    (response_status response <> 200 -> files s' = files s)
    /\ ((forall r, keeps read_only_disk (silver r)) ->
        read_only_disk s = true -> response_status response <> 200).
Proof.
  intros Hfiles s response s' E.
  destruct (authorized UPDATE_MONTHLY_SECRET request) eqn:Hauth.
  2:{ rewrite (POST_unauthorized _ _ _ _ _ Hauth) in E. inversion E; subst.
      split; [reflexivity | discriminate]. }
  destruct (POST_authorized W UPDATE_MONTHLY_SECRET silver request Hauth)
    as (body & handler & E' & Hhandler & Hinvalid & _ & Hvalid).
  rewrite E' in E. unfold try_catch, bind in E.
  pose proof (fetch_silver_keeps files W silver Hfiles s) as Hf.
  assert ((forall r, keeps read_only_disk (silver r)) ->
          read_only_disk
            (snd (SilverUpdate.fetch_silver W silver s)) = read_only_disk s) as Hd
    by (intros Hk; now apply fetch_silver_keeps).
  destruct (SilverUpdate.fetch_silver W silver s) as [[r|e] s1]; cbn [snd] in Hf, Hd.
  2:{ rewrite Hhandler in E. inversion E; subst. split; [easy | discriminate]. }
  destruct (valid_prices r) eqn:Hr.
  - destruct (Hvalid r s1 Hr) as (c & s2 & Eb & Hc). rewrite Eb in E.
    destruct c as [answer|e].
    + inversion E; subst. destruct Hc as [H200 Hrw]. split; [easy|].
      intros Hk Hro. rewrite <- (Hd Hk) in Hro. congruence.
    + rewrite Hhandler in E. inversion E; subst.
      split; [intros _; cbn; congruence | discriminate].
  - destruct (Hinvalid r s1 Hr) as (c & Eb & Hc). rewrite Eb in E.
    destruct c as [answer|e].
    + inversion E; subst. split; [easy|]. intros _ _. rewrite Hc. discriminate.
    + rewrite Hhandler in E. inversion E; subst. split; [easy | discriminate].
Qed.

Lemma update_feeds_fallback_witness :
  exists fallback,
    SilverFx.getMonthlyFallback silver_world
      (snd (SilverUpdate.POST silver_world update_secret (SilverFx.GET silver_world)
              update_request boot))
    = (Normal (Some fallback),
       snd (SilverUpdate.POST silver_world update_secret (SilverFx.GET silver_world)
              update_request boot))
    /\ Js.own fallback "provider" = Some (Str "monthly-fallback")
    /\ Js.own fallback "price_oz" = Some (Num 42).
Proof.
  pose (r := SilverUpdate.fetch_silver silver_world (SilverFx.GET silver_world) boot).
  pose (response := match fst r with
                    | Normal response => response
                    | Throw _ => SilverUpdate.refusal "" 500
                    end).
  destruct (update_feeds_fallback silver_world update_secret
              (SilverFx.GET silver_world) update_request eq_refl
              boot response (snd r) [] (silver_fx_route silver_world)
              (snd (SilverUpdate.POST silver_world update_secret
                      (SilverFx.GET silver_world) update_request boot)))
    as (_ & fallback & Hread & Hprovider & Hoz & _).
  - vm_compute. reflexivity.
  - vm_compute. reflexivity.
  - reflexivity.
  - reflexivity.
  - right. left. reflexivity.
  - reflexivity.
  - reflexivity.
  - exists fallback. split; [exact Hread|]. split; [exact Hprovider|].
    rewrite Hoz. vm_compute. reflexivity.
Defined.

Lemma update_all_or_nothing_witness :
  files (snd (SilverUpdate.POST silver_world update_secret (SilverFx.GET silver_world)
                update_request (set_read_only_disk true boot)))
  = files (set_read_only_disk true boot).
Proof.
  pose (r := SilverUpdate.POST silver_world update_secret (SilverFx.GET silver_world)
               update_request (set_read_only_disk true boot)).
  pose (response := match fst r with
                    | Normal response => response
                    | Throw _ => SilverUpdate.refusal "" 200
                    end).
  apply (proj1 (update_all_or_nothing silver_world update_secret
                  (SilverFx.GET silver_world) update_request
                  (fun request =>
                     handler_keeps silver_world (silver_fx_route silver_world) files
                       request (or_intror (or_intror (or_introl eq_refl)))
                       (fun p => keeps_ret files tt))
                  (set_read_only_disk true boot) response (snd r)
                  ltac:(vm_compute; reflexivity))).
  vm_compute. discriminate.
Defined.

(** ** The keys of goldapi.io *)

Section GoldApiKeys.

Variable W : World.
Variable symbol : string.
Variable payload_type : option string.
Variable goldapi_error_line : string -> string.

Let from := fetchGoldApiIo_from W symbol payload_type goldapi_error_line.

(** Keys that are unset or empty cost nothing: no request, no console
    line; only the position moves on. *)
Lemma fetchGoldApiIo_from_unconfigured pre rest i :
  Forall (fun k => configured k = None) pre ->
  from i (pre ++ rest)%list = from (i + length pre)%nat rest.
Proof.
  intros Hpre. revert i. induction Hpre as [|k pre Hk _ IH]; intros i.
  - cbn. now rewrite Nat.add_0_r.
  - unfold from in *. cbn [app fetchGoldApiIo_from length]. rewrite Hk, IH.
    f_equal. lia.
Qed.

Lemma fetchGoldApiIo_from_answer i k rest s key e r data p g :
  configured k = Some key ->
  network W (clock s) (goldapi_request symbol key)
  = {| elapsed := e; result := Resolved r |} ->
  ok r = true ->
  json_body r = Some data ->
  Js.get data "price" = Normal (Num p) ->
  Js.get data "price_gram_24k" = Normal (Num g) ->
  from i (k :: rest) s
  = (Normal (Some {| price_oz := p;
                     price_gram_24k := g;
                     currency := "CAD";
                     provider := "goldapi.io (" ++ key_name i ++ ")";
                     type := payload_type;
                     cached := None |}),
     after_request (goldapi_request symbol key) e s).
Proof.
  intros Hkey Hnet Hok Hjson Hprice Hgram.
  unfold from. cbn [fetchGoldApiIo_from]. rewrite Hkey.
  unfold bind at 1, try_catch, bind at 1, fetch. rewrite Hnet. cbn [result elapsed].
  rewrite Hok. unfold bind at 1, response_json. rewrite Hjson.
  unfold ret at 1, bind at 1, lift at 1. rewrite Hprice.
  unfold bind at 1, lift at 1. rewrite Hgram. reflexivity.
Qed.

End GoldApiKeys.

(** X10. The goldapi.io adapter of every route skips the keys that are unset
    or empty without a request, and the tag of its payload names the
    environment variable of the key that worked, not the number of the
    attempt: when the keys before a configured one are unset or empty and
    its request gets a success status and a body with numeric [price] and
    [price_gram_24k], the payload is tagged with that key's variable, one
    request has been sent, and the other keys are not used. When no key is
    configured the adapter returns nothing: no request is sent and no error
    line is written. *)
Theorem goldapi_key_rotation (W : World) (symbol : string)
    (payload_type : option string) (line : string -> string) :
  (forall s pre k post key e r data p g,
      GOLD_API_KEYS W = (pre ++ k :: post)%list ->
      Forall (fun k => configured k = None) pre ->
      configured k = Some key ->
      network W (clock s) (goldapi_request symbol key)
      = {| elapsed := e; result := Resolved r |} ->
      ok r = true ->
      json_body r = Some data ->
      Js.get data "price" = Normal (Num p) ->
      Js.get data "price_gram_24k" = Normal (Num g) ->
      fetchGoldApiIo W symbol payload_type line s
      = (Normal (Some {| price_oz := p;
                         price_gram_24k := g;
                         currency := "CAD";
                         provider := "goldapi.io (" ++ key_name (length pre) ++ ")";
                         type := payload_type;
                         cached := None |}),
         after_request (goldapi_request symbol key) e s))
  /\ (Forall (fun k => configured k = None) (GOLD_API_KEYS W) ->
      forall s, fetchGoldApiIo W symbol payload_type line s = (Normal None, s)).
Proof.
  split.
  - intros s pre k post key e r data p g Hkeys Hpre Hkey Hnet Hok Hjson Hprice Hgram.
    unfold fetchGoldApiIo. rewrite Hkeys.
    rewrite (fetchGoldApiIo_from_unconfigured W symbol payload_type line pre _ 0 Hpre).
    now apply fetchGoldApiIo_from_answer with (r := r) (data := data).
  - intros Hnone s. unfold fetchGoldApiIo.
    rewrite <- (app_nil_r (GOLD_API_KEYS W)).
    now rewrite (fetchGoldApiIo_from_unconfigured W symbol payload_type line _ [] 0 Hnone).
Qed.

Lemma goldapi_key_rotation_witness :
  exists p,
    fst (Gold.fetchGoldApiIo
           (second_key_world (Obj [("price", Num 100); ("price_gram_24k", Num 3)]))
           boot)
    = Normal (Some p)
    /\ provider p = "goldapi.io (GOLD_API_KEY_2)".
Proof.
  eexists. split.
  - unfold Gold.fetchGoldApiIo.
    rewrite (proj1 (goldapi_key_rotation
                      (second_key_world
                         (Obj [("price", Num 100); ("price_gram_24k", Num 3)]))
                      "XAU" None _)
               boot [Some ""] (Some "g2") [Some "g3"] "g2" 40%N
               {| status := 200;
                  json_body := Some (Obj [("price", Num 100); ("price_gram_24k", Num 3)]);
                  text_body := "" |}
               (Obj [("price", Num 100); ("price_gram_24k", Num 3)]) 100%float 3%float
               eq_refl ltac:(repeat constructor) eq_refl eq_refl eq_refl eq_refl
               eq_refl eq_refl).
    reflexivity.
  - reflexivity.
Defined.

(** ** The handler that loops over the goldapi.io keys *)

#[global] Instance WireKept_console : WireKept console.
Proof. now split. Qed.

Lemma GoldKeys_try_keys_total W keys : total (GoldKeys.try_keys W keys).
Proof.
  induction keys as [|k rest IH]; cbn [GoldKeys.try_keys]; [apply total_ret|].
  destruct (configured k); [|exact IH].
  apply total_bind; [apply total_try_catch; intros e; apply total_ret|].
  intros [data|]; [apply total_ret | exact IH].
Qed.

(** X11. The handler that loops over the goldapi.io keys answers 500 when no
    key yields a body, after one console line. When a key yields a body, it
    answers 200 with the single field [price] read from the body
    ([price_gram_24k] with [grams=true], [price] otherwise), except that a
    body of JSON [null] makes the handler throw a [TypeError]: the read of
    the price is outside the [try]. The loop itself writes no console
    line. *)
Theorem key_loop_answers (W : World) (request : Request) (s : State) :
  exists found s1,
    GoldKeys.try_keys W (GOLD_API_KEYS W) s = (Normal found, s1)
    /\ console s1 = console s
    /\ GoldKeys.GET W request s
       = match found with
         | None =>
             (Normal key_loop_failure,
              set_console (console s1 ++ ["Error fetching gold data:"])%list s1)
         | Some Null | Some Undefined => (Throw Js.TypeError, s1)
         | Some data => (Normal (key_loop_price (wants_grams request) data), s1)
         end.
Proof.
  destruct (GoldKeys_try_keys_total W (GOLD_API_KEYS W) s) as (found & s1 & E).
  exists found, s1. split; [exact E|]. split.
  - pose proof (GoldKeys_try_keys_keeps console W (GOLD_API_KEYS W) s) as K.
    now rewrite E in K.
  - unfold GoldKeys.GET. cbv zeta. unfold bind at 1. rewrite E.
    destruct found as [[]|]; reflexivity.
Qed.

(** A body of JSON [null] under the second key: the handler throws. *)
Lemma key_loop_throws_on_null :
  fst (GoldKeys.GET (second_key_world Null) plain_request boot) = Throw Js.TypeError.
Proof. vm_compute. reflexivity. Qed.

(** ** The requests of a resolution *)

Lemma sends_free {A : Type} n (m : M A) : keeps requests m -> sends n m.
Proof.
  intros Hk s. exists []. rewrite (Hk s), app_nil_r. split; [reflexivity | cbn; lia].
Qed.

Lemma sends_weaken {A : Type} n n' (m : M A) :
  (n <= n')%nat -> sends n m -> sends n' m.
Proof.
  intros Hle Hm s. destruct (Hm s) as (sent & E & Hn). exists sent. split; [exact E | lia].
Qed.

Section SendsRules.

Context {A B : Type}.

Lemma sends_bind n k (m : M A) (f : A -> M B) :
  sends n m -> (forall a, sends k (f a)) -> sends (n + k) (bind m f).
Proof.
  intros Hm Hf s. unfold bind. destruct (Hm s) as (sent1 & E1 & Hn).
  destruct (m s) as [[a|e] s1]; cbn [snd] in *.
  - destruct (Hf a s1) as (sent2 & E2 & Hk). exists (sent1 ++ sent2)%list.
    rewrite E2, E1, <- app_assoc. split; [reflexivity|].
    rewrite length_app. lia.
  - exists sent1. split; [exact E1 | lia].
Qed.

Lemma sends_bind_l n (m : M A) (f : A -> M B) :
  sends n m -> (forall a, keeps requests (f a)) -> sends n (bind m f).
Proof.
  intros Hm Hf. apply (sends_weaken (n + 0)); [lia|].
  apply sends_bind; [exact Hm|]. intros a. now apply sends_free.
Qed.

Lemma sends_bind_r n (m : M A) (f : A -> M B) :
  keeps requests m -> (forall a, sends n (f a)) -> sends n (bind m f).
Proof.
  intros Hm Hf. change n with (0 + n)%nat.
  apply sends_bind; [now apply sends_free | exact Hf].
Qed.

Lemma sends_try_catch n (body : M A) (handler : thrown -> M A) :
  sends n body -> (forall e, keeps requests (handler e)) ->
  sends n (try_catch body handler).
Proof.
  intros Hb Hh s. unfold try_catch. destruct (Hb s) as (sent & E & Hn).
  destruct (body s) as [[a|e] s1]; cbn [snd] in *.
  - now exists sent.
  - exists sent. rewrite (Hh e s1). now split.
Qed.

Lemma sends_fetch W req : sends 1 (fetch W req).
Proof.
  intros s. exists [req]. split; [|cbn; lia].
  unfold fetch. cbv zeta. now destruct (result _).
Qed.

End SendsRules.

(** Code that sends nothing. *)
Ltac free :=
  repeat (keeps_step
          || (apply keeps_console_line; typeclasses eauto)
          || (apply keeps_writeFileSync; typeclasses eauto)
          || (apply keeps_getCachedPrice; typeclasses eauto)
          || (apply keeps_setCachedPrice; typeclasses eauto)).

(** One request, then none. *)
Ltac one_request :=
  apply sends_try_catch;
  [apply sends_bind_l; [apply sends_fetch | intros ?; free]
  |intros ?; free].

Lemma list_sum_cons n ns : list_sum (n :: ns) = (n + list_sum ns)%nat.
Proof. reflexivity. Qed.

Section AdapterSends.

Variable W : World.
Variable symbol : string.
Variable payload_type : option string.
Variable goldapi_error_line : string -> string.
Variable metals_error_line : string.
Variable fcsapi_error_line : string.

Lemma fetchGoldApiIo_from_sends keys i :
  sends (list_sum (map keyed keys))
    (fetchGoldApiIo_from W symbol payload_type goldapi_error_line i keys).
Proof.
  revert i. induction keys as [|k rest IH]; intros i;
    cbn [fetchGoldApiIo_from map]; rewrite ?list_sum_cons.
  - apply sends_free, keeps_ret.
  - unfold keyed at 1. destruct (configured k); [|apply IH].
    apply sends_bind; [one_request|].
    intros [p|]; [apply sends_free, keeps_ret | apply IH].
Qed.

Lemma fetchMetalsApi_sends :
  sends (keyed (METALS_API_KEY W))
    (fetchMetalsApi W symbol payload_type metals_error_line).
Proof.
  unfold fetchMetalsApi, keyed.
  destruct (configured (METALS_API_KEY W)); [one_request | apply sends_free, keeps_ret].
Qed.

Lemma fetchFcsApi_sends :
  sends (keyed (FCS_API_KEY W))
    (fetchFcsApi W symbol payload_type fcsapi_error_line).
Proof.
  unfold fetchFcsApi, keyed.
  destruct (configured (FCS_API_KEY W)); [one_request | apply sends_free, keeps_ret].
Qed.

End AdapterSends.

Lemma fetchGoldPriceOrg_sends W : sends 1 (fetchGoldPriceOrg W).
Proof. unfold fetchGoldPriceOrg. one_request. Qed.

Lemma SilverFx_fetchFcsApi_sends W :
  sends (keyed (FCS_API_KEY W) + keyed (FCS_API_KEY W)) (SilverFx.fetchFcsApi W).
Proof.
  unfold SilverFx.fetchFcsApi, keyed.
  destruct (configured (FCS_API_KEY W)); [|apply sends_free, keeps_ret].
  apply sends_try_catch; [|intros ?; free].
  apply sends_bind; [apply sends_fetch|]. intros silverResponse.
  destruct (negb (ok silverResponse)); [apply sends_free, keeps_ret|].
  apply sends_bind_r; [free|]. intros silverData.
  apply sends_bind_r; [free|]. intros silverTicker.
  destruct (negb _); [apply sends_free, keeps_ret|].
  apply sends_bind_r; [free|]. intros active.
  apply sends_bind_r; [free|]. intros c. cbv zeta.
  apply sends_bind_l; [apply sends_fetch|]. intros forexResponse.
  free.
Qed.

Section HandlerSends.

Variable cacheKey : string.
Variable snapshot_write : Payload -> M unit.
Variable monthly_fallback : M (option props).
Variable thrown_line : string -> option string.
Variable failure_line : string.
Variable failure_error : string.

Hypothesis write_free : forall p, keeps requests (snapshot_write p).
Hypothesis fallback_free : keeps requests monthly_fallback.

Lemma try_providers_sends debug grams ps ns errors :
  Forall2 (fun nf n => sends n (snd nf)) ps ns ->
  sends (list_sum ns)
    (try_providers cacheKey snapshot_write thrown_line debug grams ps errors).
Proof.
  intros Hps. revert errors.
  induction Hps as [|[name fn] n ps ns Hfn _ IH]; intros errors;
    cbn [try_providers]; rewrite ?list_sum_cons.
  - apply sends_free, keeps_ret.
  - cbn [snd] in Hfn. apply sends_bind.
    + apply sends_try_catch; [|intros ?; free].
      apply sends_bind_l; [exact Hfn|].
      intros [p|]; repeat (keeps_step || apply write_free || (apply keeps_setCachedPrice; typeclasses eauto)).
    + intros [response|errors']; [apply sends_free, keeps_ret | apply IH].
Qed.

Lemma GET_with_sends providers ns request :
  Forall2 (fun nf n => sends n (snd nf)) providers ns ->
  sends (list_sum ns)
    (GET_with cacheKey providers snapshot_write monthly_fallback
       thrown_line failure_line failure_error request).
Proof.
  intros Hps. unfold GET_with. cbv zeta.
  apply sends_bind_r; [now apply read_cache_keeps|].
  intros [hit|]; [apply sends_free, keeps_ret|].
  apply sends_bind_l; [now apply try_providers_sends|].
  intros [response|errors]; repeat (keeps_step || exact fallback_free || (apply keeps_console_line; typeclasses eauto)).
Qed.

End HandlerSends.

Lemma NisabChain_try_providers_sends debug ps ns :
  Forall2 (fun nf n => sends n (snd nf)) ps ns ->
  sends (list_sum ns) (NisabChain.try_providers debug ps).
Proof.
  induction 1 as [|[name fn] n ps ns Hfn _ IH]; cbn [NisabChain.try_providers]; rewrite ?list_sum_cons.
  - apply sends_free, keeps_ret.
  - cbn [snd] in Hfn. apply sends_bind.
    + apply sends_try_catch; [|intros ?; free].
      apply sends_bind_l; [exact Hfn|]. intros [p|]; free.
    + intros [response|]; [apply sends_free, keeps_ret | apply IH].
Qed.

Lemma GoldKeys_try_keys_sends W keys :
  sends (list_sum (map keyed keys)) (GoldKeys.try_keys W keys).
Proof.
  induction keys as [|k rest IH]; cbn [GoldKeys.try_keys map]; rewrite ?list_sum_cons.
  - apply sends_free, keeps_ret.
  - unfold keyed at 1. destruct (configured k); [|apply IH].
    apply sends_bind; [one_request|].
    intros [data|]; [apply sends_free, keeps_ret | apply IH].
Qed.

(** X12. The requests of one resolution are bounded by the keys that are
    configured. A key that is unset or empty costs no request; the gold
    route sends at most one request for each configured key and one to
    goldprice.org, so at most six; the silver route and the nisab route with
    a waterfall of its own at most one for each configured key, so at most
    five; the second silver route one more when the fcsapi key is
    configured (the currency lookup); the handler that loops over the
    goldapi.io keys at most three. No handler removes a request from the
    log. *)
Theorem upstream_budget (W : World) (request : Request) :
  sends (keyed_budget W + 1) (Gold.GET W request)
  /\ sends (keyed_budget W) (Silver.GET W request)
  /\ sends (keyed_budget W + keyed (FCS_API_KEY W)) (SilverFx.GET W request)
  /\ sends (keyed_budget W) (NisabChain.GET W request)
  /\ sends (list_sum (map keyed (GOLD_API_KEYS W))) (GoldKeys.GET W request)
  /\ (keyed_budget W <= 5)%nat
  /\ (list_sum (map keyed (GOLD_API_KEYS W)) <= 3)%nat.
Proof.
  assert (forall symbol ty line,
             sends (list_sum (map keyed (GOLD_API_KEYS W)))
               (fetchGoldApiIo W symbol ty line)) as Hgold
    by (intros; apply fetchGoldApiIo_from_sends).
  split; [|split; [|split; [|split; [|split; [|split]]]]].
  - eapply sends_weaken;
      [|apply (GET_with_sends Gold.cacheKey _ _ _ _ _
                 (fun p => updateMonthlyPriceFile_keeps W _ _ _ requests p)
                 (getMonthlyFallback_keeps W _ _ requests)
                 (Gold.providers W)
                 [list_sum (map keyed (GOLD_API_KEYS W)); keyed (METALS_API_KEY W);
                  keyed (FCS_API_KEY W); 1%nat])].
    + unfold keyed_budget. rewrite !list_sum_cons. cbn [list_sum fold_right]. lia.
    + repeat constructor; cbn [snd].
      * apply Hgold.
      * apply fetchMetalsApi_sends.
      * apply fetchFcsApi_sends.
      * apply fetchGoldPriceOrg_sends.
  - eapply sends_weaken;
      [|apply (GET_with_sends Silver.cacheKey _ _ _ _ _
                 (fun p => updateMonthlyPriceFile_keeps W _ _ _ requests p)
                 (getMonthlyFallback_keeps W _ _ requests)
                 (Silver.providers W)
                 [list_sum (map keyed (GOLD_API_KEYS W)); keyed (METALS_API_KEY W);
                  keyed (FCS_API_KEY W)])].
    + unfold keyed_budget. rewrite !list_sum_cons. cbn [list_sum fold_right]. lia.
    + repeat constructor; cbn [snd].
      * apply Hgold.
      * apply fetchMetalsApi_sends.
      * apply fetchFcsApi_sends.
  - eapply sends_weaken;
      [|apply (GET_with_sends SilverFx.cacheKey _ _ _ _ _
                 (fun p => keeps_ret requests tt)
                 (getMonthlyFallback_keeps W _ _ requests)
                 (SilverFx.providers W)
                 [list_sum (map keyed (GOLD_API_KEYS W)); keyed (METALS_API_KEY W);
                  (keyed (FCS_API_KEY W) + keyed (FCS_API_KEY W))%nat])].
    + unfold keyed_budget. rewrite !list_sum_cons. cbn [list_sum fold_right]. lia.
    + repeat constructor; cbn [snd].
      * apply Hgold.
      * apply fetchMetalsApi_sends.
      * apply SilverFx_fetchFcsApi_sends.
  - unfold NisabChain.GET. cbv zeta.
    apply sends_bind_r; [destruct (wants_debug request); free|].
    intros [hit|]; [apply sends_free, keeps_ret|].
    apply sends_bind_l.
    + eapply sends_weaken;
        [|apply (NisabChain_try_providers_sends _ (NisabChain.providers W)
                   [list_sum (map keyed (GOLD_API_KEYS W)); keyed (METALS_API_KEY W);
                    keyed (FCS_API_KEY W)])].
      * unfold keyed_budget. rewrite !list_sum_cons. cbn [list_sum fold_right]. lia.
      * repeat constructor; cbn [snd].
        -- apply Hgold.
        -- apply fetchMetalsApi_sends.
        -- apply fetchFcsApi_sends.
    + intros [response|]; [apply keeps_ret|].
      apply keeps_bind; [now apply getMonthlyFallback_keeps|].
      intros [fallback|]; free.
  - unfold GoldKeys.GET. cbv zeta.
    apply sends_bind_l; [apply GoldKeys_try_keys_sends|].
    intros [data|]; free.
  - unfold keyed_budget, GOLD_API_KEYS, keyed. cbn [map list_sum].
    repeat match goal with |- context [configured ?k] => destruct (configured k) end;
      cbn; lia.
  - unfold GOLD_API_KEYS, keyed. cbn [map list_sum].
    repeat match goal with |- context [configured ?k] => destruct (configured k) end;
      cbn; lia.
Qed.

(** ** The nisab route with a waterfall of its own *)

(** X13. The nisab route with a waterfall of its own always answers (it
    never throws), with 200 or 500. A 200 answer, whether it comes from the
    cache, from a provider or from the snapshot, reports a nisab of 85 times
    the number of the gram price it reports, and 85 as the nisab grams; a
    500 answer has the error text and no nisab. *)
Theorem nisab_chain_answers (W : World) (request : Request) :
  total (NisabChain.GET W request)
  /\ returns
       (fun r =>
          (response_status r = 200 /\ nisab_of W r)
          \/ (response_status r = 500
              /\ field r "error" = Str "Failed to fetch nisab value from all providers"
              /\ field r "nisab" = Undefined))
       (NisabChain.GET W request).
Proof.
  split.
  - unfold NisabChain.GET. cbv zeta. apply total_bind.
    { destruct (wants_debug request); [apply total_ret|].
      intros s. destruct (getCachedPrice_cases NisabChain.cacheKey s)
        as [[_ E] | [(entry & _ & _ & E) | (entry & _ & _ & E)]];
        rewrite E; now eexists _, _. }
    intros [hit|]; [apply total_ret|].
    apply total_bind.
    { apply NisabChain_try_providers_total. repeat constructor; cbn [snd].
      - apply fetchGoldApiIo_total.
      - apply fetchMetalsApi_total.
      - apply fetchFcsApi_total. }
    intros [response|]; [apply total_ret|].
    apply total_bind; [apply getMonthlyFallback_total|].
    intros [fallback|]; repeat total_step.
  - unfold NisabChain.GET. cbv zeta.
    apply returns_bind_any. intros [hit|].
    { apply returns_ret. left. apply payload_response_nisab. }
    eapply returns_bind; [apply (NisabChain_try_providers_returns W)|].
    intros [response|] Hlive.
    { apply returns_ret. left. now apply Hlive. }
    apply returns_bind_any. intros [fallback|].
    + apply returns_ret. left. split; [reflexivity|].
      exists (default Undefined (Js.own fallback "price_gram_24k")).
      unfold NisabChain.nisab_response.
      rewrite !field_NextResponse_json by distinct_keys. repeat split.
    + apply returns_bind_any. intros _. apply returns_ret. right.
      rewrite !field_NextResponse_json by distinct_keys. repeat split.
Qed.

(** ** The currency lookup of the second silver route *)

(** X14. In the silver route whose fcsapi adapter converts a USD quote, once
    the quote is read: when the currency lookup answers with a success
    status and a JSON body with a truthy [rate], the payload's ounce price
    is the USD ounce price multiplied by the number of that rate, and its
    gram price that product divided by 31.1034768. *)
Theorem fcsapi_upstream_rate (W : World) (s : State) (key : string)
    (e1 e2 : N) (r1 r2 : HttpResponse) (silverData forexData : value) (usd : float) :
  configured (FCS_API_KEY W) = Some key ->
  network W (clock s) (SilverFx.silver_request key)
  = {| elapsed := e1; result := Resolved r1 |} ->
  ok r1 = true ->
  json_body r1 = Some silverData ->
  usd_quote W silverData = Some usd ->
  network W (clock s + Z.of_N e1) SilverFx.forex_request
  = {| elapsed := e2; result := Resolved r2 |} ->
  ok r2 = true ->
  json_body r2 = Some forexData ->
  Js.truthy (Js.opt forexData "rate") = true ->
  fst (SilverFx.fetchFcsApi W s)
  = Normal (Some {| price_oz := (usd * ToNumber W (Js.opt forexData "rate"))%float;
                    price_gram_24k :=
                      (usd * ToNumber W (Js.opt forexData "rate") / 31.1034768)%float;
                    currency := "CAD";
                    provider := "fcsapi";
                    type := None;
                    cached := None |}).
Proof.
  intros Hkey Hquote Hok1 Hbody1 Husd Hforex Hok2 Hbody2 Hrate.
  destruct (fetchFcsApi_to_lookup W s key e1 r1 silverData usd Hkey Hquote Hok1 Hbody1
              Husd) as (s1 & Hclock & ->).
  unfold try_catch, bind at 1, fetch. rewrite Hclock, Hforex. cbn [result].
  rewrite Hok2. cbn [negb]. unfold bind at 1, response_json. rewrite Hbody2.
  unfold ret at 1. rewrite Hrate.
  assert (Js.get forexData "rate" = Normal (Js.opt forexData "rate")) as ->
    by (destruct forexData; try reflexivity; discriminate).
  reflexivity.
Qed.

Lemma fcsapi_upstream_rate_witness :
  exists p,
    fst (SilverFx.fetchFcsApi (fx_world (json_reply 200 (Obj [("rate", Num 1.5)]))) boot)
    = Normal (Some p)
    /\ price_oz p = 45%float.
Proof.
  eexists. split.
  - apply (fcsapi_upstream_rate (fx_world (json_reply 200 (Obj [("rate", Num 1.5)])))
             boot "f1" 40%N 40%N
             {| status := 200; json_body := Some silver_quote; text_body := "" |}
             {| status := 200; json_body := Some (Obj [("rate", Num 1.5)]);
                text_body := "" |}
             silver_quote (Obj [("rate", Num 1.5)]) 30%float);
      reflexivity.
  - vm_compute. reflexivity.
Defined.

(** ** The order of the month keys *)

Lemma ascii_compare_refl c : Ascii.compare c c = Eq.
Proof.
  destruct (Ascii.compare c c) eqn:E; [reflexivity| |];
    pose proof (Ascii.compare_antisym c c) as H; rewrite E in H; discriminate.
Qed.

Lemma string_ltb_prefix a b c : String.ltb (a ++ b) (a ++ c) = String.ltb b c.
Proof.
  unfold String.ltb. induction a as [|x a IH]; [reflexivity|].
  change (String.compare (String x a ++ b) (String x a ++ c))
    with (match Ascii.compare x x with
          | Eq => String.compare (a ++ b) (a ++ c)
          | ne => ne
          end).
  now rewrite ascii_compare_refl.
Qed.

(** X15. Within a year the month keys sort as the months do: the month is
    padded to two digits, so that the key of an earlier month is strictly
    less, as a string, than the key of a later one, which is what the
    snapshot read relies on when it takes the greatest key. *)
Theorem month_key_order (W : World) (t1 t2 : Z) :
  getFullYear W t1 = getFullYear W t2 ->
  0 <= getMonth W t1 ->
  getMonth W t1 < getMonth W t2 ->
  getMonth W t2 <= 11 ->
  String.ltb (month_key W t1) (month_key W t2) = true.
Proof.
  intros Hyear Hlow Hlt Hhigh. unfold month_key. rewrite Hyear.
  rewrite !string_ltb_prefix.
  assert (exists a b : nat, getMonth W t1 = Z.of_nat a /\ getMonth W t2 = Z.of_nat b
                            /\ (a < b)%nat /\ (b <= 11)%nat) as (a & b & -> & -> & Hab & Hb).
  { exists (Z.to_nat (getMonth W t1)), (Z.to_nat (getMonth W t2)). lia. }
  clear Hyear Hlow Hlt Hhigh.
  do 12 (destruct b as [|b]; [do 12 (destruct a as [|a]; [try lia; reflexivity|]); lia|]).
  lia.
Qed.

Lemma month_key_order_witness :
  month_key months_world 8 = "2024-09"
  /\ month_key months_world 9 = "2024-10"
  /\ String.ltb (month_key months_world 8) (month_key months_world 9) = true.
Proof.
  split; [reflexivity|]. split; [reflexivity|].
  apply (month_key_order months_world 8 9); cbn; lia.
Defined.

(** ** The nisab route that asks the gold route *)

(** X16. The nisab route that asks the gold route always answers (it never
    throws): a rejected call of the gold route, or an answer without a body
    to read, gives 500 with the text [Failed to calculate nisab value] after
    a console line. Whatever the gold route answers, a 200 answer of the
    nisab route reports a nisab of 85 times the number of the gram price it
    reports, and 85 as the nisab grams. *)
Theorem nisab_always_answers (W : World) (request : Request) :
  total (Nisab.GET W request)
  /\ (forall e s,
         own_origin_fault W = Some e ->
         Nisab.GET W request s
         = (Normal (NextResponse_json
                      [("error", Str "Failed to calculate nisab value")] 500),
            set_console (console s ++ ["[Nisab API] Error:"])%list s))
  /\ returns (fun r => response_status r = 200 -> nisab_of W r) (Nisab.GET W request).
Proof.
  split; [|split].
  - apply total_try_catch. intros e. repeat total_step.
  - intros e s Hfault. unfold Nisab.GET, Nisab.fetch_gold. cbv zeta.
    now rewrite Hfault.
  - unfold Nisab.GET. cbv zeta. apply returns_try_catch.
    + apply returns_bind_any. intros gold. unfold Nisab.respond.
      destruct (negb (ok_status (response_status gold))) eqn:Hok.
      * apply returns_bind_any. intros _. apply returns_ret. cbn.
        intros H200. rewrite H200 in Hok. discriminate.
      * apply returns_bind_any. intros error.
        destruct (Js.truthy error); [apply returns_ret; discriminate|].
        apply returns_bind_any. intros price_gram_24k. cbv zeta.
        repeat (apply returns_bind_any; intros ?).
        apply returns_ret. intros _. exists price_gram_24k.
        rewrite !field_NextResponse_json by distinct_keys. repeat split.
    + intros e. apply returns_bind_any. intros _. apply returns_ret. discriminate.
Qed.

(** ** What the keyed adapters make of an answer *)

Lemma truthy_opt_get v k : Js.truthy (Js.opt v k) = true -> Js.get v k = Normal (Js.opt v k).
Proof. destruct v; try reflexivity; discriminate. Qed.

Lemma truthy_opt_inner v k k' :
  Js.truthy (Js.opt (Js.opt v k) k') = true -> Js.get v k = Normal (Js.opt v k).
Proof. destruct v; try reflexivity; discriminate. Qed.

(** X17. What the metals-api and fcsapi adapters of every route make of an
    answer with a success status and a JSON body. metals-api: when [success]
    and [rates.CAD] are truthy, the ounce price is the reciprocal of the
    number of [rates.CAD]. fcsapi: when [status] and [response[0].price] are
    truthy, the ounce price is the number of [response[0].price]. In both
    the gram price is the ounce price divided by 31.1034768, the payload has
    the adapter's tag, and one request has been sent. *)
Theorem keyed_adapter_prices (W : World) (symbol : string)
    (payload_type : option string) (line : string) (s : State) :
  (forall key e r data,
      configured (METALS_API_KEY W) = Some key ->
      network W (clock s) (metals_request symbol key)
      = {| elapsed := e; result := Resolved r |} ->
      ok r = true ->
      json_body r = Some data ->
      Js.truthy (Js.opt data "success") = true ->
      Js.truthy (Js.opt (Js.opt data "rates") "CAD") = true ->
      fetchMetalsApi W symbol payload_type line s
      = (Normal
           (Some {| price_oz := (1 / ToNumber W (Js.opt (Js.opt data "rates") "CAD"))%float;
                    price_gram_24k :=
                      (1 / ToNumber W (Js.opt (Js.opt data "rates") "CAD")
                       / 31.1034768)%float;
                    currency := "CAD";
                    provider := "metals-api";
                    type := payload_type;
                    cached := None |}),
         after_request (metals_request symbol key) e s))
  /\ (forall key e r data,
         configured (FCS_API_KEY W) = Some key ->
         network W (clock s) (fcsapi_request symbol key)
         = {| elapsed := e; result := Resolved r |} ->
         ok r = true ->
         json_body r = Some data ->
         Js.truthy (Js.opt data "status") = true ->
         Js.truthy (Js.opt (Js.opt (Js.opt data "response") "0") "price") = true ->
         fetchFcsApi W symbol payload_type line s
         = (Normal
              (Some {| price_oz :=
                         ToNumber W (Js.opt (Js.opt (Js.opt data "response") "0") "price");
                       price_gram_24k :=
                         (ToNumber W (Js.opt (Js.opt (Js.opt data "response") "0") "price")
                          / 31.1034768)%float;
                       currency := "CAD";
                       provider := "fcsapi";
                       type := payload_type;
                       cached := None |}),
            after_request (fcsapi_request symbol key) e s)).
Proof.
  split.
  - intros key e r data Hkey Hnet Hok Hjson Hsuccess Hrate.
    unfold fetchMetalsApi. rewrite Hkey.
    unfold try_catch, bind at 1, fetch. rewrite Hnet. cbn [result elapsed].
    rewrite Hok. cbn [negb]. unfold bind at 1, response_json. rewrite Hjson.
    unfold ret at 1. rewrite Hsuccess, Hrate. cbn [andb].
    unfold bind at 1, lift at 1. rewrite (truthy_opt_inner _ _ _ Hrate).
    unfold bind at 1, lift at 1. rewrite (truthy_opt_get _ _ Hrate).
    reflexivity.
  - intros key e r data Hkey Hnet Hok Hjson Hstatus Hprice.
    unfold fetchFcsApi. rewrite Hkey.
    unfold try_catch, bind at 1, fetch. rewrite Hnet. cbn [result elapsed].
    rewrite Hok. cbn [negb]. unfold bind at 1, response_json. rewrite Hjson.
    unfold ret at 1. rewrite Hstatus, Hprice. cbn [andb].
    assert (Js.get data "response" = Normal (Js.opt data "response")) as Hfirst
      by (destruct data; try reflexivity; discriminate).
    unfold bind at 1, lift at 1. rewrite Hfirst.
    unfold bind at 1, lift at 1. rewrite (truthy_opt_inner _ _ _ Hprice).
    unfold bind at 1, lift at 1. rewrite (truthy_opt_get _ _ Hprice).
    reflexivity.
Qed.

Lemma keyed_adapter_prices_witness :
  exists p,
    fst (Gold.fetchMetalsApi metals_world boot) = Normal (Some p)
    /\ price_oz p = (1 / 0.0002)%float.
Proof.
  eexists. split.
  - unfold Gold.fetchMetalsApi.
    rewrite (proj1 (keyed_adapter_prices metals_world "XAU" None _ boot)
               "m1" 40%N
               {| status := 200;
                  json_body := Some (Obj [("success", Bool true);
                                          ("rates", Obj [("CAD", Num 0.0002%float)])]);
                  text_body := "" |}
               (Obj [("success", Bool true); ("rates", Obj [("CAD", Num 0.0002%float)])])
               eq_refl eq_refl eq_refl eq_refl eq_refl eq_refl).
    reflexivity.
  - reflexivity.
Defined.
